(** * Medio: shallow embedding of [app/medio.py]

    The automatic media organizer watches a directory, waits until a file
    has stopped changing, has exiftool rename it and then removes the copy
    when the renamed file is a duplicate.  This development embeds the
    Python code as Rocq functions and proves the properties of the
    event-to-action pipeline.

    Conventions of the embedding.
    - A Python [str] is a [string]; its characters stand for the code
      points below 256.
    - Python integers are [Z]; [time.time()] readings are exact rationals
      [Q] (the float subtraction [now - tstamp] of two nearby clock readings
      is exact).
    - Code that changes state or may raise lives in the monad [M S], a
      state monad whose state survives an exception, as Python's does.
    - The file system is a finite map from the path string handed to
      [os.*] to the node found there.
    - [log(msg)] appends to the list of log entries; the [time.ctime()]
      prefix is left out.
    - [filecmp.cmp] of the standard library keeps the outcomes of its
      comparisons in the module variable [_cache]; that variable is part of
      the state.
    - The Watcher thread and the timer threads run [check_actives] on one
      state and without a lock.  [Detector] takes each call as one step;
      [Overlap] lets the calls advance statement by statement, in any
      order. *)

From Stdlib Require Import ZArith QArith Ascii String List Lia Bool.
From stdpp Require Import gmap strings list.

Local Open Scope Z_scope.

(** ** Exceptions and the state-and-exception monad *)

Inductive Exn : Type :=
  | TypeError
  | KeyError
  | IndexError
  | FileNotFoundError
  | OSError.

Inductive Res (A : Type) : Type :=
  | Ret (a : A)
  | Raise (e : Exn).
Arguments Ret {A} a.
Arguments Raise {A} e.

Definition M (S A : Type) : Type := S → Res A * S.

Global Instance M_ret {S} : MRet (M S) := λ A a s, (Ret a, s).
Global Instance M_bind {S} : MBind (M S) := λ A B k m s,
  match m s with
  | (Ret a, s') => k a s'
  | (Raise e, s') => (Raise e, s')
  end.
Definition raise {S A} (e : Exn) : M S A := λ s, (Raise e, s).
Definition modify {S} (f : S → S) : M S unit := λ s, (Ret tt, f s).
Definition gets {S A} (f : S → A) : M S A := λ s, (Ret (f s), s).
(** A pure computation that may raise, run inside [M]. *)
Definition lift {S A} (r : Res A) : M S A := λ s, (r, s).

(** [for x in xs: body x] *)
Fixpoint for_each {S A} (xs : list A) (body : A → M S unit) : M S unit :=
  match xs with
  | [] => mret tt
  | x :: xs' => body x;; for_each xs' body
  end.

(** ** Python strings *)

Module Py.

Definition chr_eqb (a b : ascii) : bool := Ascii.eqb a b.

(** [c in s] for a one-character [c] *)
Fixpoint contains (c : ascii) (s : string) : bool :=
  match s with
  | EmptyString => false
  | String a s' => chr_eqb a c || contains c s'
  end.

(** [s.split(sep)] for a one-character separator *)
Fixpoint split (sep : ascii) (s : string) : list string :=
  match s with
  | EmptyString => [EmptyString]
  | String a s' =>
      if chr_eqb a sep then EmptyString :: split sep s'
      else match split sep s' with
           | x :: r => String a x :: r
           | [] => [String a EmptyString]
           end
  end.

(** [sep.join(l)] *)
Fixpoint join (sep : string) (l : list string) : string :=
  match l with
  | [] => ""
  | [x] => x
  | x :: r => x +:+ sep +:+ join sep r
  end.

(** [l[0]] *)
Definition item0 (l : list string) : Res string :=
  match l with
  | x :: _ => Ret x
  | [] => Raise IndexError
  end.

(** [s.rfind(c)]: the highest index of [c] in [s], or -1. *)
Fixpoint rfind_from (c : ascii) (s : string) (i last : Z) : Z :=
  match s with
  | EmptyString => last
  | String a s' => rfind_from c s' (i + 1) (if chr_eqb a c then i else last)
  end.
Definition rfind (c : ascii) (s : string) : Z := rfind_from c s 0 (-1).

(** [s[:n]] and [s[n:]] for [0 <= n] *)
Fixpoint take (n : nat) (s : string) : string :=
  match n, s with
  | S n', String a s' => String a (take n' s')
  | _, _ => ""
  end.
Fixpoint drop (n : nat) (s : string) : string :=
  match n, s with
  | S n', String _ s' => drop n' s'
  | _, _ => s
  end.
Definition upto (i : Z) (s : string) : string := take (Z.to_nat i) s.
Definition from (i : Z) (s : string) : string := drop (Z.to_nat i) s.
(** [s[i:i+1]] *)
Definition slice1 (i : Z) (s : string) : string := take 1 (from i s).

(** [str.lower] on the code points below 256: A-Z and the Latin-1
    capitals (all of 0xC0-0xDE but the multiplication sign). *)
Definition lower_chr (a : ascii) : ascii :=
  let n := N_of_ascii a in
  if ((65 <=? n) && (n <=? 90) ||
      (192 <=? n) && (n <=? 222) && negb (n =? 215))%N
  then ascii_of_N (n + 32) else a.
Fixpoint lower (s : string) : string :=
  match s with
  | EmptyString => EmptyString
  | String a s' => String (lower_chr a) (lower s')
  end.

(** The class [\s] of [re] on [str] patterns, for code points below 256. *)
Definition isspace (a : ascii) : bool :=
  let n := N_of_ascii a in
  ((9 <=? n) && (n <=? 13) || (28 <=? n) && (n <=? 32) ||
   (n =? 133) || (n =? 160))%N.

(** Values of mixed type: what [os.environ.get(key, True)] returns. *)
Inductive value : Type :=
  | VStr (s : string)
  | VBool (b : bool).

(** Truth value testing. *)
Definition truthy (v : value) : bool :=
  match v with
  | VStr s => negb (String.eqb s "")
  | VBool b => b
  end.

(** [s + v] with [s] a [str] *)
Definition str_add (s : string) (v : value) : Res string :=
  match v with
  | VStr t => Ret (s +:+ t)
  | VBool _ => Raise TypeError
  end.

End Py.

(** ** [os.path] (posixpath) *)

Module OsPath.

(** [os.path.join(a, b)] *)
Definition join (a b : string) : string :=
  match b with
  | String "/" _ => b
  | _ =>
      if String.eqb a "" then b
      else if Py.chr_eqb (default "/"%char (last (list_ascii_of_string a))) "/"
           then a +:+ b
           else a +:+ "/" +:+ b
  end.

(** The loop of [genericpath._splitext] that skips the leading dots of the
    last component; [n] bounds the remaining iterations. *)
Fixpoint splitext_scan (p : string) (filenameIndex dotIndex : Z) (n : nat)
  : string * string :=
  match n with
  | O => (p, "")
  | S n' =>
      if filenameIndex <? dotIndex then
        if negb (String.eqb (Py.slice1 filenameIndex p) ".")
        then (Py.upto dotIndex p, Py.from dotIndex p)
        else splitext_scan p (filenameIndex + 1) dotIndex n'
      else (p, "")
  end.

(** [os.path.splitext(p)] *)
Definition splitext (p : string) : string * string :=
  let sepIndex := Py.rfind "/" p in
  let dotIndex := Py.rfind "." p in
  if sepIndex <? dotIndex then
    let filenameIndex := sepIndex + 1 in
    splitext_scan p filenameIndex dotIndex (Z.to_nat (dotIndex - filenameIndex))
  else (p, "").

End OsPath.

(** ** Log entries *)

Inductive LogMsg : Type :=
  | Line (s : string)
      (** [log(s)] of a formatted message *)
  | Moved (srcfile dstfile : string)
      (** [log('Moved %s to %s' % ...)]: both paths are printed relative to
          their common prefix *)
  | Traceback (e : Exn).
      (** [log(traceback.format_exc(2))] while [e] is being handled *)

(** ** Configuration *)

Definition PKGDIR : string := "/app".
Definition SRCDIR : string := "/source".
Definition DSTDIR : string := "/dest".

Definition ACCEPTED_EXTENSIONS : list string :=
  [".jpg"; ".jpeg"; ".mpg"; ".mp4"; ".png";
   ".mov"; ".thm"; ".avi"; ".raw"; ".arw";
   ".heic"; ".heif"; ".nef"; ".3gp"].

(** [os.environ] *)
Abbreviation Environ := (gmap string string).

(** [os.environ.get(key, default)] *)
Definition environ_get (env : Environ) (key : string) (dflt : Py.value) : Py.value :=
  match env !! key with
  | Some s => Py.VStr s
  | None => dflt
  end.

Module Config.

Definition DEFAULT_DSTFMT : string := "%Y/%m/%Y%m%d_%H%M%S%%-uc.%%e".

(** The [log] of [Config.__init__], on a state that is the log itself. *)
Definition log (msg : string) : M (list LogMsg) unit :=
  modify (λ l, l ++ [Line msg]).

Definition init (env : Environ) : M (list LogMsg) unit :=
  m1 ← lift (Py.str_add "ENV FORMAT: "
               (environ_get env "FORMAT" (Py.VStr DEFAULT_DSTFMT)));
  log m1;;
  m2 ← lift (Py.str_add "ENV DELETE_DUPLICATE: "
               (environ_get env "DELETE_DUPLICATE" (Py.VBool true)));
  log m2;;
  m3 ← lift (Py.str_add "ENV LOCALE: "
               (environ_get env "LOCALE" (Py.VStr "zh_CN.utf8")));
  log m3.

Definition UI_SRCDIR (env : Environ) : string := SRCDIR.
Definition UI_DSTDIR (env : Environ) : string := DSTDIR.

(** [os.environ.get('FORMAT', self.DEFAULT_DSTFMT)]: a [str] either way. *)
Definition UI_DSTFMT (env : Environ) : string :=
  match env !! "FORMAT" with
  | Some s => s
  | None => DEFAULT_DSTFMT
  end.

Definition UI_DELETE_DUPS (env : Environ) : Py.value :=
  environ_get env "DELETE_DUPLICATE" (Py.VBool true).

Definition UI_LOCALE (env : Environ) : string :=
  match env !! "LOCALE" with
  | Some s => s
  | None => "zh_CN.utf8"
  end.

End Config.

(** The start of the [__main__] block: [cfg = Config()] inside the
    [try ... except: log(traceback)] that wraps the whole start-up.  When
    the constructor raises, nothing after it runs: no queue, thread or
    watch is created and the process ends after logging the traceback. *)
Inductive Startup : Type :=
  | Aborted (e : Exn)
  | Configured.

Definition main_config (env : Environ) : list LogMsg → Startup * list LogMsg :=
  λ l, match Config.init env l with
       | (Ret _, l') => (Configured, l')
       | (Raise e, l') => (Aborted e, l' ++ [Traceback e])
       end.

(** ** Regular expressions: the fragment [rename_re] is written in *)

Module Re.

Inductive cls : Type :=
  | Space      (** [\s] *)
  | NonSpace.  (** [\S] *)

Definition cls_match (c : cls) (a : ascii) : bool :=
  match c with
  | Space => Py.isspace a
  | NonSpace => negb (Py.isspace a)
  end.

Inductive item : Type :=
  | Chr (a : ascii)   (** a literal character *)
  | Plus (c : cls)    (** [c+], greedy *)
  | Group (c : cls).  (** [(c+)], greedy and capturing *)

(** The number of leading characters of [s] in the class [c]. *)
Fixpoint span (c : cls) (s : string) : nat :=
  match s with
  | String a s' => if cls_match c a then S (span c s') else O
  | EmptyString => O
  end.

(** Greedy repetition: the continuation is tried after [n] characters,
    then after [n-1], ... down to one character. *)
Fixpoint backtrack {X} (continue : nat → option X) (n : nat) : option X :=
  match n with
  | O => None
  | S n' =>
      match continue n with
      | Some x => Some x
      | None => backtrack continue n'
      end
  end.

(** Match [items] at the start of [s]; the result lists the groups. *)
Fixpoint match_here (items : list item) (s : string) : option (list string) :=
  match items with
  | [] => Some []
  | Chr a :: r =>
      match s with
      | String b s' => if Py.chr_eqb a b then match_here r s' else None
      | EmptyString => None
      end
  | Plus c :: r =>
      backtrack (λ k, match_here r (Py.drop k s)) (span c s)
  | Group c :: r =>
      backtrack (λ k, cons (Py.take k s) <$> match_here r (Py.drop k s))
                (span c s)
  end.

(** [pattern.match(s)] *)
Definition match_ (pattern : list item) (s : string) : option (list string) :=
  match_here pattern s.

(** [m.group(i)] for [i >= 1] *)
Definition group (m : list string) (i : nat) : string :=
  nth (pred i) m "".

End Re.

(** ** The file system and the log *)

(** What [os.stat] finds at a path: a regular file with its content and
    modification time, or something else (a directory, say) with the size
    [st_size] reports for it. *)
Inductive Node : Type :=
  | Regular (content : string) (mtime : Z)
  | Other (size : Z).

Definition st_size (nd : Node) : Z :=
  match nd with
  | Regular content _ => Z.of_nat (String.length content)
  | Other size => size
  end.

(** [filecmp._sig]: the file type (regular or not), the size and the
    modification time of a file. *)
Definition Sig : Type := bool * Z * Z.

(** The key under which [filecmp.cmp] remembers the outcome of a comparison:
    both paths and both signatures. *)
Definition CmpKey : Type := string * string * Sig * Sig.

(** What the process works on: the file system, the log, and the module
    variable [filecmp._cache] of the standard library. *)
Record World : Type := mkWorld {
  fs : gmap string Node;
  logs : list LogMsg;
  cmp_cache : gmap CmpKey bool;
}.

Definition log_entry (m : LogMsg) : M World unit :=
  modify (λ w, mkWorld (fs w) (logs w ++ [m]) (cmp_cache w)).

(** [log(msg)] *)
Definition log (msg : string) : M World unit := log_entry (Line msg).

Module Os.

(** [os.path.exists(path)] *)
Definition path_exists (path : string) : M World bool :=
  gets (λ w, bool_decide (is_Some (fs w !! path))).

(** [os.stat(path)] *)
Definition stat (path : string) : M World Node :=
  λ w, match fs w !! path with
       | Some nd => (Ret nd, w)
       | None => (Raise FileNotFoundError, w)
       end.

(** [os.remove(path)]: unlinks a file, refuses a directory. *)
Definition remove (path : string) : M World unit :=
  λ w, match fs w !! path with
       | Some (Regular _ _) => (Ret tt, mkWorld (delete path (fs w)) (logs w) (cmp_cache w))
       | Some (Other _) => (Raise OSError, w)
       | None => (Raise FileNotFoundError, w)
       end.

End Os.

Module Filecmp.

(** [filecmp._sig(os.stat(f))] *)
Definition sig (nd : Node) : Sig :=
  match nd with
  | Regular content mtime => (true, st_size nd, mtime)
  | Other size => (false, size, 0)
  end.

Definition is_regular (nd : Node) : bool :=
  match nd with Regular _ _ => true | Other _ => false end.

(** [filecmp._do_cmp]: reads both files and compares the bytes. *)
Definition do_cmp (n1 n2 : Node) : bool :=
  match n1, n2 with
  | Regular c1 _, Regular c2 _ => String.eqb c1 c2
  | _, _ => false
  end.

(** [if len(_cache) > 100: clear_cache()], then [_cache[key] = outcome]. *)
Definition remember (key : CmpKey) (outcome : bool) (cache : gmap CmpKey bool) :
    gmap CmpKey bool :=
  <[key := outcome]> (if 100 <? Z.of_nat (size cache) then ∅ else cache).

(** [filecmp.cmp(f1, f2, shallow)]: two regular files of one size are
    compared byte by byte, unless an outcome is remembered for these paths
    and signatures; the outcome of a comparison is remembered. *)
Definition cmp (f1 f2 : string) (shallow : bool) : M World bool :=
  s1 ← Os.stat f1;
  s2 ← Os.stat f2;
  if negb (is_regular s1) || negb (is_regular s2) then mret false
  else if shallow && bool_decide (sig s1 = sig s2) then mret true
  else if negb (st_size s1 =? st_size s2) then mret false
  else
    cache ← gets cmp_cache;
    match cache !! (f1, f2, sig s1, sig s2) with
    | Some outcome => mret outcome
    | None =>
        let outcome := do_cmp s1 s2 in
        modify (λ w, mkWorld (fs w) (logs w)
                       (remember (f1, f2, sig s1, sig s2) outcome (cmp_cache w)));;
        mret outcome
    end.

End Filecmp.

(** ** The external rename program *)

(** [Spawn]: what is kept of a finished subprocess. *)
Record Spawn : Type := mkSpawn {
  stdout : string;
  stderr : string;
  retval : Z;
}.

Definition newline : ascii := "010"%char.

(** ** Rename-and-dedup executor *)

Module Worker.

(** [re.compile(r"'(\S+)'\s+-->\s+'(\S+)'")] *)
Definition rename_re : list Re.item :=
  [Re.Chr "'"; Re.Group Re.NonSpace; Re.Chr "'"; Re.Plus Re.Space;
   Re.Chr "-"; Re.Chr "-"; Re.Chr ">"; Re.Plus Re.Space;
   Re.Chr "'"; Re.Group Re.NonSpace; Re.Chr "'"].

(** The condition of line 105. *)
Definition dedup_enabled (env : Environ) (dstfile : string) : bool :=
  String.eqb (Config.UI_DSTFMT env) Config.DEFAULT_DSTFMT
  && Py.truthy (Config.UI_DELETE_DUPS env)
  && Py.contains "-" dstfile.

(** [dstfile.split('-')[0] + extension] *)
Definition dupfile_of (dstfile : string) : Res string :=
  let extension := snd (OsPath.splitext dstfile) in
  match Py.item0 (Py.split "-" dstfile) with
  | Ret head => Ret (head +:+ extension)
  | Raise e => Raise e
  end.

(** Lines 106-111: the duplicate check of one renamed file. *)
Definition dedup (dstfile : string) : M World unit :=
  dupfile ← lift (dupfile_of dstfile);
  log ("Check if " +:+ dstfile +:+ " is a duplicate file of " +:+ dupfile);;
  ex ← Os.path_exists dupfile;
  same ← (if ex : bool then Filecmp.cmp dstfile dupfile false
          else mret false : M World bool);
  (if same : bool then
     Os.remove dstfile;;
     log ("Removed " +:+ dstfile +:+ ": a duplicate of " +:+ dupfile)
   else mret tt : M World unit).

(** The body of the loop over the output lines (lines 99-111); the local
    variable [dstfile] is threaded through. *)
Definition handle_line (env : Environ) (srcfile : string)
    (dstfile : option string) (line : string) : M World (option string) :=
  match Re.match_ rename_re line with
  | Some m =>
      if String.eqb (Re.group m 1) srcfile then
        let dstfile := Re.group m 2 in
        log_entry (Moved srcfile dstfile);;
        (if dedup_enabled env dstfile then dedup dstfile
         else mret tt : M World unit);;
        mret (Some dstfile)
      else mret dstfile
  | None => mret dstfile
  end.

(** [for line in lines: ...] *)
Fixpoint handle_lines (env : Environ) (srcfile : string)
    (dstfile : option string) (lines : list string) : M World (option string) :=
  match lines with
  | [] => mret dstfile
  | line :: rest =>
      d ← handle_line env srcfile dstfile line;
      handle_lines env srcfile d rest
  end.

Section Process.

(** The exiftool run behind [Spawn(cmd)]: from the argument vector and
    the file system before, the finished subprocess and the file system
    after; [None] when the subprocess cannot be started. *)
Variable exiftool : list string → gmap string Node → option (Spawn * gmap string Node).

Definition spawn (cmd : list string) : M World Spawn :=
  λ w, match exiftool cmd (fs w) with
       | Some (p, fs') => (Ret p, mkWorld fs' (logs w) (cmp_cache w))
       | None => (Raise OSError, w)
       end.

Definition command (env : Environ) (path : string) : list string :=
  let srcfile := OsPath.join (Config.UI_SRCDIR env) path in
  let dstfmt := OsPath.join (Config.UI_DSTDIR env) (Config.UI_DSTFMT env) in
  [OsPath.join PKGDIR "exiftool"; "-v"; "-r"; "-d"; dstfmt;
   "-filename<filemodifydate"; "-filename<createdate";
   "-filename<datetimeoriginal"; srcfile].

Definition process_file (env : Environ) (path : string) : M World unit :=
  let srcfile := OsPath.join (Config.UI_SRCDIR env) path in
  p ← spawn (command env path);
  if negb (retval p =? 0) then
    log ("exiftool FAILED for " +:+ path +:+ ": "
         +:+ Py.join " " (Py.split newline (stderr p)))
  else
    dstfile ← handle_lines env srcfile None (Py.split newline (stdout p));
    match dstfile with
    | None => log "exiftool succeeded, but no file rename information found"
    | Some _ => (mret tt : M World unit)
    end.

End Process.

End Worker.

(** ** The consumer loop of a thread *)

(** [Worker.run] and [Watcher.run] are the same loop over different queues;
    [Thread.run] is that loop for a thread of name [role] whose
    [process_file] works on a state [W].  The queue holds the items that
    [get()] will hand out, in order; on an empty queue [get()] blocks. *)
Module Thread.

Inductive Ending : Type :=
  | Exited                       (** the loop was left, the thread is gone *)
  | Blocked (errorCount : Z).    (** waiting in [get()] *)

Record Stop (W I : Type) : Type := mkStop {
  ending : Ending;
  unconsumed : list I;
  final : W;
}.
Arguments mkStop {W I} _ _ _.
Arguments ending {W I} _.
Arguments unconsumed {W I} _.
Arguments final {W I} _.

Section Run.
Context {W I : Type}.
Variable role : string.
Variable process_file : I → M W unit.
Variable log_entry : LogMsg → M W unit.

Fixpoint run_from (errorCount : Z) (queue : list I) (w : W) : Stop W I :=
  if errorCount <? 5 then
    match queue with
    | [] => mkStop (Blocked errorCount) [] w
    | path :: rest =>
        match process_file path w with
        | (Ret _, w') => run_from errorCount rest w'
        | (Raise e, w') =>
            run_from (errorCount + 1) rest (snd (log_entry (Traceback e) w'))
        end
    end
  else
    mkStop Exited queue
      (snd (log_entry (Line ("Too many errors, " +:+ role +:+ " thread exiting")) w)).

Definition run (queue : list I) (w : W) : Stop W I := run_from 0 queue w.

(** What [process_file] does on each item when the loop never stops:
    [true] for an item that raised. *)
Fixpoint raises (queue : list I) (w : W) : list bool :=
  match queue with
  | [] => []
  | path :: rest =>
      match process_file path w with
      | (Ret _, w') => false :: raises rest w'
      | (Raise e, w') => true :: raises rest (snd (log_entry (Traceback e) w'))
      end
  end.

End Run.

(** The number of failures in a list of outcomes. *)
Definition failures (l : list bool) : Z := Z.of_nat (length (filter (λ b, b = true) l)).

(** The longest run of failures in a row. *)
Fixpoint longest_streak_from (cur best : Z) (l : list bool) : Z :=
  match l with
  | [] => Z.max cur best
  | true :: l' => longest_streak_from (cur + 1) best l'
  | false :: l' => longest_streak_from 0 (Z.max cur best) l'
  end.
Definition longest_streak (l : list bool) : Z := longest_streak_from 0 0 l.

End Thread.

Module WorkerThread.
Section Run.
Variable exiftool : list string → gmap string Node → option (Spawn * gmap string Node).

(** [Worker.run] *)
Definition run (env : Environ) (workq : list string) (w : World)
  : Thread.Stop World string :=
  Thread.run "Worker" (Worker.process_file exiftool env) log_entry workq w.
End Run.
End WorkerThread.

(** ** Stability detector *)

(** [x > y] on clock readings *)
Definition Qgtb (x y : Q) : bool := negb (Qle_bool x y).

(** The insertion-ordered [dict] from paths to timestamps. *)
Module Dict.

Definition t : Type := list (string * Q).

Definition keys (d : t) : list string := d.*1.

Fixpoint get (k : string) (d : t) : option Q :=
  match d with
  | [] => None
  | (k', v) :: d' => if String.eqb k' k then Some v else get k d'
  end.

(** [d[k] = v]: a present key keeps its place, a new key goes last. *)
Fixpoint set (k : string) (v : Q) (d : t) : t :=
  match d with
  | [] => [(k, v)]
  | (k', v') :: d' =>
      if String.eqb k' k then (k', v) :: d' else (k', v') :: set k v d'
  end.

(** [del d[k]] *)
Fixpoint del (k : string) (d : t) : Res t :=
  match d with
  | [] => Raise KeyError
  | (k', v') :: d' =>
      if String.eqb k' k then Ret d'
      else match del k d' with
           | Ret d'' => Ret ((k', v') :: d'')
           | Raise e => Raise e
           end
  end.

(** The representation invariant: no key occurs twice. *)
Definition wf (d : t) : Prop := NoDup (keys d).

End Dict.

Module Watcher.

Inductive TimerStatus : Type :=
  | Pending      (** started, waiting for its interval to elapse *)
  | Fired        (** the interval elapsed and the function was called *)
  | Cancelled.   (** [cancel()] came first *)

Record TimerObj : Type := mkTimer {
  interval : Q;
  status : TimerStatus;
}.

(** The state the Watcher works on.  [timers] is the heap of timer
    objects created so far, a timer being known by its index; [timer] is
    the attribute [self.timer]. *)
Record State : Type := mkState {
  world : World;
  workq : list string;
  active : Dict.t;
  timer : option nat;
  timers : list TimerObj;
}.

Definition set_workq (f : list string → list string) (st : State) : State :=
  mkState (world st) (f (workq st)) (active st) (timer st) (timers st).
Definition set_active (d : Dict.t) (st : State) : State :=
  mkState (world st) (workq st) d (timer st) (timers st).
Definition set_timer (t : option nat) (st : State) : State :=
  mkState (world st) (workq st) (active st) t (timers st).
Definition set_timers (ts : list TimerObj) (st : State) : State :=
  mkState (world st) (workq st) (active st) (timer st) ts.
Definition set_world (w : World) (st : State) : State :=
  mkState w (workq st) (active st) (timer st) (timers st).

Definition log_entry (m : LogMsg) : M State unit :=
  modify (λ st, set_world (mkWorld (fs (world st)) (logs (world st) ++ [m])
                             (cmp_cache (world st))) st).

(** [self.workq.put(filepath)] *)
Definition put (filepath : string) : M State unit :=
  modify (set_workq (λ q, q ++ [filepath])).

(** [del self.active[filepath]] *)
Definition del_active (filepath : string) : M State unit :=
  λ st, match Dict.del filepath (active st) with
        | Ret d => (Ret tt, set_active d st)
        | Raise e => (Raise e, st)
        end.

(** [Timer.cancel]: stops a timer that has not fired yet. *)
Definition cancel (id : nat) : M State unit :=
  modify (λ st,
    match timers st !! id with
    | Some (mkTimer i Pending) => set_timers (<[id := mkTimer i Cancelled]> (timers st)) st
    | _ => st
    end).

(** [self.timer = LoggingTimer(interval, self.check_actives)] followed by
    [self.timer.start()] *)
Definition start_timer (interval : Q) : M State unit :=
  modify (λ st,
    set_timer (Some (length (timers st)))
      (set_timers (timers st ++ [mkTimer interval Pending]) st)).

(** The first loop of [check_actives] (lines 148-151), over the items
    the dict had when the loop began. *)
Fixpoint collect (now : Q) (items : list (string * Q)) (delete_keys : list string)
  : M State (list string) :=
  match items with
  | [] => mret delete_keys
  | (filepath, tstamp) :: rest =>
      if Qgtb (now - tstamp) 30 then
        put filepath;;
        collect now rest (delete_keys ++ [filepath])
      else collect now rest delete_keys
  end.

(** [check_actives], run at clock reading [now]. *)
Definition check_actives (now : Q) : M State unit :=
  items ← gets active;
  delete_keys ← collect now items [];
  for_each delete_keys del_active;;
  d ← gets active;
  if 0 <? Z.of_nat (length (d : Dict.t)) then
    t ← gets timer;
    match t : option nat with
    | Some id => cancel id
    | None => mret tt
    end;;
    start_timer 5
  else (mret tt : M State unit).

(** [os.path.exists(path) and os.stat(path).st_size or 0]: the size of
    what is at [path], and 0 when nothing is (a size of 0 is falsy, and
    [or 0] then yields 0 again). *)
Definition filesize (path : string) : M State Z :=
  λ st, match fs (world st) !! path with
        | Some nd => (Ret (st_size nd), st)
        | None => (Ret 0, st)
        end.

(** [Watcher.process_file]; [t_set] and [t_sweep] are the readings of
    the two [time.time()] calls, in [process_file] and in
    [check_actives]. *)
Definition process_file (path : string) (t_set t_sweep : Q) : M State unit :=
  size ← filesize path;
  if 0 <? (size : Z) then
    modify (λ st, set_active (Dict.set path t_set (active st)) st);;
    check_actives t_sweep
  else (mret tt : M State unit).

(** A timer thread whose interval has elapsed ([Timer.run] under
    [LoggingTimer.run]): unless cancelled, it calls [check_actives] and
    logs what that raises. *)
Definition timer_fires (id : nat) (now : Q) : M State unit :=
  λ st,
    match timers st !! id with
    | Some (mkTimer i Pending) =>
        match check_actives now (set_timers (<[id := mkTimer i Fired]> (timers st)) st) with
        | (Ret _, st') => (Ret tt, st')
        | (Raise e, st') => log_entry (Traceback e) st'
        end
    | _ => (Ret tt, st)
    end.

(** [Watcher.run]; an item of the queue is a path with the two clock
    readings taken while it is processed. *)
Definition run (watchq : list (string * Q * Q)) (st : State)
  : Thread.Stop State (string * Q * Q) :=
  Thread.run "Watcher" (λ '(path, t_set, t_sweep), process_file path t_set t_sweep)
    log_entry watchq st.

End Watcher.

(** ** Runs of the stability detector *)

(** The detector's state changes when the Watcher thread handles an item of
    the watch queue, when a timer thread wakes up, and when the world
    outside changes the files.  Each of these is one step: a sweep is not
    interleaved with another one. *)
Module Detector.

Inductive Event : Type :=
  | Dequeued (path : string) (t_set t_sweep : Q)
  | TimerFires (id : nat) (now : Q)
  | Outside (fs' : gmap string Node).

Definition step (st : Watcher.State) (ev : Event) : Watcher.State :=
  match ev with
  | Dequeued path t_set t_sweep =>
      match Watcher.process_file path t_set t_sweep st with
      | (Ret _, st') => st'
      | (Raise e, st') => (Watcher.log_entry (Traceback e) st').2
      end
  | TimerFires id now => (Watcher.timer_fires id now st).2
  | Outside fs' =>
      Watcher.set_world (mkWorld fs' (logs (Watcher.world st))
                           (cmp_cache (Watcher.world st))) st
  end.

Definition run (evs : list Event) (st : Watcher.State) : Watcher.State :=
  fold_left step evs st.

(** The state the Watcher thread starts in: [active = {}], [timer = None]. *)
Definition start (w : World) (workq : list string) : Watcher.State :=
  Watcher.mkState w workq [] None [].

Definition is_pending (t : Watcher.TimerObj) : bool :=
  match Watcher.status t with Watcher.Pending => true | _ => false end.

(** The timers of [ts] that are pending, [i] being the index of the first. *)
Fixpoint pending_from (i : nat) (ts : list Watcher.TimerObj) : list nat :=
  match ts with
  | [] => []
  | t :: ts' => (if is_pending t then [i] else []) ++ pending_from (S i) ts'
  end.

Definition pending (st : Watcher.State) : list nat :=
  pending_from 0 (Watcher.timers st).

(** The invariant of the detector: the dict is a dict, and a pending timer
    is the one [self.timer] refers to. *)
Definition inv (st : Watcher.State) : Prop :=
  Dict.wf (Watcher.active st)
  ∧ ∀ id, id ∈ pending st → Watcher.timer st = Some id.

End Detector.

(** ** Sweeps that overlap *)

(** [check_actives] takes no lock, and it runs on the Watcher thread and on
    every timer thread, so that another thread can run between two of its
    statements.  [Sweep.Pc] is the place one call has reached, with its
    local variables; [Sweep.step] runs the call up to the next place. *)
Module Sweep.

Inductive Pc : Type :=
  | AtLoop (now : Q)                      (** before line 148, [now] read *)
  | AtDelete (delete_keys : list string)  (** before line 152 *)
  | AtRearm                               (** before line 155 *)
  | AtStart                               (** before line 158 *)
  | Returned.

Definition step (pc : Pc) : M Watcher.State Pc :=
  match pc with
  | AtLoop now =>
      items ← gets Watcher.active;
      delete_keys ← Watcher.collect now items [];
      mret (AtDelete delete_keys)
  | AtDelete delete_keys =>
      for_each delete_keys Watcher.del_active;;
      mret AtRearm
  | AtRearm =>
      d ← gets Watcher.active;
      if 0 <? Z.of_nat (length (d : Dict.t)) then
        t ← gets Watcher.timer;
        match t : option nat with
        | Some id => Watcher.cancel id
        | None => mret tt
        end;;
        mret AtStart
      else mret Returned
  | AtStart =>
      Watcher.start_timer 5;;
      mret Returned
  | Returned => mret Returned
  end.

(** One call from its first statement to its last, with no other thread
    in between. *)
Definition whole (now : Q) : M Watcher.State unit :=
  p1 ← step (AtLoop now);
  p2 ← step p1;
  p3 ← step p2;
  step p3;;
  mret tt.

End Sweep.

(** The threads of the detector, a call of [check_actives] advancing by one
    [Sweep.step] at a time while the other threads go on.  The Watcher
    thread takes an item from its queue only when it is not inside
    [check_actives]; a timer thread wakes up when its timer is still
    pending.  What a call raises is logged, by [Watcher.run] or by
    [LoggingTimer.run]; the error count of the Watcher thread is not part
    of this model. *)
Module Overlap.

Inductive Owner : Type :=
  | WatcherThread
  | TimerThread (id : nat).

Record Call : Type := mkCall {
  owner : Owner;
  pc : Sweep.Pc;
}.

(** The state the threads share and the calls of [check_actives] begun so
    far. *)
Record State : Type := mkState {
  shared : Watcher.State;
  calls : list Call;
}.

Inductive Event : Type :=
  | Dequeued (path : string) (t_set t_sweep : Q)
  | TimerWakes (id : nat) (now : Q)
  | Advance (k : nat)
  | Outside (fs' : gmap string Node).

(** The Watcher thread is inside [check_actives]. *)
Definition busy (cs : list Call) : bool :=
  existsb (λ c, match owner c, pc c with
                | WatcherThread, Sweep.Returned => false
                | WatcherThread, _ => true
                | TimerThread _, _ => false
                end) cs.

Definition step (s : State) (ev : Event) : State :=
  match ev with
  | Dequeued path t_set t_sweep =>
      (* lines 162-164 of [Watcher.process_file], up to the call of line 165 *)
      if busy (calls s) then s
      else
        match Watcher.filesize path (shared s) with
        | (Ret size, st) =>
            if 0 <? size then
              mkState (Watcher.set_active (Dict.set path t_set (Watcher.active st)) st)
                (calls s ++ [mkCall WatcherThread (Sweep.AtLoop t_sweep)])
            else s
        | (Raise _, _) => s
        end
  | TimerWakes id now =>
      (* [Timer.run]: the interval of a timer that was not cancelled is over *)
      match Watcher.timers (shared s) !! id with
      | Some (Watcher.mkTimer i Watcher.Pending) =>
          mkState
            (Watcher.set_timers
               (<[id := Watcher.mkTimer i Watcher.Fired]> (Watcher.timers (shared s)))
               (shared s))
            (calls s ++ [mkCall (TimerThread id) (Sweep.AtLoop now)])
      | _ => s
      end
  | Advance k =>
      match calls s !! k with
      | Some c =>
          match Sweep.step (pc c) (shared s) with
          | (Ret pc', st') => mkState st' (<[k := mkCall (owner c) pc']> (calls s))
          | (Raise e, st') =>
              mkState (Watcher.log_entry (Traceback e) st').2
                (<[k := mkCall (owner c) Sweep.Returned]> (calls s))
          end
      | None => s
      end
  | Outside fs' =>
      mkState
        (Watcher.set_world (mkWorld fs' (logs (Watcher.world (shared s)))
                              (cmp_cache (Watcher.world (shared s)))) (shared s))
        (calls s)
  end.

Definition run (evs : list Event) (s : State) : State := fold_left step evs s.

Definition start (w : World) (workq : list string) : State :=
  mkState (Detector.start w workq) [].

End Overlap.

(** ** Event router *)

Module EventHandler.

Record Queues : Type := mkQueues {
  workq : list string;
  watchq : list string;
}.

(** [ext.lower() in ACCEPTED_EXTENSIONS] on the extension of [path] *)
Definition is_relevant_file (path : string) : bool :=
  let '(root, ext) := OsPath.splitext path in
  if bool_decide (Py.lower ext ∈ ACCEPTED_EXTENSIONS) then true else false.

(** [EventHandler.__init__] after the attributes are set: the files
    [os.listdir] finds in the source directory are queued. *)
Fixpoint init (entries : list string) (q : Queues) : Queues :=
  match entries with
  | [] => q
  | entry :: rest =>
      init rest
        (if is_relevant_file entry
         then mkQueues (workq q) (watchq q ++ [OsPath.join SRCDIR entry])
         else q)
  end.

Definition process_IN_CREATE (pathname : string) (q : Queues) : Queues :=
  if is_relevant_file pathname
  then mkQueues (workq q) (watchq q ++ [pathname]) else q.

Definition process_IN_CLOSE_WRITE (pathname : string) (q : Queues) : Queues :=
  if is_relevant_file pathname
  then mkQueues (workq q) (watchq q ++ [pathname]) else q.

Definition process_IN_MOVED_TO (pathname : string) (q : Queues) : Queues :=
  if is_relevant_file pathname
  then mkQueues (workq q ++ [pathname]) (watchq q) else q.

(** The three kinds of event in the watch mask. *)
Inductive Kind : Type := IN_CREATE | IN_CLOSE_WRITE | IN_MOVED_TO.

Record Event : Type := mkEvent {
  kind : Kind;
  pathname : string;
}.

(** The notifier calls the method named after the kind of the event. *)
Definition process (ev : Event) (q : Queues) : Queues :=
  match kind ev with
  | IN_CREATE => process_IN_CREATE (pathname ev) q
  | IN_CLOSE_WRITE => process_IN_CLOSE_WRITE (pathname ev) q
  | IN_MOVED_TO => process_IN_MOVED_TO (pathname ev) q
  end.

End EventHandler.

(** ** Vocabulary of the statements *)

(** What precedes the first [c] in [s]. *)
Fixpoint before (c : ascii) (s : string) : string :=
  match s with
  | EmptyString => EmptyString
  | String a s' => if Py.chr_eqb a c then EmptyString else String a (before c s')
  end.

(** Both paths hold regular files with the same bytes. *)
Definition identical (fs : gmap string Node) (f1 f2 : string) : Prop :=
  ∃ c m1 m2, fs !! f1 = Some (Regular c m1) ∧ fs !! f2 = Some (Regular c m2).

(** The key under which [filecmp.cmp(f1, f2, False)] remembers the
    comparison of two regular files. *)
Definition cmp_key (f1 f2 c1 : string) (m1 : Z) (c2 : string) (m2 : Z) : CmpKey :=
  (f1, f2, Filecmp.sig (Regular c1 m1), Filecmp.sig (Regular c2 m2)).

(** What [filecmp.cmp] answers for two regular files of one size: the
    outcome it remembers under the key, and else the comparison of the
    bytes. *)
Definition cmp_answer (cache : gmap CmpKey bool) (key : CmpKey) (c1 c2 : string) : bool :=
  default (String.eqb c1 c2) (cache !! key).

(** The cache after that call. *)
Definition cmp_cache_after (cache : gmap CmpKey bool) (key : CmpKey) (c1 c2 : string) :
    gmap CmpKey bool :=
  match cache !! key with
  | Some _ => cache
  | None => Filecmp.remember key (String.eqb c1 c2) cache
  end.

Definition check_line (dstfile dupfile : string) : LogMsg :=
  Line ("Check if " +:+ dstfile +:+ " is a duplicate file of " +:+ dupfile).
Definition removed_line (dstfile dupfile : string) : LogMsg :=
  Line ("Removed " +:+ dstfile +:+ ": a duplicate of " +:+ dupfile).

Definition is_moved (m : LogMsg) : Prop :=
  match m with Moved _ _ => True | _ => False end.

(** A log entry that reports neither a duplicate check nor a removal. *)
Definition no_dedup_entry (m : LogMsg) : Prop :=
  ∀ a b, m ≠ check_line a b ∧ m ≠ removed_line a b.

(** The test of line 149, on an item of the active set. *)
Definition stale (now : Q) (e : string * Q) : bool := Qgtb (now - e.2) 30.

Definition stale_keys (now : Q) (d : Dict.t) : list string :=
  (List.filter (stale now) d).*1.
Definition fresh_items (now : Q) (d : Dict.t) : Dict.t :=
  List.filter (λ e, negb (stale now e)) d.

(** Deleting a list of keys one after the other. *)
Fixpoint del_all (ks : list string) (d : Dict.t) : Res Dict.t :=
  match ks with
  | [] => Ret d
  | k :: ks' =>
      match Dict.del k d with
      | Ret d' => del_all ks' d'
      | Raise e => Raise e
      end
  end.

(** The state after the two loops of [check_actives]. *)
Definition swept (now : Q) (st : Watcher.State) : Watcher.State :=
  Watcher.mkState (Watcher.world st)
    (Watcher.workq st ++ stale_keys now (Watcher.active st))
    (fresh_items now (Watcher.active st)) (Watcher.timer st) (Watcher.timers st).

(** The end of [check_actives]: the timer that is re-armed. *)
Definition rearm (st : Watcher.State) : Watcher.State :=
  match Watcher.active st with
  | [] => st
  | _ :: _ =>
      (Watcher.start_timer 5
         (match Watcher.timer st with
          | Some id => (Watcher.cancel id st).2
          | None => st
          end)).2
  end.

(** A string without a character of the class [\s]. *)
Fixpoint no_space (s : string) : bool :=
  match s with
  | EmptyString => true
  | String a s' => negb (Py.isspace a) && no_space s'
  end.

(** The line exiftool prints for a rename, ['<src>' --> '<dst>']. *)
Definition rename_line (src dst : string) : string :=
  "'" +:+ src +:+ "' --> '" +:+ dst +:+ "'".

(** An exiftool for the scenarios: it moves the file its last argument
    names to [primary], or to [marked] when [primary] is taken, with its
    bytes and its modification time, and reports the rename. *)
Definition exiftool_moving (primary marked : string) (cmd : list string)
    (fs : gmap string Node) : option (Spawn * gmap string Node) :=
  let srcfile := List.last cmd "" in
  match fs !! srcfile with
  | Some nd =>
      let dst := if bool_decide (is_Some (fs !! primary)) then marked else primary in
      Some (mkSpawn (rename_line srcfile dst) "" 0, <[dst := nd]> (delete srcfile fs))
  | None => Some (mkSpawn "" ("Error: File not found - " +:+ srcfile) 1, fs)
  end.

(** A last component that is more than dots: some character that is
    neither a period nor a slash, with no slash after it. *)
Definition has_name (a : string) : Prop :=
  ∃ x c y, a = x +:+ String c y ∧ c ≠ "."%char ∧ c ≠ "/"%char
           ∧ Py.contains "/" y = false.

(** [q] is a destination that a line of the output reports for the source,
    with the duplicate check switched on for it. *)
Definition reported (env : Environ) (srcfile : string) (lines : list string)
    (q : string) : Prop :=
  ∃ line m, line ∈ lines ∧ Re.match_ Worker.rename_re line = Some m
            ∧ Re.group m 1 = srcfile ∧ Re.group m 2 = q
            ∧ Worker.dedup_enabled env q = true.

(** Every character of [s] is in the class [c]. *)
Fixpoint all_cls (c : Re.cls) (s : string) : bool :=
  match s with
  | EmptyString => true
  | String a s' => Re.cls_match c a && all_cls c s'
  end.

(** No path waits without a re-check: a non-empty active set comes with
    a pending timer. *)
Definition armed (st : Watcher.State) : Prop :=
  Watcher.active st ≠ [] →
  ∃ id i, Detector.pending st = [id] ∧ Watcher.timer st = Some id
          ∧ Watcher.timers st !! id = Some (Watcher.mkTimer i Watcher.Pending).

(** The paths the Watcher thread took from the watch queue, in order. *)
Fixpoint dequeued (evs : list Detector.Event) : list string :=
  match evs with
  | [] => []
  | Detector.Dequeued path _ _ :: evs' => path :: dequeued evs'
  | _ :: evs' => dequeued evs'
  end.

Definition occurrences (l : list string) (p : string) : nat :=
  count_occ String.string_dec l p.

Definition waiting (d : Dict.t) (p : string) : nat :=
  match Dict.get p d with Some _ => 1 | None => 0 end.

(** What was promoted since the start, plus what still waits, is covered
    by what was dequeued. *)
Definition accounted (workq0 seen : list string) (st : Watcher.State) : Prop :=
  ∃ more, Watcher.workq st = workq0 ++ more
          ∧ ∀ p, (occurrences more p + waiting (Watcher.active st) p
                  ≤ occurrences seen p)%nat.

(** The path begins with a slash. *)
Definition absolute (s : string) : bool :=
  match s with
  | String a _ => Py.chr_eqb a "/"
  | EmptyString => false
  end.

(** * Properties *)

(** ** Strings and paths *)

Lemma app_String (a : ascii) (s t : string) : String a s +:+ t = String a (s +:+ t).
Proof. reflexivity. Qed.

Lemma app_empty_l (t : string) : "" +:+ t = t.
Proof. reflexivity. Qed.

Lemma app_empty_r (s : string) : s +:+ "" = s.
Proof. induction s as [|a s IH]; [done|]. by rewrite app_String, IH. Qed.

Lemma app_assoc_str (s t u : string) : (s +:+ t) +:+ u = s +:+ t +:+ u.
Proof. induction s as [|a s IH]; [done|]. by rewrite !app_String, IH. Qed.

Lemma chr_eqb_eq (a b : ascii) : Py.chr_eqb a b = true ↔ a = b.
Proof. apply Ascii.eqb_eq. Qed.

Lemma chr_eqb_neq (a b : ascii) : Py.chr_eqb a b = false ↔ a ≠ b.
Proof. apply Ascii.eqb_neq. Qed.

Lemma take_drop (n : nat) (s : string) : Py.take n s +:+ Py.drop n s = s.
Proof.
  revert s. induction n as [|n IH]; intros [|a s]; simpl; try done.
  by rewrite app_String, IH.
Qed.

Lemma take_app_length (s t : string) : Py.take (String.length s) (s +:+ t) = s.
Proof. induction s as [|a s IH]; simpl; [by destruct t|]. by rewrite IH. Qed.

Lemma drop_app_length (s t : string) : Py.drop (String.length s) (s +:+ t) = t.
Proof. induction s as [|a s IH]; simpl; [done|]. by rewrite IH. Qed.

(** [split] never yields an empty list, and its first item is what comes
    before the first separator. *)
Lemma split_head_nosep (sep : ascii) (s : string) :
  Py.contains sep s = false → Py.split sep s = [s].
Proof.
  induction s as [|a s IH]; simpl; [done|].
  intros [Ha Hs]%orb_false_iff. rewrite Ha, IH; auto.
Qed.

Lemma split_first (sep : ascii) (s : string) :
  Py.contains sep s = true →
  ∃ head rest, s = head +:+ String sep rest ∧ Py.contains sep head = false
               ∧ Py.item0 (Py.split sep s) = Ret head.
Proof.
  induction s as [|a s IH]; simpl; [done|].
  destruct (Py.chr_eqb a sep) eqn:Ha; simpl.
  - apply chr_eqb_eq in Ha as ->. intros _. by exists "", s.
  - intros (head & rest & -> & Hh & H0)%IH.
    exists (String a head), rest. simpl. rewrite Ha, Hh. split; [done|]. split; [done|].
    destruct (Py.split sep (head +:+ String sep rest)); simpl in *; congruence.
Qed.

Lemma item0_split (sep : ascii) (s : string) : ∃ head, Py.item0 (Py.split sep s) = Ret head.
Proof.
  destruct (Py.contains sep s) eqn:H.
  - destruct (split_first _ _ H) as (head & ? & ? & ? & ?); eauto.
  - rewrite split_head_nosep by done. simpl; eauto.
Qed.

(** [rfind] answers -1 or the index of an occurrence. *)
Lemma rfind_from_spec (c : ascii) (s : string) (i last : Z) :
  let r := Py.rfind_from c s i last in
  r = last ∨ (i ≤ r < i + Z.of_nat (String.length s)
              ∧ ∃ t, Py.drop (Z.to_nat (r - i)) s = String c t).
Proof.
  revert i last. induction s as [|a s IH]; intros i last; simpl; [by left|].
  destruct (IH (i + 1) (if Py.chr_eqb a c then i else last)) as [H|(Hr & t & Ht)].
  - rewrite H. destruct (Py.chr_eqb a c) eqn:Ha; [|by left].
    right. apply chr_eqb_eq in Ha as ->. split; [lia|].
    replace (i - i) with 0 by lia. simpl. eauto.
  - right. split; [lia|]. exists t.
    replace (Z.to_nat (Py.rfind_from c s (i + 1) (if Py.chr_eqb a c then i else last) - i))
      with (S (Z.to_nat (Py.rfind_from c s (i + 1) (if Py.chr_eqb a c then i else last) - (i + 1))))
      by lia.
    done.
Qed.

Lemma rfind_spec (c : ascii) (s : string) :
  Py.rfind c s = -1 ∨ (0 ≤ Py.rfind c s ∧ ∃ t, Py.from (Py.rfind c s) s = String c t).
Proof.
  unfold Py.rfind, Py.from.
  destruct (rfind_from_spec c s 0 (-1)) as [H|(Hr & t & Ht)]; [by left|].
  right. split; [lia|]. exists t. by rewrite Z.sub_0_r in Ht.
Qed.

(** [splitext] cuts the path in two, and the extension is empty or begins
    with a period. *)
Lemma splitext_scan_spec (p : string) (f d : Z) (n : nat) :
  OsPath.splitext_scan p f d n = (p, "")
  ∨ OsPath.splitext_scan p f d n = (Py.upto d p, Py.from d p).
Proof.
  revert f. induction n as [|n IH]; intros f; simpl; [by left|].
  destruct (f <? d); [|by left].
  destruct (negb _); [by right|]. apply IH.
Qed.

Lemma splitext_spec (p : string) :
  let '(root, ext) := OsPath.splitext p in
  root +:+ ext = p ∧ (ext = "" ∨ ∃ e, ext = String "." e).
Proof.
  unfold OsPath.splitext.
  destruct (Py.rfind "/" p <? Py.rfind "." p) eqn:Hlt.
  - destruct (splitext_scan_spec p (Py.rfind "/" p + 1) (Py.rfind "." p)
               (Z.to_nat (Py.rfind "." p - (Py.rfind "/" p + 1)))) as [-> | ->].
    + split; [apply app_empty_r | by left].
    + split; [apply take_drop|].
      destruct (rfind_spec "." p) as [H|(_ & t & ->)]; [|eauto].
      destruct (rfind_spec "/" p) as [H'|(H' & _)]; lia.
  - split; [apply app_empty_r | by left].
Qed.

(** ** The monad *)

Ltac munfold :=
  repeat progress
    unfold mbind, M_bind, mret, M_ret, lift, raise, modify, gets,
      log, log_entry, Os.path_exists, Os.stat, Os.remove, Filecmp.cmp in *.

Lemma bind_ret {S A B} (m : M S A) (k : A → M S B) (s s' : S) (a : A) :
  m s = (Ret a, s') → (m ≫= k) s = k a s'.
Proof. unfold mbind, M_bind. by intros ->. Qed.

Lemma bind_raise {S A B} (m : M S A) (k : A → M S B) (s s' : S) (e : Exn) :
  m s = (Raise e, s') → (m ≫= k) s = (Raise e, s').
Proof. unfold mbind, M_bind. by intros ->. Qed.

(** ** Duplicate elimination *)

Lemma before_spec (c : ascii) (s : string) :
  Py.contains c s = true →
  Py.contains c (before c s) = false ∧ ∃ rest, s = before c s +:+ String c rest.
Proof.
  induction s as [|a s IH]; simpl; [done|].
  destruct (Py.chr_eqb a c) eqn:Ha; simpl.
  - apply chr_eqb_eq in Ha as ->. eauto.
  - intros [Hc [rest Hr]]%IH. rewrite Ha, Hc. split; [done|].
    exists rest. by rewrite app_String, <-Hr.
Qed.

Lemma item0_split_before (c : ascii) (s : string) :
  Py.item0 (Py.split c s) = Ret (before c s).
Proof.
  induction s as [|a s IH]; simpl; [done|].
  destruct (Py.chr_eqb a c); [done|].
  destruct (Py.split c s); simpl in *; congruence.
Qed.

Lemma dupfile_of_eq (dstfile : string) :
  Worker.dupfile_of dstfile = Ret (before "-" dstfile +:+ (OsPath.splitext dstfile).2).
Proof. unfold Worker.dupfile_of. by rewrite item0_split_before. Qed.

(** The primary candidate is never the renamed file itself. *)
Lemma dupfile_differs (dstfile : string) :
  Py.contains "-" dstfile = true →
  before "-" dstfile +:+ (OsPath.splitext dstfile).2 ≠ dstfile.
Proof.
  intros H. destruct (before_spec _ _ H) as [_ [rest Hr]].
  pose proof (splitext_spec dstfile) as Hs.
  destruct (OsPath.splitext dstfile) as [root ext]; simpl.
  destruct Hs as [_ Hext]. intros Heq.
  rewrite Hr in Heq at 2. apply (inj (String.app _)) in Heq.
  destruct Hext as [-> | [e ->]]; discriminate.
Qed.

(** [dedup], case by case on what is on disk and on what [filecmp]
    remembers. *)
Lemma dedup_cases (dstfile : string) (w : World) :
  let dupfile := before "-" dstfile +:+ (OsPath.splitext dstfile).2 in
  let w1 := mkWorld (fs w) (logs w ++ [check_line dstfile dupfile]) (cmp_cache w) in
  Worker.dedup dstfile w =
    match fs w !! dupfile, fs w !! dstfile with
    | None, _ => (Ret tt, w1)
    | Some _, None => (Raise FileNotFoundError, w1)
    | Some (Regular c2 m2), Some (Regular c1 m1) =>
        if negb (Z.of_nat (String.length c1) =? Z.of_nat (String.length c2))
        then (Ret tt, w1)
        else
          let key := cmp_key dstfile dupfile c1 m1 c2 m2 in
          let cache' := cmp_cache_after (cmp_cache w) key c1 c2 in
          if cmp_answer (cmp_cache w) key c1 c2
          then (Ret tt, mkWorld (delete dstfile (fs w))
                          (logs w ++ [check_line dstfile dupfile;
                                      removed_line dstfile dupfile]) cache')
          else (Ret tt, mkWorld (fs w) (logs w ++ [check_line dstfile dupfile]) cache')
    | Some _, Some _ => (Ret tt, w1)
    end.
Proof.
  intros dupfile w1. unfold Worker.dedup. rewrite dupfile_of_eq. fold dupfile.
  munfold. simpl.
  destruct (fs w !! dupfile) as [n2|] eqn:H2.
  2:{ rewrite bool_decide_eq_false_2 by (by intros [? ?]). done. }
  rewrite bool_decide_eq_true_2 by eauto. simpl.
  destruct (fs w !! dstfile) as [n1|] eqn:H1; simpl; [|by destruct n2].
  rewrite H2.
  destruct n1 as [c1 m1|z1], n2 as [c2 m2|z2]; simpl; try done.
  destruct (Z.of_nat (String.length c1) =? Z.of_nat (String.length c2)) eqn:Hl;
    simpl; [|done].
  unfold cmp_answer, cmp_cache_after, cmp_key. simpl.
  destruct (cmp_cache w !! _) as [[|]|] eqn:Hk; simpl.
  - rewrite H1. simpl. by rewrite <-app_assoc.
  - done.
  - destruct (String.eqb c1 c2); simpl; [|done].
    rewrite H1. simpl. by rewrite <-app_assoc.
Qed.

(** What [dedup] does to the files, whatever [filecmp] remembers: it
    removes the renamed file or nothing. *)
Lemma dedup_fs_cases (dstfile : string) (w : World) :
  fs (Worker.dedup dstfile w).2 = fs w
  ∨ fs (Worker.dedup dstfile w).2 = delete dstfile (fs w).
Proof.
  rewrite dedup_cases. cbv zeta.
  destruct (fs w !! _) as [[c2 m2|z2]|]; [| |by left];
    (destruct (fs w !! dstfile) as [[c1 m1|z1]|]; [| |by left]); try by left.
  destruct (negb _); [by left|].
  destruct (cmp_answer _ _ _ _); [by right|by left].
Qed.

(** A primary of the same size and modification time but other bytes, which
    a shallow comparison would take for equal, keeps the renamed file when
    the two are compared for the first time; the outcome is remembered. *)
Example dedup_not_shallow :
  let dstfile := "/dest/2024/03/15_120000-1.jpg" in
  let dupfile := "/dest/2024/03/15_120000.jpg" in
  let w := mkWorld {[ dstfile := Regular "JFIF" 3; dupfile := Regular "JFIG" 3 ]} [] ∅ in
  let out := Worker.dedup dstfile w in
  out.1 = Ret tt
  ∧ fs out.2 = fs w
  ∧ logs out.2
    = [Line "Check if /dest/2024/03/15_120000-1.jpg is a duplicate file of /dest/2024/03/15_120000.jpg"]
  ∧ cmp_cache out.2 !! (dstfile, dupfile, (true, 4, 3), (true, 4, 3)) = Some false.
Proof. repeat split; by vm_compute. Qed.

(** C4, at the input on which the code departs from it.  The primary
    [20240315_120000.jpg] is on disk.  A copy of it arrives as [a.jpg]:
    exiftool moves it to [20240315_120000-1.jpg], the two files are compared
    byte by byte, found equal, and the copy is removed; [filecmp] remembers
    the outcome under the two paths, sizes and modification times.  Then
    [b.jpg] arrives, with other bytes but the size and the modification
    time of [a.jpg]: exiftool moves it to the same marked name, and
    [filecmp.cmp(dstfile, dupfile, False)] answers from what it remembers,
    without reading the files.  The marked file is removed and logged as a
    duplicate, although its bytes differ from those of the primary, and
    the bytes of [b.jpg] are on disk no more. *)
Theorem remembered_comparison_removes_a_different_file :
  let env : Environ := {[ "DELETE_DUPLICATE" := "1" ]} in
  let primary := "/dest/2024/03/20240315_120000.jpg" in
  let marked := "/dest/2024/03/20240315_120000-1.jpg" in
  let exiftool := exiftool_moving primary marked in
  let w0 := mkWorld {[ primary := Regular "AAAA" 7;
                       "/source/a.jpg" := Regular "AAAA" 9;
                       "/source/b.jpg" := Regular "BBBB" 9 ]} [] ∅ in
  let w1 := (Worker.process_file exiftool env "a.jpg" w0).2 in
  let renamed : gmap string Node :=
    {[ primary := Regular "AAAA" 7; marked := Regular "BBBB" 9 ]} in
  let out := Worker.process_file exiftool env "b.jpg" w1 in
  Worker.dedup_enabled env marked = true
  ∧ Worker.dupfile_of marked = Ret primary
  ∧ fs w1 = {[ primary := Regular "AAAA" 7; "/source/b.jpg" := Regular "BBBB" 9 ]}
  ∧ logs w1 = [Moved "/source/a.jpg" marked; check_line marked primary;
               removed_line marked primary]
  ∧ exiftool (Worker.command env "b.jpg") (fs w1)
    = Some (mkSpawn (rename_line "/source/b.jpg" marked) "" 0, renamed)
  ∧ ¬ identical renamed marked primary
  ∧ out.1 = Ret tt
  ∧ fs out.2 = {[ primary := Regular "AAAA" 7 ]}
  ∧ logs out.2 = logs w1 ++ [Moved "/source/b.jpg" marked; check_line marked primary;
                            removed_line marked primary].
Proof.
  repeat split; try by vm_compute.
  intros (c & m1 & m2 & H1 & H2). vm_compute in H1, H2. congruence.
Qed.

(** ** The gate in front of duplicate elimination *)

Lemma handle_line_gate_off (env : Environ) (srcfile : string)
    (d : option string) (line : string) (w : World) :
  (Config.UI_DSTFMT env ≠ Config.DEFAULT_DSTFMT
   ∨ Py.truthy (Config.UI_DELETE_DUPS env) = false) →
  ∃ d' extra, Worker.handle_line env srcfile d line w
              = (Ret d', mkWorld (fs w) (logs w ++ extra) (cmp_cache w))
              ∧ Forall is_moved extra.
Proof.
  intros Hoff. unfold Worker.handle_line.
  destruct (Re.match_ Worker.rename_re line) as [m|].
  2:{ exists d, []. by rewrite app_nil_r; destruct w. }
  destruct (String.eqb (Re.group m 1) srcfile).
  2:{ exists d, []. by rewrite app_nil_r; destruct w. }
  assert (Worker.dedup_enabled env (Re.group m 2) = false) as ->.
  { unfold Worker.dedup_enabled. destruct Hoff as [H | ->].
    - apply String.eqb_neq in H. by rewrite H.
    - by rewrite andb_false_r. }
  exists (Some (Re.group m 2)), [Moved srcfile (Re.group m 2)].
  split; [done|]. by repeat constructor.
Qed.

Lemma handle_lines_gate_off (env : Environ) (srcfile : string)
    (lines : list string) (d : option string) (w : World) :
  (Config.UI_DSTFMT env ≠ Config.DEFAULT_DSTFMT
   ∨ Py.truthy (Config.UI_DELETE_DUPS env) = false) →
  ∃ d' extra, Worker.handle_lines env srcfile d lines w
              = (Ret d', mkWorld (fs w) (logs w ++ extra) (cmp_cache w))
              ∧ Forall is_moved extra.
Proof.
  intros Hoff. revert d w. induction lines as [|line lines IH]; intros d w; simpl.
  { exists d, []. by rewrite app_nil_r; destruct w. }
  destruct (handle_line_gate_off env srcfile d line w Hoff) as (d1 & x1 & H1 & F1).
  rewrite (bind_ret _ _ _ _ _ H1).
  destruct (IH d1 (mkWorld (fs w) (logs w ++ x1) (cmp_cache w))) as (d2 & x2 & H2 & F2).
  exists d2, (x1 ++ x2). rewrite H2. simpl. rewrite <-app_assoc.
  split; [done|]. by apply Forall_app.
Qed.

Lemma moved_no_dedup (m : LogMsg) : is_moved m → no_dedup_entry m.
Proof. destruct m; simpl; [done| |done]. intros _ a b. by split. Qed.

Lemma failed_no_dedup (s : string) : no_dedup_entry (Line ("exiftool FAILED for " +:+ s)).
Proof.
  intros a b. unfold check_line, removed_line. rewrite !app_String.
  split; intros [=].
Qed.

Lemma warning_no_dedup :
  no_dedup_entry (Line "exiftool succeeded, but no file rename information found").
Proof.
  intros a b. unfold check_line, removed_line. rewrite !app_String.
  split; intros [=].
Qed.

Lemma process_file_spawned (exiftool : list string → gmap string Node → option (Spawn * gmap string Node))
    (env : Environ) (path : string) (w : World) (p : Spawn) (fs' : gmap string Node) :
  exiftool (Worker.command env path) (fs w) = Some (p, fs') →
  Worker.process_file exiftool env path w =
    let srcfile := OsPath.join (Config.UI_SRCDIR env) path in
    let w' := mkWorld fs' (logs w) (cmp_cache w) in
    if negb (retval p =? 0) then
      (Ret tt, mkWorld fs' (logs w ++ [Line ("exiftool FAILED for " +:+ path +:+ ": "
                                             +:+ Py.join " " (Py.split newline (stderr p)))])
                 (cmp_cache w))
    else
      match Worker.handle_lines env srcfile None (Py.split newline (stdout p)) w' with
      | (Ret None, w2) =>
          (Ret tt, mkWorld (fs w2)
                     (logs w2 ++ [Line "exiftool succeeded, but no file rename information found"])
                     (cmp_cache w2))
      | (Ret (Some _), w2) => (Ret tt, w2)
      | (Raise e, w2) => (Raise e, w2)
      end.
Proof.
  intros Hx. unfold Worker.process_file, Worker.spawn.
  unfold mbind at 1. unfold M_bind at 1. rewrite Hx.
  destruct (negb (retval p =? 0)); [done|]. simpl.
  unfold mbind, M_bind.
  destruct (Worker.handle_lines _ _ _ _ _) as [[[d|]|e] w2]; try done.
Qed.

(** C1: duplicate elimination runs on a just-renamed destination exactly
    when the destination format is the default template, duplicate
    deletion is enabled and the destination contains the marker [-]:
    then the line is handled by logging the move and running [dedup];
    otherwise only the move is logged and the file system is left alone.
    With another format or with duplicate deletion disabled, a whole run of
    [process_file] that gets its subprocess leaves the file system as
    exiftool left it and logs neither a duplicate check nor a removal,
    whatever the output lines, markers and files on disk. *)
Theorem dedup_runs_iff_gate
    (exiftool : list string → gmap string Node → option (Spawn * gmap string Node))
    (env : Environ) (srcfile line : string) (d0 : option string)
    (m : list string) (w : World) :
  Re.match_ Worker.rename_re line = Some m →
  Re.group m 1 = srcfile →
  let dstfile := Re.group m 2 in
  let w1 := mkWorld (fs w) (logs w ++ [Moved srcfile dstfile]) (cmp_cache w) in
  let gate := Config.UI_DSTFMT env = Config.DEFAULT_DSTFMT
              ∧ Py.truthy (Config.UI_DELETE_DUPS env) = true
              ∧ Py.contains "-" dstfile = true in
  (gate → Worker.handle_line env srcfile d0 line w
          = (Worker.dedup dstfile ≫= λ _, mret (Some dstfile)) w1)
  ∧ (¬ gate → Worker.handle_line env srcfile d0 line w = (Ret (Some dstfile), w1))
  ∧ (∀ path w0 p fs',
       Config.UI_DSTFMT env ≠ Config.DEFAULT_DSTFMT
       ∨ Py.truthy (Config.UI_DELETE_DUPS env) = false →
       exiftool (Worker.command env path) (fs w0) = Some (p, fs') →
       ∃ extra, Worker.process_file exiftool env path w0
                = (Ret tt, mkWorld fs' (logs w0 ++ extra) (cmp_cache w0))
                ∧ Forall no_dedup_entry extra).
Proof.
  intros Hm Hg dstfile w1 gate. split; [|split].
  - intros (Hf & Ht & Hc). unfold Worker.handle_line.
    rewrite Hm, Hg, String.eqb_refl. fold dstfile.
    unfold Worker.dedup_enabled. rewrite Hf, String.eqb_refl, Ht, Hc. simpl.
    by munfold.
  - intros Hn. unfold Worker.handle_line.
    rewrite Hm, Hg, String.eqb_refl. fold dstfile.
    assert (Worker.dedup_enabled env dstfile = false) as ->; [|done].
    unfold Worker.dedup_enabled.
    destruct (String.eqb_spec (Config.UI_DSTFMT env) Config.DEFAULT_DSTFMT) as [Hf|]; [|done].
    destruct (Py.truthy (Config.UI_DELETE_DUPS env)) eqn:Ht; [|done].
    destruct (Py.contains "-" dstfile) eqn:Hc; [|done].
    by destruct Hn.
  - intros path w0 p fs' Hoff Hx.
    rewrite (process_file_spawned _ _ _ _ _ _ Hx). simpl.
    destruct (negb (retval p =? 0)).
    { eexists. split; [done|]. constructor; [|done].
      rewrite <-!app_assoc_str. apply failed_no_dedup. }
    destruct (handle_lines_gate_off env (OsPath.join (Config.UI_SRCDIR env) path)
                (Py.split newline (stdout p)) None (mkWorld fs' (logs w0) (cmp_cache w0)) Hoff)
      as (d' & extra & -> & Hex). simpl.
    assert (Forall no_dedup_entry extra) as Hq.
    { eapply Forall_impl; [done|]. apply moved_no_dedup. }
    destruct d' as [d'|].
    + by exists extra.
    + exists (extra ++ [Line "exiftool succeeded, but no file rename information found"]).
      rewrite <-app_assoc. split; [done|].
      apply Forall_app. split; [done|]. constructor; [|done]. apply warning_no_dedup.
Qed.

(** A marked destination under the default format with duplicate deletion
    switched on: the line is handled by [dedup]. *)
Lemma dedup_runs_iff_gate_witness :
  let env : Environ := {[ "DELETE_DUPLICATE" := "1" ]} in
  let line := "'/source/a.jpg' --> '/dest/2024/03/20240315_120000-1.jpg'" in
  let m := ["/source/a.jpg"; "/dest/2024/03/20240315_120000-1.jpg"] in
  let w := mkWorld ∅ [] ∅ in
  Re.match_ Worker.rename_re line = Some m
  ∧ Re.group m 1 = "/source/a.jpg"
  ∧ Worker.handle_line env "/source/a.jpg" None line w
    = (Worker.dedup "/dest/2024/03/20240315_120000-1.jpg"
         ≫= λ _, mret (Some "/dest/2024/03/20240315_120000-1.jpg"))
        (mkWorld ∅ [Moved "/source/a.jpg" "/dest/2024/03/20240315_120000-1.jpg"] ∅).
Proof.
  split; [reflexivity|]. split; [reflexivity|].
  apply (dedup_runs_iff_gate (λ _ _, None) {[ "DELETE_DUPLICATE" := "1" ]}
           "/source/a.jpg"
           "'/source/a.jpg' --> '/dest/2024/03/20240315_120000-1.jpg'" None
           ["/source/a.jpg"; "/dest/2024/03/20240315_120000-1.jpg"]
           (mkWorld ∅ [] ∅) eq_refl eq_refl).
  repeat split; reflexivity.
Defined.

(** ** Transient failures of one item *)

Lemma handle_lines_no_match (env : Environ) (srcfile : string)
    (lines : list string) (d : option string) (w : World) :
  (∀ line m, line ∈ lines → Re.match_ Worker.rename_re line = Some m →
             Re.group m 1 ≠ srcfile) →
  Worker.handle_lines env srcfile d lines w = (Ret d, w).
Proof.
  revert d w. induction lines as [|line lines IH]; intros d w Hno; simpl; [done|].
  assert (Worker.handle_line env srcfile d line w = (Ret d, w)) as H1.
  { unfold Worker.handle_line.
    destruct (Re.match_ Worker.rename_re line) as [m|] eqn:Hm; [|done].
    destruct (String.eqb_spec (Re.group m 1) srcfile) as [He|]; [|done].
    destruct (Hno line m); [by left|done|done]. }
  rewrite (bind_ret _ _ _ _ _ H1). apply IH.
  intros l m Hl. apply Hno. by right.
Qed.

(** The loop of a thread, one item at a time. *)
Lemma run_from_ret {W I} (role : string) (pf : I → M W unit) (lg : LogMsg → M W unit)
    (n : Z) (path : I) (rest : list I) (w w' : W) (u : unit) :
  n < 5 → pf path w = (Ret u, w') →
  Thread.run_from role pf lg n (path :: rest) w = Thread.run_from role pf lg n rest w'.
Proof.
  intros Hn Hp. simpl. rewrite Hp.
  by destruct (n <? 5) eqn:E; [|lia].
Qed.

Lemma run_from_raise {W I} (role : string) (pf : I → M W unit) (lg : LogMsg → M W unit)
    (n : Z) (path : I) (rest : list I) (w w' : W) (e : Exn) :
  n < 5 → pf path w = (Raise e, w') →
  Thread.run_from role pf lg n (path :: rest) w
  = Thread.run_from role pf lg (n + 1) rest (lg (Traceback e) w').2.
Proof.
  intros Hn Hp. simpl. rewrite Hp.
  by destruct (n <? 5) eqn:E; [|lia].
Qed.

(** C7: an item for which exiftool exits non-zero, or exits zero without
    an output line that reports the rename of the source, is given up
    after one log line: [process_file] returns normally with the file
    system as exiftool left it, the worker loop goes on to the next item
    of the queue with its error counter unchanged and the item is not put
    back; the counter moves only when [process_file] raises. *)
Theorem transient_failure_not_counted
    (exiftool : list string → gmap string Node → option (Spawn * gmap string Node))
    (env : Environ) (path : string) (rest : list string) (w : World)
    (p : Spawn) (fs' : gmap string Node) (errorCount : Z) :
  exiftool (Worker.command env path) (fs w) = Some (p, fs') →
  retval p ≠ 0
  ∨ (∀ line m, line ∈ Py.split newline (stdout p) →
               Re.match_ Worker.rename_re line = Some m →
               Re.group m 1 ≠ OsPath.join (Config.UI_SRCDIR env) path) →
  errorCount < 5 →
  let msg :=
    if negb (retval p =? 0)
    then "exiftool FAILED for " +:+ path +:+ ": "
         +:+ Py.join " " (Py.split newline (stderr p))
    else "exiftool succeeded, but no file rename information found" in
  let w' := mkWorld fs' (logs w ++ [Line msg]) (cmp_cache w) in
  let pf := Worker.process_file exiftool env in
  pf path w = (Ret tt, w')
  ∧ Thread.run_from "Worker" pf log_entry errorCount (path :: rest) w
    = Thread.run_from "Worker" pf log_entry errorCount rest w'
  ∧ Thread.raises pf log_entry (path :: rest) w
    = false :: Thread.raises pf log_entry rest w'
  ∧ (∀ path2 w2 e w3, pf path2 w2 = (Raise e, w3) →
       Thread.run_from "Worker" pf log_entry errorCount (path2 :: rest) w2
       = Thread.run_from "Worker" pf log_entry (errorCount + 1) rest
           (log_entry (Traceback e) w3).2).
Proof.
  intros Hx Hfail Hn msg w' pf.
  assert (pf path w = (Ret tt, w')) as Hp.
  { unfold pf. rewrite (process_file_spawned _ _ _ _ _ _ Hx). simpl.
    subst w' msg. destruct (negb (retval p =? 0)) eqn:Hr; [done|].
    destruct Hfail as [Hnz|Hno]; [apply negb_false_iff in Hr; lia|].
    by rewrite handle_lines_no_match. }
  split; [done|]. split; [by eapply run_from_ret|].
  split; [by simpl; rewrite Hp|].
  intros path2 w2 e w3 H2. by apply run_from_raise.
Qed.

(** exiftool exits with status 1 on a file it cannot read. *)
Lemma transient_failure_not_counted_witness :
  let exiftool : list string → gmap string Node → option (Spawn * gmap string Node) :=
    λ _ fs, Some (mkSpawn "" "Error: File format error" 1, fs) in
  let pf := Worker.process_file exiftool ∅ in
  (1 ≠ 0 ∨ False) ∧ 0 < 5
  ∧ Thread.run_from "Worker" pf log_entry 0 ["a.jpg"; "b.jpg"] (mkWorld ∅ [] ∅)
    = Thread.run_from "Worker" pf log_entry 0 ["b.jpg"]
        (mkWorld ∅ [Line "exiftool FAILED for a.jpg: Error: File format error"] ∅).
Proof.
  split; [by left|]. split; [lia|].
  apply (transient_failure_not_counted
           (λ _ fs, Some (mkSpawn "" "Error: File format error" 1, fs))
           ∅ "a.jpg" ["b.jpg"] (mkWorld ∅ [] ∅)
           (mkSpawn "" "Error: File format error" 1) ∅ 0 eq_refl).
  - left. simpl. lia.
  - lia.
Defined.

(** ** Configuration *)

(** C10: with [DELETE_DUPLICATE] unset, [Config.__init__] raises
    [TypeError] (the second log line adds [True] to a [str]) and the
    start-up is aborted; the constructor returns exactly when the variable
    is set, so the default [True] of [UI_DELETE_DUPS] is never read from a
    constructed configuration; and every non-empty value of the variable,
    whatever it spells, counts as enabled. *)
Theorem config_requires_delete_duplicate (env : Environ) (l : list LogMsg) :
  (env !! "DELETE_DUPLICATE" = None →
     (Config.init env l).1 = Raise TypeError
     ∧ (main_config env l).1 = Aborted TypeError
     ∧ Config.UI_DELETE_DUPS env = Py.VBool true)
  ∧ ((Config.init env l).1 = Ret tt ↔ is_Some (env !! "DELETE_DUPLICATE"))
  ∧ (∀ s, env !! "DELETE_DUPLICATE" = Some s → s ≠ "" →
       Py.truthy (Config.UI_DELETE_DUPS env) = true).
Proof.
  assert (∀ s, env !! "DELETE_DUPLICATE" = Some s → (Config.init env l).1 = Ret tt) as Hset.
  { intros s Hs. unfold Config.init, Config.log, environ_get. rewrite Hs.
    munfold. simpl. by destruct (env !! "FORMAT"), (env !! "LOCALE"). }
  assert (env !! "DELETE_DUPLICATE" = None → (Config.init env l).1 = Raise TypeError) as Hunset.
  { intros Hs. unfold Config.init, Config.log, environ_get. rewrite Hs.
    munfold. simpl. by destruct (env !! "FORMAT"). }
  split; [|split].
  - intros Hs. split; [by apply Hunset|]. split.
    + unfold main_config. specialize (Hunset Hs).
      destruct (Config.init env l) as [[u|e] l']; simpl in *; congruence.
    + unfold Config.UI_DELETE_DUPS, environ_get. by rewrite Hs.
  - split.
    + intros Hr. destruct (env !! "DELETE_DUPLICATE") eqn:Hs; [eauto|].
      rewrite Hunset in Hr; done.
    + intros [s Hs]. eauto.
  - intros s Hs Hne. unfold Config.UI_DELETE_DUPS, environ_get. rewrite Hs. simpl.
    apply negb_true_iff. by apply String.eqb_neq.
Qed.

(** A value meant to switch duplicate deletion off switches it on. *)
Example delete_duplicate_false_is_enabled :
  Py.truthy (Config.UI_DELETE_DUPS {[ "DELETE_DUPLICATE" := "false" ]}) = true
  ∧ Py.truthy (Config.UI_DELETE_DUPS {[ "DELETE_DUPLICATE" := "0" ]}) = true
  ∧ Py.truthy (Config.UI_DELETE_DUPS {[ "DELETE_DUPLICATE" := "" ]}) = false.
Proof. repeat split; reflexivity. Qed.

Example startup_without_delete_duplicate :
  main_config ∅ []
  = (Aborted TypeError,
     [Line "ENV FORMAT: %Y/%m/%Y%m%d_%H%M%S%%-uc.%%e"; Traceback TypeError]).
Proof. reflexivity. Qed.

(** ** Event router *)

Lemma is_relevant_file_spec (path : string) :
  EventHandler.is_relevant_file path = true
  ↔ Py.lower (OsPath.splitext path).2 ∈ ACCEPTED_EXTENSIONS.
Proof.
  unfold EventHandler.is_relevant_file.
  destruct (OsPath.splitext path) as [root ext]. simpl.
  case_bool_decide; split; done.
Qed.

(** C9: an event for a path whose extension, lower-cased, is in the
    accepted set is put on the watch queue when the file was created or
    closed after a write, and on the work queue, past the stability
    detector, when the file was moved in; an event with another extension
    changes neither queue. *)
Theorem router_routes_by_kind_and_extension
    (ev : EventHandler.Event) (q : EventHandler.Queues) :
  let path := EventHandler.pathname ev in
  let accepted := Py.lower (OsPath.splitext path).2 ∈ ACCEPTED_EXTENSIONS in
  (accepted →
     EventHandler.process ev q =
       match EventHandler.kind ev with
       | EventHandler.IN_CREATE | EventHandler.IN_CLOSE_WRITE =>
           EventHandler.mkQueues (EventHandler.workq q) (EventHandler.watchq q ++ [path])
       | EventHandler.IN_MOVED_TO =>
           EventHandler.mkQueues (EventHandler.workq q ++ [path]) (EventHandler.watchq q)
       end)
  ∧ (¬ accepted → EventHandler.process ev q = q).
Proof.
  intros path accepted. unfold EventHandler.process,
    EventHandler.process_IN_CREATE, EventHandler.process_IN_CLOSE_WRITE,
    EventHandler.process_IN_MOVED_TO. fold path.
  pose proof (is_relevant_file_spec path) as Hr. fold accepted in Hr.
  split; intros Ha.
  - apply Hr in Ha. rewrite Ha. by destruct (EventHandler.kind ev).
  - destruct (EventHandler.is_relevant_file path) eqn:E.
    + destruct Ha. by apply Hr.
    + by destruct (EventHandler.kind ev).
Qed.

(** The extension is compared without regard to case. *)
Example router_upper_case_extension :
  EventHandler.process (EventHandler.mkEvent EventHandler.IN_MOVED_TO "/source/IMG_001.JPG")
    (EventHandler.mkQueues [] [])
  = EventHandler.mkQueues ["/source/IMG_001.JPG"] []
  ∧ EventHandler.process (EventHandler.mkEvent EventHandler.IN_CLOSE_WRITE "/source/IMG_001.Jpeg")
      (EventHandler.mkQueues [] [])
    = EventHandler.mkQueues [] ["/source/IMG_001.Jpeg"]
  ∧ EventHandler.process (EventHandler.mkEvent EventHandler.IN_CREATE "/source/notes.txt")
      (EventHandler.mkQueues [] [])
    = EventHandler.mkQueues [] [].
Proof. repeat split; by vm_compute. Qed.

(** ** Stability detector: one item of the watch queue *)

Lemma dict_get_set (k k' : string) (v : Q) (d : Dict.t) :
  Dict.get k' (Dict.set k v d) = if String.eqb k k' then Some v else Dict.get k' d.
Proof.
  induction d as [|[k0 v0] d IH]; simpl.
  - done.
  - destruct (String.eqb_spec k0 k) as [->|Hne]; simpl.
    + by destruct (String.eqb k k').
    + rewrite IH. destruct (String.eqb_spec k0 k') as [->|]; [|done].
      destruct (String.eqb_spec k k'); congruence.
Qed.


(** ** Stability sweep *)


Lemma collect_spec (now : Q) (items : list (string * Q)) (delete_keys : list string)
    (st : Watcher.State) :
  Watcher.collect now items delete_keys st
  = (Ret (delete_keys ++ stale_keys now items),
     Watcher.mkState (Watcher.world st) (Watcher.workq st ++ stale_keys now items)
       (Watcher.active st) (Watcher.timer st) (Watcher.timers st)).
Proof.
  revert delete_keys st. induction items as [|[filepath tstamp] items IH];
    intros delete_keys st; simpl.
  - unfold stale_keys. simpl. rewrite !app_nil_r. by destruct st.
  - unfold stale_keys, stale at 1 2. simpl.
    destruct (Qgtb (now - tstamp) 30); simpl.
    + unfold Watcher.put, mbind, M_bind, modify. rewrite IH. simpl.
      by rewrite <-!app_assoc.
    + apply IH.
Qed.

Lemma del_all_skip (ks : list string) (k0 : string) (v0 : Q) (d d' : Dict.t) :
  k0 ∉ ks → del_all ks d = Ret d' → del_all ks ((k0, v0) :: d) = Ret ((k0, v0) :: d').
Proof.
  revert d. induction ks as [|k ks IH]; intros d Hn; simpl.
  - by intros [= ->].
  - apply not_elem_of_cons in Hn as [Hne Hn].
    destruct (String.eqb_spec k0 k) as [|_]; [done|].
    destruct (Dict.del k d) as [d1|e]; [|done]. by apply IH.
Qed.

Lemma stale_keys_subset (now : Q) (d : Dict.t) (k : string) :
  k ∈ stale_keys now d → k ∈ Dict.keys d.
Proof.
  unfold stale_keys, Dict.keys. induction d as [|[k0 v0] d IH]; simpl; [done|].
  destruct (stale now (k0, v0)); simpl.
  - intros [->|H]%elem_of_cons; [left|right]; auto.
  - intros H. right. auto.
Qed.

Lemma del_all_stale (now : Q) (d : Dict.t) :
  Dict.wf d → del_all (stale_keys now d) d = Ret (fresh_items now d).
Proof.
  unfold Dict.wf, Dict.keys. induction d as [|[k0 v0] d IH]; simpl; [done|].
  intros [Hnotin Hnd]%NoDup_cons. unfold stale_keys, fresh_items. simpl.
  destruct (stale now (k0, v0)) eqn:Hs; simpl.
  - rewrite String.eqb_refl. by apply IH.
  - apply del_all_skip; [|by apply IH].
    intros Hin. apply Hnotin. by apply (stale_keys_subset now).
Qed.

Lemma for_each_del (ks : list string) (st : Watcher.State) (d' : Dict.t) :
  del_all ks (Watcher.active st) = Ret d' →
  for_each ks Watcher.del_active st = (Ret tt, Watcher.set_active d' st).
Proof.
  revert st. induction ks as [|k ks IH]; intros st; simpl.
  - intros [= <-]. by destruct st.
  - destruct (Dict.del k (Watcher.active st)) as [d1|e] eqn:Hd; [|done].
    intros Hrest.
    assert (Watcher.del_active k st = (Ret tt, Watcher.set_active d1 st)) as Hk.
    { unfold Watcher.del_active. by rewrite Hd. }
    rewrite (bind_ret _ _ _ _ _ Hk).
    rewrite (IH (Watcher.set_active d1 st)) by done. by destruct st.
Qed.

Lemma fresh_items_wf (now : Q) (d : Dict.t) : Dict.wf d → Dict.wf (fresh_items now d).
Proof.
  unfold Dict.wf, Dict.keys, fresh_items.
  induction d as [|[k0 v0] d IH]; simpl; [done|].
  intros [Hnotin Hnd]%NoDup_cons.
  destruct (negb (stale now (k0, v0))); simpl; [|auto].
  apply NoDup_cons. split; [|auto].
  intros Hin. apply Hnotin. clear -Hin.
  induction d as [|[k1 v1] d IH]; simpl in *; [done|].
  destruct (negb (stale now (k1, v1))); simpl in *.
  - apply elem_of_cons in Hin as [->|Hin]; [left|right]; auto.
  - right; auto.
Qed.

Lemma check_actives_spec (now : Q) (st : Watcher.State) :
  Dict.wf (Watcher.active st) →
  Watcher.check_actives now st = (Ret tt, rearm (swept now st)).
Proof.
  intros Hwf. unfold Watcher.check_actives.
  unfold mbind at 1. unfold M_bind at 1. unfold gets at 1.
  unfold mbind at 1. unfold M_bind at 1. rewrite collect_spec. simpl.
  unfold mbind at 1. unfold M_bind at 1.
  erewrite for_each_del by (simpl; by apply del_all_stale).
  unfold rearm, swept, Watcher.set_active. simpl.
  unfold mbind at 1. unfold M_bind at 1. unfold gets at 1. simpl.
  destruct (fresh_items now (Watcher.active st)) as [|e d] eqn:Hd; simpl; [done|].
  munfold. simpl. by destruct (Watcher.timer st).
Qed.


Lemma dict_get_notin (p : string) (d : Dict.t) : p ∉ Dict.keys d → Dict.get p d = None.
Proof.
  unfold Dict.keys. induction d as [|[k0 v0] d IH]; simpl; [done|].
  intros [Hne Hn]%not_elem_of_cons.
  destruct (String.eqb_spec k0 p); [congruence|auto].
Qed.

Lemma dict_get_fresh (now : Q) (p : string) (d : Dict.t) :
  Dict.wf d →
  Dict.get p (fresh_items now d)
  = match Dict.get p d with
    | Some t => if stale now (p, t) then None else Some t
    | None => None
    end.
Proof.
  unfold Dict.wf, Dict.keys, fresh_items.
  induction d as [|[k0 v0] d IH]; simpl; [done|].
  intros [Hnotin Hnd]%NoDup_cons.
  destruct (String.eqb_spec k0 p) as [->|Hne].
  - destruct (stale now (p, v0)) eqn:Hs; simpl.
    + rewrite IH by done. by rewrite dict_get_notin.
    + by rewrite String.eqb_refl.
  - destruct (stale now (k0, v0)); simpl; [by apply IH|].
    destruct (String.eqb_spec k0 p); [congruence|by apply IH].
Qed.

Lemma count_stale_keys (now : Q) (p : string) (d : Dict.t) :
  Dict.wf d →
  count_occ String.string_dec (stale_keys now d) p
  = match Dict.get p d with
    | Some t => if stale now (p, t) then 1%nat else 0%nat
    | None => 0%nat
    end.
Proof.
  unfold Dict.wf, Dict.keys, stale_keys.
  induction d as [|[k0 v0] d IH]; simpl; [done|].
  intros [Hnotin Hnd]%NoDup_cons.
  destruct (String.eqb_spec k0 p) as [->|Hne].
  - destruct (stale now (p, v0)) eqn:Hs; cbn [List.filter fmap list_fmap fst].
    + rewrite count_occ_cons_eq by done.
      rewrite IH by done. by rewrite dict_get_notin.
    + rewrite IH by done. by rewrite dict_get_notin.
  - destruct (stale now (k0, v0)); cbn [List.filter fmap list_fmap fst]; [|by apply IH].
    rewrite count_occ_cons_neq by done. by apply IH.
Qed.

Lemma rearm_keeps (st : Watcher.State) :
  Watcher.active (rearm st) = Watcher.active st
  ∧ Watcher.workq (rearm st) = Watcher.workq st
  ∧ Watcher.world (rearm st) = Watcher.world st.
Proof.
  unfold rearm. destruct (Watcher.active st) eqn:Ha; [by rewrite Ha|].
  unfold Watcher.start_timer, Watcher.cancel, modify.
  destruct (Watcher.timer st) as [id|]; simpl; [|done].
  by destruct (Watcher.timers st !! id) as [[i []]|].
Qed.



Example sweep_at_120 :
  Watcher.check_actives 120%Q
    (Watcher.mkState (mkWorld ∅ [] ∅) ["/source/z.jpg"]
       [("/source/a.jpg", 0%Q); ("/source/b.jpg", 100%Q); ("/source/c.jpg", 90%Q)]
       None [])
  = (Ret tt,
     Watcher.mkState (mkWorld ∅ [] ∅) ["/source/z.jpg"; "/source/a.jpg"]
       [("/source/b.jpg", 100%Q); ("/source/c.jpg", 90%Q)]
       (Some 0%nat) [Watcher.mkTimer 5%Q Watcher.Pending]).
Proof. reflexivity. Qed.

(** ** The re-check timer *)

Lemma elem_of_pending_from (id i : nat) (ts : list Watcher.TimerObj) :
  id ∈ Detector.pending_from i ts
  ↔ ∃ k t, id = (i + k)%nat ∧ ts !! k = Some t ∧ Detector.is_pending t = true.
Proof.
  revert i. induction ts as [|t ts IH]; intros i; simpl.
  - split; [by intros ?%elem_of_nil|]. by intros (k & t & _ & ? & _).
  - rewrite elem_of_app, IH. split.
    + intros [H|(k & t' & -> & Hk & Hp)].
      * destruct (Detector.is_pending t) eqn:Hp; [|by apply elem_of_nil in H].
        apply list_elem_of_singleton in H as ->. exists 0%nat, t. split; [lia|done].
      * exists (S k), t'. split; [lia|done].
    + intros ([|k] & t' & -> & Hk & Hp); simpl in Hk.
      * left. injection Hk as ->. rewrite Hp. apply list_elem_of_singleton. lia.
      * right. exists k, t'. split; [lia|done].
Qed.

Lemma pending_from_NoDup (i : nat) (ts : list Watcher.TimerObj) :
  NoDup (Detector.pending_from i ts).
Proof.
  revert i. induction ts as [|t ts IH]; intros i; simpl; [constructor|].
  destruct (Detector.is_pending t); simpl; [|apply IH].
  constructor; [|apply IH].
  intros (k & t' & Hk & _)%elem_of_pending_from. lia.
Qed.

Lemma pending_from_app (i : nat) (ts us : list Watcher.TimerObj) :
  Detector.pending_from i (ts ++ us)
  = Detector.pending_from i ts ++ Detector.pending_from (i + length ts) us.
Proof.
  revert i. induction ts as [|t ts IH]; intros i; simpl.
  - by rewrite Nat.add_0_r.
  - rewrite IH, <-app_assoc. do 3 f_equal. lia.
Qed.

Lemma pending_from_none (i : nat) (ts : list Watcher.TimerObj) :
  (∀ id, id ∉ Detector.pending_from i ts) → Detector.pending_from i ts = [].
Proof.
  destruct (Detector.pending_from i ts) as [|x l]; [done|].
  intros H. destruct (H x). by left.
Qed.

Lemma NoDup_all_equal {A} (l : list A) (a : A) :
  NoDup l → (∀ x, x ∈ l → x = a) → (length l ≤ 1)%nat.
Proof.
  intros Hnd Hall. destruct l as [|x [|y l]]; simpl; [lia|lia|].
  apply NoDup_cons in Hnd as [Hx _].
  destruct Hx. rewrite (Hall x), (Hall y); [by left|right; by left|by left].
Qed.

Lemma inv_at_most_one (st : Watcher.State) :
  Detector.inv st → (length (Detector.pending st) ≤ 1)%nat.
Proof.
  intros [_ Hp]. destruct (Watcher.timer st) as [id|] eqn:Ht.
  - apply (NoDup_all_equal _ id); [apply pending_from_NoDup|].
    intros x Hx. specialize (Hp x Hx). congruence.
  - unfold Detector.pending in *. rewrite pending_from_none; [simpl; lia|].
    intros id Hid. by specialize (Hp id Hid).
Qed.

(** After [cancel] of the timer [self.timer] names, under the invariant,
    no timer is pending. *)
Lemma cancel_leaves_none (st : Watcher.State) :
  Detector.inv st →
  let st1 := match Watcher.timer st with
             | Some id => (Watcher.cancel id st).2
             | None => st
             end in
  Detector.pending st1 = []
  ∧ length (Watcher.timers st1) = length (Watcher.timers st)
  ∧ Watcher.active st1 = Watcher.active st
  ∧ (∀ id i, Watcher.timers st !! id = Some (Watcher.mkTimer i Watcher.Pending) →
             Watcher.timers st1 !! id = Some (Watcher.mkTimer i Watcher.Cancelled)).
Proof.
  intros [Hwf Hp]. unfold Detector.pending in *.
  destruct (Watcher.timer st) as [id|] eqn:Ht; simpl.
  - unfold Watcher.cancel, modify. simpl.
    destruct (Watcher.timers st !! id) as [[i s]|] eqn:Hid.
    2:{ split; [|split; [done|split; [done|]]].
        - apply pending_from_none. intros x Hx. specialize (Hp x Hx).
          apply elem_of_pending_from in Hx as (k & t & Hk & Hl & _).
          simpl in Hk. congruence.
        - intros id' i' H'. assert (id' ∈ Detector.pending_from 0 (Watcher.timers st)) as Hin.
          { apply elem_of_pending_from. by exists id', (Watcher.mkTimer i' Watcher.Pending). }
          specialize (Hp id' Hin). congruence. }
    destruct s; simpl.
    + split; [|split; [by rewrite length_insert|split; [done|]]].
      * apply pending_from_none. intros x Hx.
        apply elem_of_pending_from in Hx as (k & t & Hk & Hl & Hpt). simpl in Hk. subst k.
        destruct (decide (x = id)) as [->|Hne].
        -- rewrite list_lookup_insert_eq in Hl by (by eapply lookup_lt_Some).
           by injection Hl as <-.
        -- rewrite list_lookup_insert_ne in Hl by done.
           assert (x ∈ Detector.pending_from 0 (Watcher.timers st)) as Hin.
           { apply elem_of_pending_from. by exists x, t. }
           specialize (Hp x Hin). congruence.
      * intros id' i' H'.
        assert (id' ∈ Detector.pending_from 0 (Watcher.timers st)) as Hin.
        { apply elem_of_pending_from. by exists id', (Watcher.mkTimer i' Watcher.Pending). }
        specialize (Hp id' Hin). assert (id' = id) as -> by congruence.
        rewrite list_lookup_insert_eq by (by eapply lookup_lt_Some). congruence.
    + split; [|split; [done|split; [done|]]].
      * apply pending_from_none. intros x Hx. specialize (Hp x Hx).
        apply elem_of_pending_from in Hx as (k & t & Hk & Hl & Hpt). simpl in Hk. subst k.
        assert (x = id) as -> by congruence. rewrite Hid in Hl. by injection Hl as <-.
      * intros id' i' H'.
        assert (id' ∈ Detector.pending_from 0 (Watcher.timers st)) as Hin.
        { apply elem_of_pending_from. by exists id', (Watcher.mkTimer i' Watcher.Pending). }
        specialize (Hp id' Hin). congruence.
    + split; [|split; [done|split; [done|]]].
      * apply pending_from_none. intros x Hx. specialize (Hp x Hx).
        apply elem_of_pending_from in Hx as (k & t & Hk & Hl & Hpt). simpl in Hk. subst k.
        assert (x = id) as -> by congruence. rewrite Hid in Hl. by injection Hl as <-.
      * intros id' i' H'.
        assert (id' ∈ Detector.pending_from 0 (Watcher.timers st)) as Hin.
        { apply elem_of_pending_from. by exists id', (Watcher.mkTimer i' Watcher.Pending). }
        specialize (Hp id' Hin). congruence.
  - split; [|split; [done|split; [done|]]].
    + apply pending_from_none. intros x Hx. by specialize (Hp x Hx).
    + intros id' i' H'.
      assert (id' ∈ Detector.pending_from 0 (Watcher.timers st)) as Hin.
      { apply elem_of_pending_from. by exists id', (Watcher.mkTimer i' Watcher.Pending). }
      by specialize (Hp id' Hin).
Qed.

Lemma dict_set_keys (k : string) (v : Q) (d : Dict.t) :
  Dict.keys (Dict.set k v d)
  = if bool_decide (k ∈ Dict.keys d) then Dict.keys d else Dict.keys d ++ [k].
Proof.
  unfold Dict.keys. induction d as [|[k0 v0] d IH]; [done|].
  cbn [Dict.set]. destruct (String.eqb_spec k0 k) as [->|Hne]; rewrite !fmap_cons.
  - rewrite bool_decide_eq_true_2; [done|by left].
  - rewrite IH. cbn [fst]. case_bool_decide as H1.
    + rewrite bool_decide_eq_true_2; [done|by right].
    + rewrite bool_decide_eq_false_2; [done|].
      intros [?|?]%elem_of_cons; congruence.
Qed.

Lemma dict_set_wf (k : string) (v : Q) (d : Dict.t) : Dict.wf d → Dict.wf (Dict.set k v d).
Proof.
  unfold Dict.wf. rewrite dict_set_keys. intros Hnd.
  case_bool_decide as H; [done|].
  apply NoDup_app. split; [done|]. split; [|apply NoDup_singleton].
  intros x Hx ->%list_elem_of_singleton. done.
Qed.

Lemma swept_inv (now : Q) (st : Watcher.State) : Detector.inv st → Detector.inv (swept now st).
Proof. intros [Hwf Hp]. split; [by apply fresh_items_wf|done]. Qed.

Lemma rearm_spec (st : Watcher.State) :
  Detector.inv st →
  Detector.inv (rearm st)
  ∧ (Watcher.active st ≠ [] →
       Watcher.timer (rearm st) = Some (length (Watcher.timers st))
       ∧ Watcher.timers (rearm st) !! length (Watcher.timers st)
         = Some (Watcher.mkTimer 5 Watcher.Pending)
       ∧ length (Watcher.timers (rearm st)) = S (length (Watcher.timers st))
       ∧ Detector.pending (rearm st) = [length (Watcher.timers st)]
       ∧ ∀ id i, Watcher.timers st !! id = Some (Watcher.mkTimer i Watcher.Pending) →
                 Watcher.timers (rearm st) !! id
                 = Some (Watcher.mkTimer i Watcher.Cancelled))
  ∧ (Watcher.active st = [] → rearm st = st).
Proof.
  intros Hinv. pose proof (cancel_leaves_none st Hinv) as Hc. cbv zeta in Hc.
  unfold rearm. destruct (Watcher.active st) as [|e d] eqn:Ha.
  { split; [done|]. split; [done|done]. }
  set (st1 := match Watcher.timer st with
              | Some id => (Watcher.cancel id st).2
              | None => st
              end) in *.
  destruct Hc as (Hnone & Hlen & Hact & Hcan).
  assert (Detector.pending (Watcher.start_timer 5 st1).2 = [length (Watcher.timers st)]) as Hpend.
  { unfold Detector.pending, Watcher.start_timer, modify. simpl.
    rewrite pending_from_app. unfold Detector.pending in Hnone. rewrite Hnone. simpl.
    by rewrite Hlen. }
  split; [|split; [|done]].
  - split.
    + unfold Watcher.start_timer, modify. simpl. rewrite Hact.
      destruct Hinv as [Hwf _]. by rewrite Ha in Hwf.
    + intros id. rewrite Hpend. intros ->%list_elem_of_singleton.
      unfold Watcher.start_timer, modify. simpl. by rewrite Hlen.
  - intros _. unfold Watcher.start_timer, modify in *. simpl in *.
    split; [by rewrite Hlen|]. split.
    { rewrite <-Hlen. rewrite lookup_app_r by lia. by rewrite Nat.sub_diag. }
    split; [rewrite length_app; simpl; lia|]. split; [done|].
    intros id i Hid. rewrite lookup_app_l by (rewrite Hlen; by eapply lookup_lt_Some).
    by apply Hcan.
Qed.

Lemma check_actives_inv (now : Q) (st : Watcher.State) :
  Detector.inv st →
  Watcher.check_actives now st = (Ret tt, rearm (swept now st))
  ∧ Detector.inv (rearm (swept now st)).
Proof.
  intros Hinv. split; [apply check_actives_spec, Hinv|].
  apply rearm_spec. by apply swept_inv.
Qed.

(** [Watcher.process_file], by the size found on disk. *)
Lemma watcher_process_file_cases (path : string) (t_set t_sweep : Q) (st : Watcher.State) :
  let size := match fs (Watcher.world st) !! path with
              | Some nd => st_size nd
              | None => 0
              end in
  (size ≤ 0 → Watcher.process_file path t_set t_sweep st = (Ret tt, st))
  ∧ (0 < size →
       Watcher.process_file path t_set t_sweep st
       = Watcher.check_actives t_sweep
           (Watcher.set_active (Dict.set path t_set (Watcher.active st)) st)).
Proof.
  intros size.
  assert (Watcher.filesize path st = (Ret size, st)) as Hf.
  { unfold Watcher.filesize, size. by destruct (fs (Watcher.world st) !! path). }
  unfold Watcher.process_file. rewrite (bind_ret _ _ _ _ _ Hf).
  split; intros Hs.
  - by destruct (0 <? size) eqn:E; [lia|].
  - by destruct (0 <? size) eqn:E; [|lia].
Qed.

Lemma step_inv (st : Watcher.State) (ev : Detector.Event) :
  Detector.inv st → Detector.inv (Detector.step st ev).
Proof.
  intros Hinv. destruct ev as [path t_set t_sweep|id now|fs']; simpl.
  - destruct (watcher_process_file_cases path t_set t_sweep st) as [Hz Hnz].
    destruct (Z_le_gt_dec
                (match fs (Watcher.world st) !! path with
                 | Some nd => st_size nd
                 | None => 0
                 end) 0) as [Hs|Hs].
    + by rewrite (Hz Hs).
    + rewrite Hnz by lia.
      assert (Detector.inv (Watcher.set_active
                              (Dict.set path t_set (Watcher.active st)) st)) as Hi.
      { destruct Hinv as [Hwf Hp]. split; [by apply dict_set_wf|done]. }
      destruct (check_actives_inv t_sweep _ Hi) as [-> H]. done.
  - unfold Watcher.timer_fires.
    destruct (Watcher.timers st !! id) as [[i s]|] eqn:Hid; [|done].
    destruct s; try done.
    assert (Detector.inv (Watcher.set_timers
                            (<[id:=Watcher.mkTimer i Watcher.Fired]> (Watcher.timers st)) st))
      as Hi.
    { destruct Hinv as [Hwf Hp]. split; [done|].
      intros x Hx. apply Hp.
      apply elem_of_pending_from in Hx as (k & t & Hk & Hl & Hpt).
      simpl in Hk, Hl. subst k.
      destruct (decide (x = id)) as [->|Hne].
      - rewrite list_lookup_insert_eq in Hl by (by eapply lookup_lt_Some).
        by injection Hl as <-.
      - rewrite list_lookup_insert_ne in Hl by done.
        apply elem_of_pending_from. by exists x, t. }
    destruct (check_actives_inv now _ Hi) as [-> H]. done.
  - destruct Hinv as [Hwf Hp]. by split.
Qed.

Lemma run_inv (evs : list Detector.Event) (st : Watcher.State) :
  Detector.inv st → Detector.inv (Detector.run evs st).
Proof.
  unfold Detector.run. revert st. induction evs as [|ev evs IH]; intros st Hinv; simpl.
  - done.
  - apply IH. by apply step_inv.
Qed.

Lemma start_inv (w : World) (workq : list string) : Detector.inv (Detector.start w workq).
Proof.
  split; [apply NoDup_nil_2|]. by intros id ?%elem_of_nil.
Qed.

(** X21: as long as sweeps do not overlap, that is, in every state the
    detector reaches from its start by items of the watch queue, timers
    that fire and changes of the files, each taken as one step, at most one
    timer is pending, and it is the one [self.timer] names.  A sweep in
    such a state returns normally.  When the active set is not empty after
    it, the sweep has created one new timer of interval 5, which is then
    the only pending timer, a timer that was pending before being
    cancelled; when the active set is empty after it, the timers and
    [self.timer] are as before the sweep.  (Sweeps that overlap can leave
    two pending timers, see the section on sweeps on two threads.) *)
Theorem at_most_one_pending_timer
    (evs : list Detector.Event) (w : World) (workq : list string) (now : Q) :
  let st := Detector.run evs (Detector.start w workq) in
  (length (Detector.pending st) ≤ 1)%nat
  ∧ (∀ id, id ∈ Detector.pending st → Watcher.timer st = Some id)
  ∧ ∃ st', Watcher.check_actives now st = (Ret tt, st')
      ∧ (length (Detector.pending st') ≤ 1)%nat
      ∧ (Watcher.active st' ≠ [] →
           Watcher.timer st' = Some (length (Watcher.timers st))
           ∧ Watcher.timers st' !! length (Watcher.timers st)
             = Some (Watcher.mkTimer 5 Watcher.Pending)
           ∧ length (Watcher.timers st') = S (length (Watcher.timers st))
           ∧ Detector.pending st' = [length (Watcher.timers st)]
           ∧ ∀ id i, Watcher.timers st !! id = Some (Watcher.mkTimer i Watcher.Pending) →
                     Watcher.timers st' !! id = Some (Watcher.mkTimer i Watcher.Cancelled))
      ∧ (Watcher.active st' = [] →
           Watcher.timers st' = Watcher.timers st
           ∧ Watcher.timer st' = Watcher.timer st).
Proof.
  intros st.
  assert (Detector.inv st) as Hinv by apply run_inv, start_inv.
  split; [by apply inv_at_most_one|]. split; [apply Hinv|].
  destruct (check_actives_inv now st Hinv) as [Hc Hi].
  exists (rearm (swept now st)). split; [done|]. split; [by apply inv_at_most_one|].
  destruct (rearm_spec (swept now st) (swept_inv now st Hinv)) as (_ & Hne & He).
  destruct (rearm_keeps (swept now st)) as (Ha & _ & _).
  rewrite Ha. split.
  - intros H. by apply Hne.
  - intros H. by rewrite (He H).
Qed.

(** A file that grows: it is seen at 0 and at 10, the timer of the first
    sweep fires at 5, the second one is cancelled at 10 and the third fires
    at 15; the file is promoted by the sweep of the timer that fires
    at 41. *)
Example detector_run :
  let st := Detector.run
              [Detector.Dequeued "/source/a.jpg" 0%Q 0%Q;
               Detector.TimerFires 0 5%Q;
               Detector.Dequeued "/source/a.jpg" 10%Q 10%Q;
               Detector.TimerFires 1 15%Q;
               Detector.TimerFires 2 15%Q;
               Detector.TimerFires 3 41%Q]
              (Detector.start (mkWorld {[ "/source/a.jpg" := Regular "JFIF" 0 ]} [] ∅) []) in
  Watcher.workq st = ["/source/a.jpg"]
  ∧ Watcher.active st = []
  ∧ Detector.pending st = []
  ∧ Watcher.status <$> Watcher.timers st
    = [Watcher.Fired; Watcher.Cancelled; Watcher.Fired; Watcher.Fired].
Proof. repeat split; by vm_compute. Qed.

(** ** Sweeps on two threads *)

(** The places of [Sweep.step] cut [check_actives] and leave nothing out:
    a call that no other thread interrupts is [check_actives]. *)
Lemma sweep_whole_is_check_actives (now : Q) (st : Watcher.State) :
  Sweep.whole now st = Watcher.check_actives now st.
Proof.
  unfold Sweep.whole, Watcher.check_actives, Sweep.step.
  unfold mbind, M_bind, mret, M_ret, gets.
  destruct (Watcher.collect now (Watcher.active st) [] st) as [[dk|e] s1]; [|done].
  destruct (for_each dk Watcher.del_active s1) as [[[]|e] s2]; [|done].
  destruct (0 <? Z.of_nat (length (Watcher.active s2))); [|done].
  destruct (Watcher.timer s2) as [id|].
  - destruct (Watcher.cancel id s2) as [[[]|e] s3] eqn:Hc; [|done].
    by destruct (Watcher.start_timer 5 s3) as [[[]|e] s4].
  - by destruct (Watcher.start_timer 5 s2) as [[[]|e] s4].
Qed.

Lemma advance_last (st : Watcher.State) (cs : list Overlap.Call)
    (o : Overlap.Owner) (pc : Sweep.Pc) :
  Overlap.step (Overlap.mkState st (cs ++ [Overlap.mkCall o pc]))
    (Overlap.Advance (length cs))
  = match Sweep.step pc st with
    | (Ret pc', st') => Overlap.mkState st' (cs ++ [Overlap.mkCall o pc'])
    | (Raise e, st') =>
        Overlap.mkState (Watcher.log_entry (Traceback e) st').2
          (cs ++ [Overlap.mkCall o Sweep.Returned])
    end.
Proof.
  unfold Overlap.step. cbn [Overlap.calls Overlap.shared].
  rewrite list_lookup_middle by done. cbn [Overlap.pc Overlap.owner].
  destruct (Sweep.step pc st) as [[pc'|e] st'];
    by rewrite insert_app_r_alt, Nat.sub_diag by done.
Qed.

Lemma advance_returned (st : Watcher.State) (cs : list Overlap.Call) (o : Overlap.Owner) :
  Overlap.step (Overlap.mkState st (cs ++ [Overlap.mkCall o Sweep.Returned]))
    (Overlap.Advance (length cs))
  = Overlap.mkState st (cs ++ [Overlap.mkCall o Sweep.Returned]).
Proof. by rewrite advance_last. Qed.

(** A call that runs from its first place to its last with no other
    thread in between does to the shared state what [check_actives] does,
    and what it raises is logged. *)
Lemma overlap_call_runs_check_actives (st : Watcher.State) (cs : list Overlap.Call)
    (o : Overlap.Owner) (now : Q) :
  let k := length cs in
  Overlap.shared
    (Overlap.run [Overlap.Advance k; Overlap.Advance k; Overlap.Advance k; Overlap.Advance k]
       (Overlap.mkState st (cs ++ [Overlap.mkCall o (Sweep.AtLoop now)])))
  = match Watcher.check_actives now st with
    | (Ret _, st') => st'
    | (Raise e, st') => (Watcher.log_entry (Traceback e) st').2
    end.
Proof.
  intros k. unfold k, Overlap.run. cbn [fold_left].
  rewrite <-sweep_whole_is_check_actives. unfold Sweep.whole.
  unfold mbind at 1. unfold M_bind at 1.
  rewrite advance_last.
  destruct (Sweep.step (Sweep.AtLoop now) st) as [[p1|e] s1]; [|by rewrite !advance_returned].
  unfold mbind at 1. unfold M_bind at 1.
  rewrite advance_last.
  destruct (Sweep.step p1 s1) as [[p2|e] s2]; [|by rewrite !advance_returned].
  unfold mbind at 1. unfold M_bind at 1.
  rewrite advance_last.
  destruct (Sweep.step p2 s2) as [[p3|e] s3]; [|by rewrite !advance_returned].
  unfold mbind at 1. unfold M_bind at 1.
  rewrite advance_last.
  by destruct (Sweep.step p3 s3) as [[p4|e] s4].
Qed.

Lemma advance_idle (s : Overlap.State) (k : nat) :
  (length (Overlap.calls s) ≤ k)%nat → Overlap.step s (Overlap.Advance k) = s.
Proof. intros H. unfold Overlap.step. by rewrite lookup_ge_None_2 by done. Qed.

(** The Watcher thread that takes an item from the watch queue and whose
    sweep no other thread interrupts takes the step of [Detector.step]. *)
Lemma overlap_dequeued_is_detector_step (s : Overlap.State)
    (path : string) (t_set t_sweep : Q) :
  Overlap.busy (Overlap.calls s) = false →
  let k := length (Overlap.calls s) in
  Overlap.shared
    (Overlap.run [Overlap.Dequeued path t_set t_sweep;
                  Overlap.Advance k; Overlap.Advance k; Overlap.Advance k; Overlap.Advance k] s)
  = Detector.step (Overlap.shared s) (Detector.Dequeued path t_set t_sweep).
Proof.
  destruct s as [st cs]. cbn [Overlap.calls Overlap.shared]. intros Hb. cbv zeta.
  assert (Overlap.step (Overlap.mkState st cs) (Overlap.Dequeued path t_set t_sweep)
          = match fs (Watcher.world st) !! path with
            | Some nd =>
                if 0 <? st_size nd then
                  Overlap.mkState
                    (Watcher.set_active (Dict.set path t_set (Watcher.active st)) st)
                    (cs ++ [Overlap.mkCall Overlap.WatcherThread (Sweep.AtLoop t_sweep)])
                else Overlap.mkState st cs
            | None => Overlap.mkState st cs
            end) as Hd.
  { unfold Overlap.step, Watcher.filesize. cbn [Overlap.calls Overlap.shared].
    rewrite Hb. by destruct (fs (Watcher.world st) !! path). }
  unfold Overlap.run. cbn [fold_left]. rewrite Hd.
  unfold Detector.step, Watcher.process_file, Watcher.filesize.
  unfold mbind at 1. unfold M_bind at 1.
  destruct (fs (Watcher.world st) !! path) as [nd|].
  - destruct (0 <? st_size nd).
    + exact (overlap_call_runs_check_actives
               (Watcher.set_active (Dict.set path t_set (Watcher.active st)) st)
               cs Overlap.WatcherThread t_sweep).
    + by rewrite !(advance_idle (Overlap.mkState st cs) (length cs)) by (cbn; lia).
  - by rewrite !(advance_idle (Overlap.mkState st cs) (length cs)) by (cbn; lia).
Qed.

(** A timer thread that wakes up and whose sweep no other thread
    interrupts takes the step of [Detector.step]. *)
Lemma overlap_timer_is_detector_step (s : Overlap.State) (id : nat) (now : Q) :
  let k := length (Overlap.calls s) in
  Overlap.shared
    (Overlap.run [Overlap.TimerWakes id now;
                  Overlap.Advance k; Overlap.Advance k; Overlap.Advance k; Overlap.Advance k] s)
  = Detector.step (Overlap.shared s) (Detector.TimerFires id now).
Proof.
  destruct s as [st cs]. cbn [Overlap.calls Overlap.shared]. cbv zeta.
  change (Overlap.run (?e :: ?l) ?s) with (Overlap.run l (Overlap.step s e)).
  unfold Overlap.step. cbn [Overlap.calls Overlap.shared].
  unfold Detector.step, Watcher.timer_fires.
  destruct (Watcher.timers st !! id) as [[i []]|].
  - rewrite (overlap_call_runs_check_actives _ cs (Overlap.TimerThread id) now).
    by destruct (Watcher.check_actives now _) as [[[]|e] st'].
  - unfold Overlap.run. cbn [fold_left].
    by rewrite !(advance_idle (Overlap.mkState st cs) (length cs)) by (cbn; lia).
  - unfold Overlap.run. cbn [fold_left].
    by rewrite !(advance_idle (Overlap.mkState st cs) (length cs)) by (cbn; lia).
  - unfold Overlap.run. cbn [fold_left].
    by rewrite !(advance_idle (Overlap.mkState st cs) (length cs)) by (cbn; lia).
Qed.

(** C6, at the schedule on which the code departs from it.  [a.jpg] is
    taken from the watch queue and its sweep starts timer 0.  Timer 0
    fires, and its thread runs [check_actives] up to line 157: the active
    set is not empty, and [self.timer] is timer 0 itself, which
    [cancel()] cannot stop any more.  Before that thread reaches line 158
    the Watcher thread takes [b.jpg] from the watch queue, a millisecond
    later, and runs its own sweep to the end, which starts timer 1.  The timer thread then goes on
    with lines 158 and 159 and starts timer 2 without cancelling timer 1:
    two timers are pending, and [self.timer] names the second only. *)
Theorem overlapping_sweeps_leave_two_timers :
  let w := mkWorld {[ "/source/a.jpg" := Regular "JFIF" 0;
                      "/source/b.jpg" := Regular "JFIF" 0 ]} [] ∅ in
  let s1 := Overlap.run
              [Overlap.Dequeued "/source/a.jpg" 0 0;
               Overlap.Advance 0; Overlap.Advance 0; Overlap.Advance 0; Overlap.Advance 0;
               Overlap.TimerWakes 0 5;
               Overlap.Advance 1; Overlap.Advance 1; Overlap.Advance 1]
              (Overlap.start w []) in
  let s2 := Overlap.run
              [Overlap.Dequeued "/source/b.jpg" (5001 # 1000) (5001 # 1000);
               Overlap.Advance 2; Overlap.Advance 2; Overlap.Advance 2; Overlap.Advance 2]
              s1 in
  let s3 := Overlap.step s2 (Overlap.Advance 1) in
  Overlap.calls s1 = [Overlap.mkCall Overlap.WatcherThread Sweep.Returned;
                      Overlap.mkCall (Overlap.TimerThread 0) Sweep.AtStart]
  ∧ Detector.pending (Overlap.shared s1) = []
  ∧ Detector.pending (Overlap.shared s2) = [1%nat]
  ∧ Overlap.calls s3 = [Overlap.mkCall Overlap.WatcherThread Sweep.Returned;
                        Overlap.mkCall (Overlap.TimerThread 0) Sweep.Returned;
                        Overlap.mkCall Overlap.WatcherThread Sweep.Returned]
  ∧ Watcher.timers (Overlap.shared s3)
    = [Watcher.mkTimer 5 Watcher.Fired; Watcher.mkTimer 5 Watcher.Pending;
       Watcher.mkTimer 5 Watcher.Pending]
  ∧ Detector.pending (Overlap.shared s3) = [1%nat; 2%nat]
  ∧ Watcher.timer (Overlap.shared s3) = Some 2%nat
  ∧ logs (Watcher.world (Overlap.shared s3)) = [].
Proof. repeat split; by vm_compute. Qed.

(** Two sweeps that overlap the other way: the timer thread has put the
    quiet [a.jpg] on the work queue and not yet deleted it from the active
    set when the sweep of the Watcher thread finds it there, puts it on the
    work queue again and deletes it; the [del] of the timer thread then
    raises [KeyError]. *)
Example overlapping_sweeps_promote_twice :
  let w := mkWorld {[ "/source/a.jpg" := Regular "JFIF" 0;
                      "/source/b.jpg" := Regular "JFIF" 0 ]} [] ∅ in
  let s := Overlap.run
             [Overlap.Dequeued "/source/a.jpg" 0 0;
              Overlap.Advance 0; Overlap.Advance 0; Overlap.Advance 0; Overlap.Advance 0;
              Overlap.TimerWakes 0 31;
              Overlap.Advance 1;
              Overlap.Dequeued "/source/b.jpg" (31001 # 1000) (31001 # 1000);
              Overlap.Advance 2; Overlap.Advance 2; Overlap.Advance 2; Overlap.Advance 2;
              Overlap.Advance 1]
             (Overlap.start w []) in
  Watcher.workq (Overlap.shared s) = ["/source/a.jpg"; "/source/a.jpg"]
  ∧ logs (Watcher.world (Overlap.shared s)) = [Traceback KeyError].
Proof. split; by vm_compute. Qed.

(** ** The error limit of a thread *)

Lemma failures_cons (b : bool) (l : list bool) :
  Thread.failures (b :: l) = (if b then 1 else 0) + Thread.failures l.
Proof.
  unfold Thread.failures. destruct b.
  - rewrite filter_cons_True by done. simpl length. lia.
  - rewrite filter_cons_False by done. lia.
Qed.

Lemma failures_nonneg (l : list bool) : 0 ≤ Thread.failures l.
Proof. unfold Thread.failures. lia. Qed.

Section ErrorLimit.
Context {W I : Type}.
Variable role : string.
Variable process_file : I → M W unit.
Variable log_entry : LogMsg → M W unit.

Let run_from := Thread.run_from role process_file log_entry.
Let raises := Thread.raises process_file log_entry.
Let exit_line := Line ("Too many errors, " +:+ role +:+ " thread exiting").

Lemma run_from_limit (queue : list I) (n : Z) (w : W) :
  5 ≤ n →
  run_from n queue w = Thread.mkStop Thread.Exited queue (log_entry exit_line w).2.
Proof.
  intros Hn. unfold run_from. destruct queue; simpl;
    by destruct (n <? 5) eqn:E; [lia|].
Qed.

Lemma raises_cons_ret (path : I) (rest : list I) (w w1 : W) (u : unit) :
  process_file path w = (Ret u, w1) → raises (path :: rest) w = false :: raises rest w1.
Proof. intros H. unfold raises. simpl. by rewrite H. Qed.

Lemma raises_cons_raise (path : I) (rest : list I) (w w1 : W) (e : Exn) :
  process_file path w = (Raise e, w1) →
  raises (path :: rest) w = true :: raises rest (log_entry (Traceback e) w1).2.
Proof. intros H. unfold raises. simpl. by rewrite H. Qed.

Lemma run_from_total (queue : list I) (n : Z) (w : W) :
  n ≤ 5 →
  let stop := run_from n queue w in
  let total := n + Thread.failures (raises queue w) in
  (total < 5 → Thread.ending stop = Thread.Blocked total ∧ Thread.unconsumed stop = [])
  ∧ (5 ≤ total →
       Thread.ending stop = Thread.Exited
       ∧ ∃ consumed w',
           queue = consumed ++ Thread.unconsumed stop
           ∧ n + Thread.failures (raises consumed w) = 5
           ∧ (consumed = [] ∧ n = 5 ∨ last (raises consumed w) = Some true)
           ∧ Thread.final stop = (log_entry exit_line w').2).
Proof.
  revert n w. induction queue as [|path rest IH]; intros n w Hn; cbv zeta.
  - unfold run_from, raises. simpl. change (Thread.failures []) with 0.
    rewrite Z.add_0_r. destruct (n <? 5) eqn:E; simpl.
    + split; [done|intros; lia].
    + split; [intros; lia|]. intros _. split; [done|]. exists [], w.
      split; [done|]. simpl. change (Thread.failures []) with 0.
      split; [lia|]. split; [left; split; [done|lia]|done].
  - destruct (Z.eq_dec n 5) as [->|Hne].
    { rewrite run_from_limit by lia.
      cbn [Thread.ending Thread.unconsumed Thread.final].
      pose proof (failures_nonneg (raises (path :: rest) w)).
      split; [intros; lia|]. intros _. split; [done|]. exists [], w.
      split; [done|]. unfold raises. simpl. change (Thread.failures []) with 0.
      split; [lia|]. split; [by left|done]. }
    assert (n < 5) as Hlt by lia.
    destruct (process_file path w) as [[u|e] w1] eqn:Hp.
    + unfold run_from. rewrite (run_from_ret _ _ _ _ _ _ _ _ _ Hlt Hp). fold run_from.
      rewrite (raises_cons_ret _ _ _ _ _ Hp), failures_cons, Z.add_0_l.
      destruct (IH n w1 Hn) as [Hb He]. split; [done|].
      intros Ht. destruct (He Ht) as (Hend & consumed & w' & Hq & Hc & Hl & Hf).
      split; [done|]. exists (path :: consumed), w'.
      split; [by rewrite Hq at 1|].
      rewrite (raises_cons_ret _ _ _ _ _ Hp), failures_cons, Z.add_0_l.
      split; [done|]. split; [|done]. right.
      destruct Hl as [[_ ?]|Hl]; [lia|].
      destruct (raises consumed w1) as [|b l]; [done|]. by rewrite last_cons_cons.
    + unfold run_from. rewrite (run_from_raise _ _ _ _ _ _ _ _ _ Hlt Hp). fold run_from.
      rewrite (raises_cons_raise _ _ _ _ _ Hp), failures_cons.
      destruct (IH (n + 1) (log_entry (Traceback e) w1).2) as [Hb He]; [lia|].
      replace (n + (1 + Thread.failures (raises rest (log_entry (Traceback e) w1).2)))
        with (n + 1 + Thread.failures (raises rest (log_entry (Traceback e) w1).2)) by lia.
      split; [done|].
      intros Ht. destruct (He Ht) as (Hend & consumed & w' & Hq & Hc & Hl & Hf).
      split; [done|]. exists (path :: consumed), w'.
      split; [by rewrite Hq at 1|].
      rewrite (raises_cons_raise _ _ _ _ _ Hp), failures_cons.
      split; [lia|]. split; [|done]. right.
      destruct Hl as [[-> _]|Hl]; [done|].
      destruct (raises consumed (log_entry (Traceback e) w1).2) as [|b l]; [done|].
      by rewrite last_cons_cons.
Qed.

End ErrorLimit.

(** C2, as amended: a thread leaves its loop, logging "Too many errors,
    <role> thread exiting", exactly when five items of its queue have
    raised since it started, in a row or not: the counter is never reset,
    so an item that is processed without error in between changes
    nothing.  With fewer than five such items the thread handles the whole
    queue and waits in [get()] with the number of errors so far; otherwise
    it stops right after the fifth item that raised and leaves the rest of
    the queue unconsumed.  [Worker.run] and [Watcher.run] are this loop. *)
Theorem thread_exits_after_five_errors {W I : Type}
    (role : string) (process_file : I → M W unit) (write_log : LogMsg → M W unit)
    (queue : list I) (w : W) :
  let stop := Thread.run role process_file write_log queue w in
  let outcome := Thread.raises process_file write_log queue w in
  (Thread.ending stop = Thread.Exited ↔ 5 ≤ Thread.failures outcome)
  ∧ (Thread.failures outcome < 5 →
       Thread.ending stop = Thread.Blocked (Thread.failures outcome)
       ∧ Thread.unconsumed stop = [])
  ∧ (5 ≤ Thread.failures outcome →
       ∃ consumed w',
         queue = consumed ++ Thread.unconsumed stop
         ∧ Thread.failures (Thread.raises process_file write_log consumed w) = 5
         ∧ last (Thread.raises process_file write_log consumed w) = Some true
         ∧ Thread.final stop
           = (write_log (Line ("Too many errors, " +:+ role +:+ " thread exiting")) w').2)
  ∧ (∀ exiftool env workq w0,
       WorkerThread.run exiftool env workq w0
       = Thread.run "Worker" (Worker.process_file exiftool env) log_entry workq w0)
  ∧ (∀ watchq st,
       Watcher.run watchq st
       = Thread.run "Watcher"
           (λ '(path, t_set, t_sweep), Watcher.process_file path t_set t_sweep)
           Watcher.log_entry watchq st).
Proof.
  intros stop outcome.
  destruct (run_from_total role process_file write_log queue 0 w) as [Hb He]; [lia|].
  rewrite Z.add_0_l in Hb, He. fold outcome in Hb, He.
  change (Thread.run_from role process_file write_log 0 queue w) with stop in Hb, He.
  split; [|split; [done|split; [|done]]].
  - split.
    + intros Hex. destruct (Z_lt_le_dec (Thread.failures outcome) 5) as [Hlt|]; [|done].
      destruct (Hb Hlt) as [Hbl _]. congruence.
    + intros H5. by destruct (He H5).
  - intros H5. destruct (He H5) as (_ & consumed & w' & Hq & Hc & Hl & Hf).
    exists consumed, w'. rewrite Z.add_0_l in Hc.
    split; [done|]. split; [done|]. split; [|done].
    destruct Hl as [[_ ?]|]; [lia|done].
Qed.

(** Five failed starts of exiftool, each followed by a file that is renamed
    without error: never two errors in a row, and the Worker is gone after
    the fifth, with two files left in the queue. *)
Lemma scattered_errors_stop_the_worker :
  let exiftool : list string → gmap string Node → option (Spawn * gmap string Node) :=
    λ cmd fs,
      if bool_decide (last cmd = Some "/source/bad.jpg") then None
      else Some (mkSpawn "'/source/ok.jpg' --> '/dest/2024/03/20240315_120000.jpg'" "" 0, fs) in
  let env : Environ := {[ "DELETE_DUPLICATE" := "1" ]} in
  let workq := ["/source/bad.jpg"; "/source/ok.jpg"; "/source/bad.jpg"; "/source/ok.jpg";
                "/source/bad.jpg"; "/source/ok.jpg"; "/source/bad.jpg"; "/source/ok.jpg";
                "/source/bad.jpg"; "/source/ok.jpg"; "/source/ok.jpg"] in
  let w := mkWorld ∅ [] ∅ in
  let stop := WorkerThread.run exiftool env workq w in
  let outcome := Thread.raises (Worker.process_file exiftool env) log_entry workq w in
  outcome = [true; false; true; false; true; false; true; false; true; false; false]
  ∧ Thread.longest_streak outcome = 1
  ∧ Thread.ending stop = Thread.Exited
  ∧ Thread.unconsumed stop = ["/source/ok.jpg"; "/source/ok.jpg"]
  ∧ last (logs (Thread.final stop)) = Some (Line "Too many errors, Worker thread exiting").
Proof. repeat split; by vm_compute. Qed.

(** ** Parsing the output of exiftool *)

Lemma span_app_no_space (a t : string) :
  no_space a = true →
  Re.span Re.NonSpace (a +:+ t) = (String.length a + Re.span Re.NonSpace t)%nat.
Proof.
  induction a as [|c a IH]; simpl; [done|].
  intros [Hc Ha]%andb_true_iff. rewrite Hc. f_equal. auto.
Qed.

Lemma drop_app_succ (a t : string) (c : ascii) :
  Py.drop (S (String.length a)) (a +:+ String c t) = t.
Proof. induction a as [|b a IH]; simpl; [by destruct t|exact IH]. Qed.

Lemma quote_not_space : Py.isspace "'" = false.
Proof. reflexivity. Qed.

(** A group of non-space characters before a quote: the greedy match runs
    over the quote, fails there and gives the quote back. *)
Lemma match_group_quote (r : list Re.item) (a t : string) (caps : list string) :
  no_space a = true → a ≠ "" → Re.span Re.NonSpace t = 0%nat →
  Re.match_here r t = Some caps →
  Re.match_here (Re.Group Re.NonSpace :: Re.Chr "'" :: r) (a +:+ String "'" t)
  = Some (a :: caps).
Proof.
  intros Ha Hne Ht Hr.
  cbn [Re.match_here]. rewrite span_app_no_space by done.
  cbn [Re.span Re.cls_match]. rewrite quote_not_space. cbn [negb]. rewrite Ht.
  replace (String.length a + 1)%nat with (S (String.length a)) by lia.
  cbn [Re.backtrack]. rewrite drop_app_succ.
  assert (match t with
          | "" => None
          | String b s' => if Py.chr_eqb "'" b then Re.match_here r s' else None
          end = None) as ->.
  { destruct t as [|b t]; [done|].
    simpl in Ht. destruct (Py.isspace b) eqn:Hb; [|done].
    destruct (Py.chr_eqb "'" b) eqn:E; [|done].
    apply chr_eqb_eq in E as <-. by rewrite quote_not_space in Hb. }
  cbn [fmap option_fmap option_map].
  destruct a as [|c a]; [done|].
  cbn [String.length Re.backtrack].
  change (S (String.length a)) with (String.length (String c a)).
  rewrite take_app_length, drop_app_length.
  change (Py.chr_eqb "'" "'") with true. cbn iota.
  by rewrite Hr.
Qed.

Lemma rename_line_unfold (src dst : string) :
  rename_line src dst
  = String "'" (src +:+ String "'" (String " " (String "-" (String "-" (String ">"
      (String " " (String "'" (dst +:+ String "'" "")))))))).
Proof. reflexivity. Qed.

Lemma match_chr (a : ascii) (r : list Re.item) (s : string) :
  Re.match_here (Re.Chr a :: r) (String a s) = Re.match_here r s.
Proof.
  cbn [Re.match_here]. by rewrite (proj2 (chr_eqb_eq a a) eq_refl).
Qed.

(** One character of the class, then a character outside of it. *)
Lemma match_plus_one (c : Re.cls) (r : list Re.item) (a b : ascii) (s : string) :
  Re.cls_match c a = true → Re.cls_match c b = false →
  Re.match_here (Re.Plus c :: r) (String a (String b s)) = Re.match_here r (String b s).
Proof.
  intros Ha Hb. cbn [Re.match_here Re.span]. rewrite Ha, Hb.
  cbn [Re.backtrack Py.drop]. by destruct (Re.match_here r (String b s)).
Qed.

Lemma match_rename_line (src dst : string) :
  no_space src = true → no_space dst = true → src ≠ "" → dst ≠ "" →
  Re.match_ Worker.rename_re (rename_line src dst) = Some [src; dst].
Proof.
  intros Hs Hd Hsn Hdn. rewrite rename_line_unfold.
  unfold Re.match_, Worker.rename_re.
  rewrite match_chr.
  apply match_group_quote; [done|done|reflexivity|].
  rewrite match_plus_one by reflexivity.
  rewrite !match_chr.
  rewrite match_plus_one by reflexivity.
  rewrite match_chr.
  by apply match_group_quote.
Qed.

Example match_rename_line_with_space :
  Re.match_ Worker.rename_re
    "'/source/IMG 001.JPG' --> '/dest/2024/03/20240315_120000.jpg'" = None.
Proof. reflexivity. Qed.

(** White space in the destination does not always keep the line from
    matching: with a quote before the white space, the match ends there
    and the destination is captured cut short. *)
Example match_rename_line_cut_short :
  Re.match_ Worker.rename_re
    "'/source/a.jpg' --> '/dest/Mom's pics/20240315_120000.jpg'"
  = Some ["/source/a.jpg"; "/dest/Mom"].
Proof. reflexivity. Qed.

Example match_rename_line_space_in_destination :
  Re.match_ Worker.rename_re
    "'/source/a.jpg' --> '/dest/My Pictures/20240315_120000.jpg'" = None.
Proof. reflexivity. Qed.

Lemma srcfile_nonempty (env : Environ) (path : string) :
  OsPath.join (Config.UI_SRCDIR env) path ≠ "".
Proof.
  unfold Config.UI_SRCDIR, SRCDIR, OsPath.join.
  destruct path as [|c path]; [done|].
  destruct c as [[] [] [] [] [] [] [] []]; done.
Qed.

(** The log only grows. *)
Lemma dedup_logs (dstfile : string) (w : World) :
  ∃ extra, logs (Worker.dedup dstfile w).2 = logs w ++ extra.
Proof.
  rewrite dedup_cases.
  destruct (fs w !! _) as [[c2 m2|z2]|]; destruct (fs w !! dstfile) as [[c1 m1|z1]|];
    simpl; eauto.
  destruct (negb _); simpl; eauto.
  destruct (cmp_answer _ _ _ _); simpl; eauto.
Qed.

Lemma handle_matched_logs (env : Environ) (srcfile dstfile : string) (w : World) :
  ∃ extra,
    logs (((if Worker.dedup_enabled env dstfile then Worker.dedup dstfile
            else mret tt : M World unit) ≫= λ _, mret (Some dstfile))
            (mkWorld (fs w) (logs w ++ [Moved srcfile dstfile]) (cmp_cache w))).2
    = logs w ++ Moved srcfile dstfile :: extra.
Proof.
  unfold mbind, M_bind.
  destruct (Worker.dedup_enabled env dstfile).
  - destruct (dedup_logs dstfile
                (mkWorld (fs w) (logs w ++ [Moved srcfile dstfile]) (cmp_cache w)))
      as [x Hx].
    destruct (Worker.dedup dstfile _) as [[u|e] w2]; simpl in *;
      exists x; by rewrite Hx, <-app_assoc.
  - exists []. done.
Qed.

Lemma handle_line_matched (env : Environ) (srcfile dst : string)
    (d : option string) (w : World) :
  no_space srcfile = true → no_space dst = true → srcfile ≠ "" → dst ≠ "" →
  Worker.handle_line env srcfile d (rename_line srcfile dst) w
  = ((if Worker.dedup_enabled env dst then Worker.dedup dst
      else mret tt : M World unit) ≫= λ _, mret (Some dst))
      (mkWorld (fs w) (logs w ++ [Moved srcfile dst]) (cmp_cache w)).
Proof.
  intros Hs Hd Hsn Hdn. unfold Worker.handle_line.
  rewrite match_rename_line by done.
  change (Re.group [srcfile; dst] 1) with srcfile.
  change (Re.group [srcfile; dst] 2) with dst.
  by rewrite String.eqb_refl.
Qed.

Lemma handle_line_logs (env : Environ) (srcfile : string) (d : option string)
    (line : string) (w : World) :
  ∃ extra, logs (Worker.handle_line env srcfile d line w).2 = logs w ++ extra.
Proof.
  unfold Worker.handle_line.
  destruct (Re.match_ Worker.rename_re line) as [m|]; [|exists []; by rewrite app_nil_r].
  destruct (String.eqb (Re.group m 1) srcfile); [|exists []; by rewrite app_nil_r].
  destruct (handle_matched_logs env srcfile (Re.group m 2) w) as [x Hx].
  exists (Moved srcfile (Re.group m 2) :: x). exact Hx.
Qed.

Lemma handle_lines_logs (env : Environ) (srcfile : string) (lines : list string)
    (d : option string) (w : World) :
  ∃ extra, logs (Worker.handle_lines env srcfile d lines w).2 = logs w ++ extra.
Proof.
  revert d w. induction lines as [|line lines IH]; intros d w; simpl.
  { exists []. by rewrite app_nil_r. }
  destruct (handle_line_logs env srcfile d line w) as [x Hx].
  unfold mbind, M_bind.
  destruct (Worker.handle_line env srcfile d line w) as [[d1|e] w1]; simpl in *.
  - destruct (IH d1 w1) as [y Hy]. exists (x ++ y). by rewrite Hy, Hx, app_assoc.
  - by exists x.
Qed.

Lemma handle_lines_app (env : Environ) (srcfile : string) (l1 l2 : list string)
    (d : option string) (w : World) :
  Worker.handle_lines env srcfile d (l1 ++ l2) w
  = (Worker.handle_lines env srcfile d l1
       ≫= λ d', Worker.handle_lines env srcfile d' l2) w.
Proof.
  revert d w. induction l1 as [|line l1 IH]; intros d w; simpl; [done|].
  unfold mbind, M_bind.
  destruct (Worker.handle_line env srcfile d line w) as [[d1|e] w1]; [|done].
  rewrite IH. done.
Qed.

(** Once a destination is captured, it stays captured. *)
Lemma handle_lines_some (env : Environ) (srcfile : string) (lines : list string)
    (d : string) (w w' : World) (d' : option string) :
  Worker.handle_lines env srcfile (Some d) lines w = (Ret d', w') → is_Some d'.
Proof.
  revert d w. induction lines as [|line lines IH]; intros d w; simpl.
  { intros [= <- _]. eauto. }
  unfold mbind, M_bind.
  destruct (Worker.handle_line env srcfile (Some d) line w) as [[d1|e] w1] eqn:Hl; [|done].
  assert (is_Some d1) as [d2 ->]; [|by apply IH].
  revert Hl. unfold Worker.handle_line.
  destruct (Re.match_ Worker.rename_re line) as [m|]; [|intros [= <- _]; eauto].
  destruct (String.eqb (Re.group m 1) srcfile); [|intros [= <- _]; eauto].
  munfold. simpl.
  destruct (Worker.dedup_enabled env (Re.group m 2)).
  - match goal with
    | |- context [Worker.dedup ?a ?b] => destruct (Worker.dedup a b) as [[u|e] w2]
    end; [|done].
    intros [= <- _]. eauto.
  - intros [= <- _]. eauto.
Qed.

(** C3, as amended: exiftool has exited with status 0, and one line of
    its output is ['<source>' --> '<destination>'] with the source path of
    the invocation and a destination, neither holding a white-space
    character, the destination not empty.  If the lines before it were
    handled without an exception, the line matches [rename_re] with these
    two groups, the destination is captured and the move is logged, and a
    run that returns normally does not log the warning about missing
    rename information. *)
Theorem rename_line_is_captured
    (exiftool : list string → gmap string Node → option (Spawn * gmap string Node))
    (env : Environ) (path : string) (w : World) (p : Spawn) (fs' : gmap string Node)
    (dst : string) (pre post : list string) (d1 : option string) (w1 : World) :
  let srcfile := OsPath.join (Config.UI_SRCDIR env) path in
  let lines := Py.split newline (stdout p) in
  exiftool (Worker.command env path) (fs w) = Some (p, fs') →
  retval p = 0 →
  lines = pre ++ rename_line srcfile dst :: post →
  no_space srcfile = true → no_space dst = true → dst ≠ "" →
  Worker.handle_lines env srcfile None pre (mkWorld fs' (logs w) (cmp_cache w)) = (Ret d1, w1) →
  let out := Worker.process_file exiftool env path w in
  Re.match_ Worker.rename_re (rename_line srcfile dst) = Some [srcfile; dst]
  ∧ Worker.handle_line env srcfile d1 (rename_line srcfile dst) w1
    = ((if Worker.dedup_enabled env dst then Worker.dedup dst
        else mret tt : M World unit) ≫= λ _, mret (Some dst))
        (mkWorld (fs w1) (logs w1 ++ [Moved srcfile dst]) (cmp_cache w1))
  ∧ Moved srcfile dst ∈ logs out.2
  ∧ (out.1 = Ret tt →
       ∃ d w2, Worker.handle_lines env srcfile None lines (mkWorld fs' (logs w) (cmp_cache w))
               = (Ret (Some d), w2)
               ∧ out.2 = w2).
Proof.
  intros srcfile lines Hx Hr Hl Hs Hd Hdn Hpre out.
  pose proof (srcfile_nonempty env path) as Hsn. fold srcfile in Hsn.
  pose proof (handle_line_matched env srcfile dst d1 w1 Hs Hd Hsn Hdn) as Hline.
  split; [by apply match_rename_line|]. split; [done|].
  (* the run, cut at the line *)
  assert (Worker.handle_lines env srcfile None lines (mkWorld fs' (logs w) (cmp_cache w))
          = (Worker.handle_line env srcfile d1 (rename_line srcfile dst)
               ≫= λ d, Worker.handle_lines env srcfile d post) w1) as Hrun.
  { rewrite Hl, handle_lines_app. by rewrite (bind_ret _ _ _ _ _ Hpre). }
  destruct (handle_matched_logs env srcfile dst w1) as [x Hx1]. rewrite <-Hline in Hx1.
  assert (out = match Worker.handle_lines env srcfile None lines
                        (mkWorld fs' (logs w) (cmp_cache w)) with
                | (Ret None, w2) =>
                    (Ret tt, mkWorld (fs w2)
                       (logs w2 ++ [Line "exiftool succeeded, but no file rename information found"])
                       (cmp_cache w2))
                | (Ret (Some _), w2) => (Ret tt, w2)
                | (Raise e, w2) => (Raise e, w2)
                end) as Hout.
  { unfold out. rewrite (process_file_spawned _ _ _ _ _ _ Hx). simpl.
    by destruct (retval p =? 0) eqn:E; [|lia]. }
  assert (∃ y, logs (Worker.handle_lines env srcfile None lines
                       (mkWorld fs' (logs w) (cmp_cache w))).2
               = logs w1 ++ Moved srcfile dst :: y) as [y Hy].
  { rewrite Hrun. unfold mbind, M_bind.
    destruct (Worker.handle_line env srcfile d1 (rename_line srcfile dst) w1)
      as [[d2|e] w2]; simpl in *.
    - destruct (handle_lines_logs env srcfile post d2 w2) as [z Hz].
      exists (x ++ z). by rewrite Hz, Hx1, <-app_assoc.
    - by exists x. }
  assert (∀ d w2, Worker.handle_lines env srcfile None lines (mkWorld fs' (logs w) (cmp_cache w))
                  = (Ret d, w2) → is_Some d) as Hsome.
  { intros d w2. rewrite Hrun. unfold mbind, M_bind. rewrite Hline.
    unfold mbind, M_bind, mret, M_ret.
    destruct (Worker.dedup_enabled env dst).
    - match goal with
      | |- context [Worker.dedup ?a ?b] => destruct (Worker.dedup a b) as [[u|e] w4]
      end; simpl; [|done].
      apply handle_lines_some.
    - simpl. apply handle_lines_some. }
  split.
  - rewrite Hout.
    destruct (Worker.handle_lines env srcfile None lines (mkWorld fs' (logs w) (cmp_cache w)))
      as [[[d|]|e] w2]; simpl in *; rewrite ?Hy.
    all: set_solver.
  - rewrite Hout.
    destruct (Worker.handle_lines env srcfile None lines (mkWorld fs' (logs w) (cmp_cache w)))
      as [[[d|]|e] w2] eqn:E; simpl; intros Hret; try done.
    + eauto.
    + by destruct (Hsome None w2 eq_refl).
Qed.

(** The scenario of the specification: the rename of [IMG_001.JPG]. *)
Lemma rename_line_is_captured_witness :
  let exiftool : list string → gmap string Node → option (Spawn * gmap string Node) :=
    λ _ _, Some (mkSpawn "'/source/IMG_001.JPG' --> '/dest/2024/03/15_120000.jpg'" "" 0,
                 {[ "/dest/2024/03/15_120000.jpg" := Regular "JFIF" 3 ]}) in
  let w := mkWorld {[ "/source/IMG_001.JPG" := Regular "JFIF" 3 ]} [] ∅ in
  no_space "/source/IMG_001.JPG" = true
  ∧ no_space "/dest/2024/03/15_120000.jpg" = true
  ∧ Moved "/source/IMG_001.JPG" "/dest/2024/03/15_120000.jpg"
    ∈ logs (Worker.process_file exiftool ∅ "/source/IMG_001.JPG" w).2.
Proof.
  split; [reflexivity|]. split; [reflexivity|].
  refine (proj1 (proj2 (proj2
    (rename_line_is_captured
       (λ _ _, Some (mkSpawn "'/source/IMG_001.JPG' --> '/dest/2024/03/15_120000.jpg'" "" 0,
                     {[ "/dest/2024/03/15_120000.jpg" := Regular "JFIF" 3 ]}))
       ∅ "/source/IMG_001.JPG"
       (mkWorld {[ "/source/IMG_001.JPG" := Regular "JFIF" 3 ]} [] ∅)
       (mkSpawn "'/source/IMG_001.JPG' --> '/dest/2024/03/15_120000.jpg'" "" 0)
       {[ "/dest/2024/03/15_120000.jpg" := Regular "JFIF" 3 ]}
       "/dest/2024/03/15_120000.jpg" [] [] None
       (mkWorld {[ "/dest/2024/03/15_120000.jpg" := Regular "JFIF" 3 ]} [] ∅)
       eq_refl eq_refl eq_refl eq_refl eq_refl _ eq_refl)))).
  discriminate.
Defined.

(** A file name with a space: exiftool renames the file and reports it in
    the line of the contract, and the Executor learns no destination. *)
Lemma path_with_space_is_not_captured :
  let exiftool : list string → gmap string Node → option (Spawn * gmap string Node) :=
    λ _ _, Some (mkSpawn "'/source/IMG 001.JPG' --> '/dest/2024/03/15_120000.jpg'" "" 0,
                 {[ "/dest/2024/03/15_120000.jpg" := Regular "JFIF" 3 ]}) in
  let w := mkWorld {[ "/source/IMG 001.JPG" := Regular "JFIF" 3 ]} [] ∅ in
  OsPath.join (Config.UI_SRCDIR ∅) "/source/IMG 001.JPG" = "/source/IMG 001.JPG"
  ∧ Py.split newline "'/source/IMG 001.JPG' --> '/dest/2024/03/15_120000.jpg'"
    = [rename_line "/source/IMG 001.JPG" "/dest/2024/03/15_120000.jpg"]
  ∧ Worker.process_file exiftool ∅ "/source/IMG 001.JPG" w
    = (Ret tt,
       mkWorld {[ "/dest/2024/03/15_120000.jpg" := Regular "JFIF" 3 ]}
         [Line "exiftool succeeded, but no file rename information found"] ∅).
Proof. repeat split; by vm_compute. Qed.

(** Why the lines before count: exiftool reports two renames of the same
    source; the first destination is marked and is not on disk while its
    primary is, so the duplicate check raises and the second line is never
    read. *)
Example rename_line_after_an_exception :
  let exiftool : list string → gmap string Node → option (Spawn * gmap string Node) :=
    λ _ _, Some (mkSpawn
                   ("'/source/a.jpg' --> '/dest/2024/03/15_120000-1.jpg'"
                    +:+ String newline "'/source/a.jpg' --> '/dest/2024/03/15_120001.jpg'")
                   "" 0,
                 {[ "/dest/2024/03/15_120000.jpg" := Regular "JFIF" 3 ]}) in
  Worker.process_file exiftool {[ "DELETE_DUPLICATE" := "1" ]} "/source/a.jpg" (mkWorld ∅ [] ∅)
  = (Raise FileNotFoundError,
     mkWorld {[ "/dest/2024/03/15_120000.jpg" := Regular "JFIF" 3 ]}
       [Moved "/source/a.jpg" "/dest/2024/03/15_120000-1.jpg";
        Line "Check if /dest/2024/03/15_120000-1.jpg is a duplicate file of /dest/2024/03/15_120000.jpg"] ∅).
Proof. by vm_compute. Qed.

(** * Further properties of the code *)

(** ** Splitting a path at its extension *)

Lemma contains_app (c : ascii) (s t : string) :
  Py.contains c (s +:+ t) = Py.contains c s || Py.contains c t.
Proof. induction s as [|a s IH]; simpl; [done|]. by rewrite IH, orb_assoc. Qed.

Lemma length_app_str (s t : string) :
  String.length (s +:+ t) = (String.length s + String.length t)%nat.
Proof. induction s as [|a s IH]; simpl; [done|]. by rewrite IH. Qed.

Lemma rfind_from_app (c : ascii) (x t : string) (i last : Z) :
  Py.rfind_from c (x +:+ t) i last
  = Py.rfind_from c t (i + Z.of_nat (String.length x)) (Py.rfind_from c x i last).
Proof.
  revert i last. induction x as [|a x IH]; intros i last; simpl.
  - by rewrite Z.add_0_r.
  - rewrite IH. f_equal. lia.
Qed.

Lemma rfind_from_absent (c : ascii) (t : string) (i last : Z) :
  Py.contains c t = false → Py.rfind_from c t i last = last.
Proof.
  revert i last. induction t as [|a t IH]; intros i last; simpl; [done|].
  intros [Ha Ht]%orb_false_iff. rewrite Ha. by apply IH.
Qed.

Lemma rfind_last_occurrence (c : ascii) (a e : string) :
  Py.contains c e = false →
  Py.rfind c (a +:+ String c e) = Z.of_nat (String.length a).
Proof.
  intros He. unfold Py.rfind. rewrite rfind_from_app. simpl.
  rewrite (proj2 (chr_eqb_eq c c) eq_refl). by rewrite rfind_from_absent.
Qed.

Lemma rfind_app_absent (c : ascii) (x t : string) :
  Py.contains c t = false → Py.rfind c (x +:+ t) = Py.rfind c x.
Proof. intros Ht. unfold Py.rfind. by rewrite rfind_from_app, rfind_from_absent. Qed.

Lemma rfind_lt_length (c : ascii) (x : string) :
  Py.rfind c x < Z.of_nat (String.length x) ∧ -1 ≤ Py.rfind c x.
Proof.
  unfold Py.rfind. destruct (rfind_from_spec c x 0 (-1)) as [H|[H _]]; simpl in *; lia.
Qed.

Lemma slice1_at (x r : string) (c : ascii) :
  Py.slice1 (Z.of_nat (String.length x)) (x +:+ String c r) = String c "".
Proof.
  unfold Py.slice1, Py.from. rewrite Nat2Z.id, drop_app_length. by destruct r.
Qed.

Lemma splitext_scan_found (p : string) (d j : Z) (n : nat) (f : Z) :
  f ≤ j < d → (Z.to_nat (d - f) ≤ n)%nat → Py.slice1 j p ≠ "." →
  OsPath.splitext_scan p f d n = (Py.upto d p, Py.from d p).
Proof.
  revert f. induction n as [|n IH]; intros f Hj Hn Hc; [lia|]. simpl.
  destruct (f <? d) eqn:E; [|lia].
  destruct (String.eqb_spec (Py.slice1 f p) ".") as [Hdot|]; simpl; [|done].
  apply IH; [|lia|done].
  assert (f ≠ j) by (intros ->; done). lia.
Qed.

Lemma splitext_ext (a e : string) :
  has_name a → Py.contains "." e = false → Py.contains "/" e = false →
  OsPath.splitext (a +:+ String "." e) = (a, String "." e).
Proof.
  intros (x & c & y & -> & Hc1 & Hc2 & Hy) He1 He2.
  unfold OsPath.splitext.
  rewrite rfind_last_occurrence by done.
  assert (Py.rfind "/" ((x +:+ String c y) +:+ String "." e) = Py.rfind "/" x) as ->.
  { rewrite app_assoc_str. apply rfind_app_absent. simpl.
    rewrite contains_app. simpl. rewrite Hy, He2.
    apply chr_eqb_neq in Hc2. by rewrite Hc2. }
  destruct (rfind_lt_length "/" x) as [Hlt Hge].
  rewrite length_app_str. simpl String.length.
  destruct (Py.rfind "/" x <? Z.of_nat (String.length x + S (String.length y))) eqn:E.
  2:{ apply Z.ltb_ge in E. lia. }
  rewrite (splitext_scan_found _ _ (Z.of_nat (String.length x))).
  - unfold Py.upto, Py.from. rewrite Nat2Z.id.
    replace (String.length x + S (String.length y))%nat
      with (String.length (x +:+ String c y)) by (rewrite length_app_str; simpl; lia).
    by rewrite take_app_length, drop_app_length.
  - lia.
  - lia.
  - rewrite app_assoc_str.
    change (String c y +:+ String "." e) with (String c (y +:+ String "." e)).
    rewrite slice1_at. by intros [= ->].
Qed.

(** A hidden file: the periods that begin the last component do not start
    an extension. *)
Lemma splitext_hidden (dir e : string) :
  Py.contains "." e = false → Py.contains "/" e = false →
  OsPath.splitext (dir +:+ String "/" (String "." e)) = (dir +:+ String "/" (String "." e), "").
Proof.
  intros He1 He2. unfold OsPath.splitext.
  assert (Py.rfind "." (dir +:+ String "/" (String "." e))
          = Z.of_nat (String.length dir) + 1) as ->.
  { change (dir +:+ String "/" (String "." e)) with (dir +:+ "/" +:+ String "." e).
    rewrite <-app_assoc_str, rfind_last_occurrence by done.
    rewrite length_app_str. simpl. lia. }
  assert (Py.rfind "/" (dir +:+ String "/" (String "." e)) = Z.of_nat (String.length dir)) as ->.
  { apply rfind_last_occurrence. simpl. done. }
  destruct (_ <? _) eqn:E; [|lia].
  by replace (Z.to_nat _) with 0%nat by lia.
Qed.

(** ** Which files the router accepts *)

Lemma contains_lower (c : ascii) (e : string) :
  Py.lower_chr c = c → Py.contains c e = true → Py.contains c (Py.lower e) = true.
Proof.
  intros Hc. induction e as [|a e IH]; simpl; [done|].
  intros [Ha|He]%orb_true_iff.
  - apply chr_eqb_eq in Ha as ->. rewrite Hc.
    by rewrite (proj2 (chr_eqb_eq c c) eq_refl).
  - rewrite IH by done. by rewrite orb_true_r.
Qed.

Lemma accepted_has_no_separator (e : string) :
  Py.lower (String "." e) ∈ ACCEPTED_EXTENSIONS →
  Py.contains "." e = false ∧ Py.contains "/" e = false.
Proof.
  intros Hin.
  assert (Py.contains "." (Py.lower e) = false ∧ Py.contains "/" (Py.lower e) = false) as [H1 H2].
  { change (Py.lower (String "." e)) with (String "." (Py.lower e)) in Hin.
    unfold ACCEPTED_EXTENSIONS in Hin.
    repeat (apply elem_of_cons in Hin as [[= ->]|Hin]; [by split|]).
    by apply elem_of_nil in Hin. }
  split.
  - destruct (Py.contains "." e) eqn:E; [|done].
    apply (contains_lower "." e eq_refl) in E. congruence.
  - destruct (Py.contains "/" e) eqn:E; [|done].
    apply (contains_lower "/" e eq_refl) in E. congruence.
Qed.

(** X1: a path that ends in a period and an accepted extension, in any
    mix of upper and lower case, after a last component that has a
    character other than periods, is a relevant file. *)
Theorem accepted_extension_is_relevant (a e : string) :
  has_name a →
  Py.lower (String "." e) ∈ ACCEPTED_EXTENSIONS →
  EventHandler.is_relevant_file (a +:+ String "." e) = true.
Proof.
  intros Ha Hin. destruct (accepted_has_no_separator e Hin) as [H1 H2].
  apply is_relevant_file_spec. by rewrite splitext_ext.
Qed.

Lemma accepted_extension_is_relevant_witness :
  has_name "/source/IMG_001"
  ∧ Py.lower ".JpG" ∈ ACCEPTED_EXTENSIONS
  ∧ EventHandler.is_relevant_file "/source/IMG_001.JpG" = true.
Proof.
  assert (has_name "/source/IMG_001") as Hn.
  { exists "/source/", "I"%char, "MG_001". repeat split; done. }
  assert (Py.lower ".JpG" ∈ ACCEPTED_EXTENSIONS) as Hin.
  { apply (bool_decide_unpack _). by vm_compute. }
  split; [exact Hn|]. split; [exact Hin|].
  exact (accepted_extension_is_relevant "/source/IMG_001" "JpG" Hn Hin).
Defined.

(** X2: a hidden file whose name is a period and then an extension, such
    as [.jpg], has no extension for [splitext] and is not a relevant file,
    whatever follows the period. *)
Theorem hidden_file_is_not_relevant (dir e : string) :
  Py.contains "." e = false → Py.contains "/" e = false →
  EventHandler.is_relevant_file (dir +:+ String "/" (String "." e)) = false.
Proof.
  intros H1 H2. destruct (EventHandler.is_relevant_file _) eqn:E; [|done].
  apply is_relevant_file_spec in E. rewrite splitext_hidden in E by done.
  simpl in E. unfold ACCEPTED_EXTENSIONS in E.
  repeat (apply elem_of_cons in E as [[=]|E]).
  by apply elem_of_nil in E.
Qed.

Lemma hidden_file_is_not_relevant_witness :
  Py.contains "." "jpg" = false ∧ Py.contains "/" "jpg" = false
  ∧ EventHandler.is_relevant_file "/source/.jpg" = false.
Proof.
  split; [reflexivity|]. split; [reflexivity|].
  exact (hidden_file_is_not_relevant "/source" "jpg" eq_refl eq_refl).
Defined.

(** ** The primary candidate of a marked destination *)

Lemma before_app (c : ascii) (stem rest : string) :
  Py.contains c stem = false → before c (stem +:+ String c rest) = stem.
Proof.
  induction stem as [|a stem IH]; simpl.
  - by rewrite (proj2 (chr_eqb_eq c c) eq_refl).
  - intros [Ha Hs]%orb_false_iff. rewrite Ha. f_equal. auto.
Qed.

(** X3: for a destination [stem-suffix.ext], where the stem has no marker,
    the suffix no slash and the extension neither a period nor a slash,
    the primary candidate is [stem.ext]: the marker and all of the suffix
    are dropped, whatever the suffix holds (further markers, periods). *)
Theorem dupfile_of_marked (stem suffix e : string) :
  Py.contains "-" stem = false → Py.contains "/" suffix = false →
  Py.contains "." e = false → Py.contains "/" e = false →
  Worker.dupfile_of (stem +:+ String "-" suffix +:+ String "." e)
  = Ret (stem +:+ String "." e).
Proof.
  intros Hs Hx He1 He2. rewrite dupfile_of_eq.
  change (stem +:+ String "-" suffix +:+ String "." e)
    with (stem +:+ String "-" (suffix +:+ String "." e)).
  rewrite before_app by done.
  change (stem +:+ String "-" (suffix +:+ String "." e))
    with (stem +:+ (String "-" suffix) +:+ String "." e).
  rewrite <-app_assoc_str, splitext_ext; [done| |done|done].
  by exists stem, "-"%char, suffix.
Qed.

Lemma dupfile_of_marked_witness :
  Py.contains "-" "/dest/2024/03/20240315_120000" = false
  ∧ Worker.dupfile_of "/dest/2024/03/20240315_120000-2.v1-b.jpg"
    = Ret "/dest/2024/03/20240315_120000.jpg".
Proof.
  split; [reflexivity|].
  exact (dupfile_of_marked "/dest/2024/03/20240315_120000" "2.v1-b" "jpg"
           eq_refl eq_refl eq_refl eq_refl).
Defined.

(** ** What the Executor does to the files *)

Lemma dedup_fs (dstfile : string) (w : World) (q : string) :
  fs (Worker.dedup dstfile w).2 !! q = fs w !! q
  ∨ (q = dstfile ∧ fs (Worker.dedup dstfile w).2 !! q = None).
Proof.
  destruct (dedup_fs_cases dstfile w) as [-> | ->]; [by left|].
  destruct (decide (q = dstfile)) as [->|Hne].
  - right. by rewrite lookup_delete_eq.
  - left. by rewrite lookup_delete_ne.
Qed.

Lemma handle_line_fs (env : Environ) (srcfile : string) (d : option string)
    (line : string) (w : World) (q : string) :
  fs (Worker.handle_line env srcfile d line w).2 !! q = fs w !! q
  ∨ (fs (Worker.handle_line env srcfile d line w).2 !! q = None
     ∧ reported env srcfile [line] q).
Proof.
  unfold Worker.handle_line.
  destruct (Re.match_ Worker.rename_re line) as [m|] eqn:Hm; [|by left].
  destruct (String.eqb_spec (Re.group m 1) srcfile) as [Hg|]; [|by left].
  destruct (Worker.dedup_enabled env (Re.group m 2)) eqn:Hen; [|by left].
  unfold mbind, M_bind, log_entry, modify, mret, M_ret.
  destruct (dedup_fs (Re.group m 2)
              (mkWorld (fs w) (logs w ++ [Moved srcfile (Re.group m 2)]) (cmp_cache w)) q)
    as [H|[-> H]].
  - left. by destruct (Worker.dedup _ _) as [[u|e] w2].
  - right. split; [by destruct (Worker.dedup _ _) as [[u|e] w2]|].
    exists line, m. split; [by left|done].
Qed.

Lemma reported_mono (env : Environ) (srcfile : string) (l1 l2 : list string) (q : string) :
  l1 ⊆ l2 → reported env srcfile l1 q → reported env srcfile l2 q.
Proof. intros Hsub (line & m & Hin & H). exists line, m. split; [by apply Hsub|done]. Qed.

Lemma handle_lines_fs (env : Environ) (srcfile : string) (lines : list string)
    (d : option string) (w : World) (q : string) :
  fs (Worker.handle_lines env srcfile d lines w).2 !! q = fs w !! q
  ∨ (fs (Worker.handle_lines env srcfile d lines w).2 !! q = None
     ∧ reported env srcfile lines q).
Proof.
  revert d w. induction lines as [|line lines IH]; intros d w; simpl; [by left|].
  unfold mbind, M_bind.
  destruct (handle_line_fs env srcfile d line w q) as [H1|[H1 R1]];
    destruct (Worker.handle_line env srcfile d line w) as [[d1|e] w1]; simpl in *.
  - destruct (IH d1 w1) as [H2|[H2 R2]].
    + left. congruence.
    + right. split; [done|]. eapply reported_mono; [|done]. intros x Hx. by right.
  - by left.
  - destruct (IH d1 w1) as [H2|[H2 R2]].
    + right. split; [congruence|]. eapply reported_mono; [|done].
      intros x ->%list_elem_of_singleton. by left.
    + right. split; [done|]. eapply reported_mono; [|exact R2]. intros x Hx. by right.
  - right. split; [done|]. eapply reported_mono; [|done].
    intros x ->%list_elem_of_singleton. by left.
Qed.

(** X4: whatever exiftool prints, [process_file] creates no file and
    changes none: after it, every path holds what exiftool left there, or
    nothing; and a path is emptied only if it contains the marker [-], the
    destination format is the default, duplicate deletion is enabled and a
    line of the output reports it as the destination of this very
    source. *)
Theorem process_file_only_removes_reported
    (exiftool : list string → gmap string Node → option (Spawn * gmap string Node))
    (env : Environ) (path : string) (w : World) (p : Spawn) (fs' : gmap string Node)
    (q : string) :
  exiftool (Worker.command env path) (fs w) = Some (p, fs') →
  let out := Worker.process_file exiftool env path w in
  fs out.2 !! q = fs' !! q
  ∨ (fs out.2 !! q = None
     ∧ Py.contains "-" q = true
     ∧ Config.UI_DSTFMT env = Config.DEFAULT_DSTFMT
     ∧ Py.truthy (Config.UI_DELETE_DUPS env) = true
     ∧ reported env (OsPath.join (Config.UI_SRCDIR env) path)
         (Py.split newline (stdout p)) q).
Proof.
  intros Hx out. unfold out. rewrite (process_file_spawned _ _ _ _ _ _ Hx). simpl.
  destruct (negb (retval p =? 0)); [by left|].
  destruct (handle_lines_fs env (OsPath.join (Config.UI_SRCDIR env) path)
              (Py.split newline (stdout p)) None (mkWorld fs' (logs w) (cmp_cache w)) q)
    as [H|[H R]].
  - left. by destruct (Worker.handle_lines _ _ _ _ _) as [[[d|]|e] w2].
  - right. split; [by destruct (Worker.handle_lines _ _ _ _ _) as [[[d|]|e] w2]|].
    destruct R as (line & m & Hin & Hm & Hg1 & Hg2 & Hen).
    pose proof Hen as Hen'. unfold Worker.dedup_enabled in Hen'.
    apply andb_true_iff in Hen' as [[Hf Ht]%andb_true_iff Hc].
    apply String.eqb_eq in Hf.
    split; [done|]. split; [done|]. split; [done|]. by exists line, m.
Qed.

(** exiftool moves the source to a marked name next to an identical
    primary; the marked file is removed, the primary and a bystander are
    as exiftool left them. *)
Lemma process_file_only_removes_reported_witness :
  let after : gmap string Node :=
    {[ "/dest/2024/03/15_120000-1.jpg" := Regular "JFIF" 7;
       "/dest/2024/03/15_120000.jpg" := Regular "JFIF" 3;
       "/dest/2024/03/15_110000-1.jpg" := Regular "JFIF" 5 ]} in
  let exiftool : list string → gmap string Node → option (Spawn * gmap string Node) :=
    λ _ _, Some (mkSpawn "'/source/a.jpg' --> '/dest/2024/03/15_120000-1.jpg'" "" 0, after) in
  let out := Worker.process_file exiftool {[ "DELETE_DUPLICATE" := "1" ]} "/source/a.jpg"
               (mkWorld {[ "/source/a.jpg" := Regular "JFIF" 7 ]} [] ∅) in
  fs out.2 !! "/dest/2024/03/15_120000-1.jpg" = None
  ∧ (fs out.2 !! "/dest/2024/03/15_110000-1.jpg" = after !! "/dest/2024/03/15_110000-1.jpg"
     ∨ fs out.2 !! "/dest/2024/03/15_110000-1.jpg" = None
       ∧ Py.contains "-" "/dest/2024/03/15_110000-1.jpg" = true
       ∧ Config.UI_DSTFMT {[ "DELETE_DUPLICATE" := "1" ]} = Config.DEFAULT_DSTFMT
       ∧ Py.truthy (Config.UI_DELETE_DUPS {[ "DELETE_DUPLICATE" := "1" ]}) = true
       ∧ reported {[ "DELETE_DUPLICATE" := "1" ]}
           (OsPath.join (Config.UI_SRCDIR {[ "DELETE_DUPLICATE" := "1" ]}) "/source/a.jpg")
           (Py.split newline "'/source/a.jpg' --> '/dest/2024/03/15_120000-1.jpg'")
           "/dest/2024/03/15_110000-1.jpg").
Proof.
  split; [by vm_compute|].
  exact (process_file_only_removes_reported
           (λ _ _, Some (mkSpawn "'/source/a.jpg' --> '/dest/2024/03/15_120000-1.jpg'" "" 0,
                         {[ "/dest/2024/03/15_120000-1.jpg" := Regular "JFIF" 7;
                            "/dest/2024/03/15_120000.jpg" := Regular "JFIF" 3;
                            "/dest/2024/03/15_110000-1.jpg" := Regular "JFIF" 5 ]}))
           {[ "DELETE_DUPLICATE" := "1" ]} "/source/a.jpg"
           (mkWorld {[ "/source/a.jpg" := Regular "JFIF" 7 ]} [] ∅)
           (mkSpawn "'/source/a.jpg' --> '/dest/2024/03/15_120000-1.jpg'" "" 0)
           {[ "/dest/2024/03/15_120000-1.jpg" := Regular "JFIF" 7;
              "/dest/2024/03/15_120000.jpg" := Regular "JFIF" 3;
              "/dest/2024/03/15_110000-1.jpg" := Regular "JFIF" 5 ]}
           "/dest/2024/03/15_110000-1.jpg" eq_refl).
Defined.

(** ** A Worker without exiftool *)

Lemma process_file_no_spawn
    (exiftool : list string → gmap string Node → option (Spawn * gmap string Node))
    (env : Environ) (path : string) (w : World) :
  exiftool (Worker.command env path) (fs w) = None →
  Worker.process_file exiftool env path w = (Raise OSError, w).
Proof.
  intros Hx. unfold Worker.process_file, Worker.spawn.
  unfold mbind at 1. unfold M_bind at 1. by rewrite Hx.
Qed.

(** X5: when the subprocess cannot be started (exiftool is missing, say),
    every item raises and changes nothing on disk; the Worker logs a
    traceback for each of the first five items and then leaves its loop
    for good: the items after the fifth stay in the queue. *)
Theorem worker_exits_without_exiftool
    (exiftool : list string → gmap string Node → option (Spawn * gmap string Node))
    (env : Environ) (workq : list string) (w : World) :
  (∀ cmd fs, exiftool cmd fs = None) →
  (5 ≤ length workq)%nat →
  WorkerThread.run exiftool env workq w
  = Thread.mkStop Thread.Exited (drop 5 workq)
      (mkWorld (fs w)
         (logs w ++ replicate 5 (Traceback OSError)
                 ++ [Line "Too many errors, Worker thread exiting"]) (cmp_cache w)).
Proof.
  intros Hx Hlen.
  destruct workq as [|p1 [|p2 [|p3 [|p4 [|p5 rest]]]]]; simpl in Hlen; try lia.
  unfold WorkerThread.run, Thread.run.
  assert (∀ path w0, Worker.process_file exiftool env path w0 = (Raise OSError, w0)) as Hp.
  { intros path w0. apply process_file_no_spawn, Hx. }
  rewrite (run_from_raise _ _ _ 0 _ _ _ _ _ eq_refl (Hp _ _)).
  rewrite (run_from_raise _ _ _ (0 + 1) _ _ _ _ _ eq_refl (Hp _ _)).
  rewrite (run_from_raise _ _ _ (0 + 1 + 1) _ _ _ _ _ eq_refl (Hp _ _)).
  rewrite (run_from_raise _ _ _ (0 + 1 + 1 + 1) _ _ _ _ _ eq_refl (Hp _ _)).
  rewrite (run_from_raise _ _ _ (0 + 1 + 1 + 1 + 1) _ _ _ _ _ eq_refl (Hp _ _)).
  rewrite run_from_limit by lia. simpl. unfold log_entry, modify. simpl.
  by rewrite <-!app_assoc.
Qed.

Lemma worker_exits_without_exiftool_witness :
  (5 ≤ length ["a.jpg"; "b.jpg"; "c.jpg"; "d.jpg"; "e.jpg"; "f.jpg"])%nat
  ∧ Thread.unconsumed
      (WorkerThread.run (λ _ _, None) ∅
         ["a.jpg"; "b.jpg"; "c.jpg"; "d.jpg"; "e.jpg"; "f.jpg"] (mkWorld ∅ [] ∅))
    = ["f.jpg"].
Proof.
  split; [simpl; lia|].
  rewrite (worker_exits_without_exiftool (λ _ _, None) ∅
             ["a.jpg"; "b.jpg"; "c.jpg"; "d.jpg"; "e.jpg"; "f.jpg"] (mkWorld ∅ [] ∅)
             (λ _ _, eq_refl) ltac:(simpl; lia)).
  reflexivity.
Defined.

(** ** What [rename_re] matches *)

Lemma no_space_all_cls (s : string) : no_space s = all_cls Re.NonSpace s.
Proof. induction s as [|a s IH]; simpl; [done|]. by rewrite IH. Qed.

Lemma backtrack_some {X} (f : nat → option X) (n : nat) (x : X) :
  Re.backtrack f n = Some x → ∃ k, (1 ≤ k ≤ n)%nat ∧ f k = Some x.
Proof.
  induction n as [|n IH]; simpl; [done|].
  destruct (f (S n)) as [y|] eqn:E.
  - intros [= ->]. exists (S n). split; [lia|done].
  - intros (k & Hk & Hf)%IH. exists k. split; [lia|done].
Qed.

Lemma take_span (c : Re.cls) (k : nat) (s : string) :
  (1 ≤ k ≤ Re.span c s)%nat →
  all_cls c (Py.take k s) = true ∧ Py.take k s ≠ "".
Proof.
  revert s. induction k as [|k IH]; intros s Hk; [lia|].
  destruct s as [|a s]; simpl in *; [lia|].
  destruct (Re.cls_match c a) eqn:Ha; [|lia]. split; [|done].
  destruct k as [|k']; [by destruct s|].
  apply IH. lia.
Qed.

Lemma match_chr_inv (a : ascii) (r : list Re.item) (s : string) (caps : list string) :
  Re.match_here (Re.Chr a :: r) s = Some caps →
  ∃ s', s = String a s' ∧ Re.match_here r s' = Some caps.
Proof.
  cbn [Re.match_here]. destruct s as [|b s]; [done|].
  destruct (Py.chr_eqb a b) eqn:E; [|done].
  apply chr_eqb_eq in E as ->. eauto.
Qed.

Lemma match_plus_inv (c : Re.cls) (r : list Re.item) (s : string) (caps : list string) :
  Re.match_here (Re.Plus c :: r) s = Some caps →
  ∃ u s', s = u +:+ s' ∧ all_cls c u = true ∧ u ≠ ""
          ∧ Re.match_here r s' = Some caps.
Proof.
  cbn [Re.match_here]. intros (k & Hk & Hf)%backtrack_some.
  exists (Py.take k s), (Py.drop k s).
  split; [by rewrite take_drop|]. destruct (take_span c k s Hk). done.
Qed.

Lemma match_group_inv (c : Re.cls) (r : list Re.item) (s : string) (caps : list string) :
  Re.match_here (Re.Group c :: r) s = Some caps →
  ∃ u s' caps', s = u +:+ s' ∧ all_cls c u = true ∧ u ≠ ""
                ∧ Re.match_here r s' = Some caps' ∧ caps = u :: caps'.
Proof.
  cbn [Re.match_here]. intros (k & Hk & Hf)%backtrack_some.
  destruct (Re.match_here r (Py.drop k s)) as [caps'|] eqn:E; [|done].
  injection Hf as <-.
  exists (Py.take k s), (Py.drop k s), caps'.
  split; [by rewrite take_drop|]. destruct (take_span c k s Hk). done.
Qed.

(** X6: a line that [rename_re] matches has the shape
    ['g1' ws1 --> ws2 'g2' tail]: it begins with the quote (the match is
    anchored at the start of the line), the two groups are what is
    captured, they are not empty and hold no white space, and [ws1] and
    [ws2] are non-empty runs of white space. *)
Theorem rename_re_match_shape (line : string) (m : list string) :
  Re.match_ Worker.rename_re line = Some m →
  ∃ g1 ws1 ws2 g2 tail,
    m = [g1; g2]
    ∧ line = "'" +:+ g1 +:+ "'" +:+ ws1 +:+ "-->" +:+ ws2 +:+ "'" +:+ g2 +:+ "'" +:+ tail
    ∧ no_space g1 = true ∧ g1 ≠ "" ∧ no_space g2 = true ∧ g2 ≠ ""
    ∧ all_cls Re.Space ws1 = true ∧ ws1 ≠ ""
    ∧ all_cls Re.Space ws2 = true ∧ ws2 ≠ "".
Proof.
  unfold Re.match_, Worker.rename_re. intros H.
  apply match_chr_inv in H as (s1 & -> & H).
  apply match_group_inv in H as (g1 & s2 & c1 & -> & Hg1 & Hn1 & H & ->).
  apply match_chr_inv in H as (s3 & -> & H).
  apply match_plus_inv in H as (ws1 & s4 & -> & Hw1 & Hwn1 & H).
  apply match_chr_inv in H as (s5 & -> & H).
  apply match_chr_inv in H as (s6 & -> & H).
  apply match_chr_inv in H as (s7 & -> & H).
  apply match_plus_inv in H as (ws2 & s8 & -> & Hw2 & Hwn2 & H).
  apply match_chr_inv in H as (s9 & -> & H).
  apply match_group_inv in H as (g2 & s10 & c2 & -> & Hg2 & Hn2 & H & ->).
  apply match_chr_inv in H as (tail & -> & H).
  cbn [Re.match_here] in H. injection H as <-.
  exists g1, ws1, ws2, g2, tail.
  rewrite !no_space_all_cls. repeat split; done.
Qed.

Lemma rename_re_match_shape_witness :
  ∃ g1 ws1 ws2 g2 tail,
    ["/source/a.jpg"; "/dest/b.jpg"] = [g1; g2]
    ∧ "'/source/a.jpg' -->  '/dest/b.jpg' (1 image file updated)"
      = "'" +:+ g1 +:+ "'" +:+ ws1 +:+ "-->" +:+ ws2 +:+ "'" +:+ g2 +:+ "'" +:+ tail
    ∧ no_space g1 = true ∧ g1 ≠ "" ∧ no_space g2 = true ∧ g2 ≠ ""
    ∧ all_cls Re.Space ws1 = true ∧ ws1 ≠ ""
    ∧ all_cls Re.Space ws2 = true ∧ ws2 ≠ "".
Proof.
  exact (rename_re_match_shape
           "'/source/a.jpg' -->  '/dest/b.jpg' (1 image file updated)"
           ["/source/a.jpg"; "/dest/b.jpg"] eq_refl).
Defined.

Lemma span_app_all (c : Re.cls) (u t : string) :
  all_cls c u = true → Re.span c (u +:+ t) = (String.length u + Re.span c t)%nat.
Proof.
  induction u as [|a u IH]; simpl; [done|].
  intros [Ha Hu]%andb_true_iff. rewrite Ha. f_equal. auto.
Qed.

(** A run of the class before a character outside of it: the first try of
    the greedy match, the whole run, succeeds. *)
Lemma match_plus_run (c : Re.cls) (r : list Re.item) (u t : string) (caps : list string) :
  all_cls c u = true → u ≠ "" → Re.span c t = 0%nat →
  Re.match_here r t = Some caps →
  Re.match_here (Re.Plus c :: r) (u +:+ t) = Some caps.
Proof.
  intros Hu Hne Ht Hr. cbn [Re.match_here].
  rewrite span_app_all, Ht, Nat.add_0_r by done.
  destruct u as [|a u]; [done|]. cbn [String.length Re.backtrack].
  change (S (String.length u)) with (String.length (String a u)).
  by rewrite drop_app_length, Hr.
Qed.

Lemma all_space_starts (ws t : string) :
  all_cls Re.Space ws = true → ws ≠ "" → Re.span Re.NonSpace (ws +:+ t) = 0%nat.
Proof.
  destruct ws as [|a ws]; [done|]. simpl. intros [Ha _]%andb_true_iff _.
  by rewrite Ha.
Qed.

(** X7: [rename_re] takes any non-empty runs of white space around the
    arrow, tabs included, and ignores what follows the closing quote after
    white space: such a line matches with the two paths as its groups,
    whenever the paths are non-empty and free of white space. *)
Theorem rename_re_matches_spaced_line (src dst ws1 ws2 tail : string) :
  no_space src = true → src ≠ "" → no_space dst = true → dst ≠ "" →
  all_cls Re.Space ws1 = true → ws1 ≠ "" →
  all_cls Re.Space ws2 = true → ws2 ≠ "" →
  Re.span Re.NonSpace tail = 0%nat →
  Re.match_ Worker.rename_re
    ("'" +:+ src +:+ "'" +:+ ws1 +:+ "-->" +:+ ws2 +:+ "'" +:+ dst +:+ "'" +:+ tail)
  = Some [src; dst].
Proof.
  intros Hs Hsn Hd Hdn Hw1 Hwn1 Hw2 Hwn2 Ht.
  unfold Re.match_, Worker.rename_re.
  change ("'" +:+ src +:+ "'" +:+ ws1 +:+ "-->" +:+ ws2 +:+ "'" +:+ dst +:+ "'" +:+ tail)
    with (String "'" (src +:+ String "'" (ws1 +:+ String "-" (String "-" (String ">"
            (ws2 +:+ String "'" (dst +:+ String "'" tail))))))).
  rewrite match_chr.
  apply match_group_quote; [done|done|by apply all_space_starts|].
  apply match_plus_run; [done|done|reflexivity|].
  rewrite !match_chr.
  apply match_plus_run; [done|done|reflexivity|].
  rewrite match_chr.
  by apply match_group_quote.
Qed.

Lemma rename_re_matches_spaced_line_witness :
  all_cls Re.Space (String "009" " ") = true
  ∧ Re.span Re.NonSpace " (renamed)" = 0%nat
  ∧ Re.match_ Worker.rename_re
      ("'" +:+ "/source/a.jpg" +:+ "'" +:+ String "009" " " +:+ "-->" +:+ "  "
       +:+ "'" +:+ "/dest/b.jpg" +:+ "'" +:+ " (renamed)")
    = Some ["/source/a.jpg"; "/dest/b.jpg"].
Proof.
  split; [reflexivity|]. split; [reflexivity|].
  refine (rename_re_matches_spaced_line "/source/a.jpg" "/dest/b.jpg"
            (String "009" " ") "  " " (renamed)"
            eq_refl _ eq_refl _ eq_refl _ eq_refl _ eq_refl); discriminate.
Defined.

(** ** A thread that has exited *)

Lemma run_from_exited_app {W I} (role : string) (pf : I → M W unit)
    (lg : LogMsg → M W unit) (queue more : list I) (n : Z) (w : W) :
  Thread.ending (Thread.run_from role pf lg n queue w) = Thread.Exited →
  Thread.run_from role pf lg n (queue ++ more) w
  = Thread.mkStop Thread.Exited
      (Thread.unconsumed (Thread.run_from role pf lg n queue w) ++ more)
      (Thread.final (Thread.run_from role pf lg n queue w)).
Proof.
  revert n w. induction queue as [|path rest IH]; intros n w; simpl.
  - destruct (n <? 5) eqn:E; simpl; [done|]. intros _.
    destruct more; simpl; by rewrite E.
  - destruct (n <? 5) eqn:E; simpl; [|done].
    destruct (pf path w) as [[u|e] w1]; apply IH.
Qed.

(** X8: the exit of a thread is final: once the loop has been left on a
    queue, whatever is put on the queue later is never consumed, and the
    state the thread left behind stays as it is. *)
Theorem exited_thread_consumes_nothing {W I : Type}
    (role : string) (process_file : I → M W unit) (write_log : LogMsg → M W unit)
    (queue more : list I) (w : W) :
  Thread.ending (Thread.run role process_file write_log queue w) = Thread.Exited →
  Thread.run role process_file write_log (queue ++ more) w
  = Thread.mkStop Thread.Exited
      (Thread.unconsumed (Thread.run role process_file write_log queue w) ++ more)
      (Thread.final (Thread.run role process_file write_log queue w)).
Proof. apply run_from_exited_app. Qed.

Lemma exited_thread_consumes_nothing_witness :
  let stop := WorkerThread.run (λ _ _, None) ∅
                ["a.jpg"; "b.jpg"; "c.jpg"; "d.jpg"; "e.jpg"] (mkWorld ∅ [] ∅) in
  Thread.ending stop = Thread.Exited
  ∧ WorkerThread.run (λ _ _, None) ∅
      (["a.jpg"; "b.jpg"; "c.jpg"; "d.jpg"; "e.jpg"] ++ ["f.jpg"; "g.jpg"]) (mkWorld ∅ [] ∅)
    = Thread.mkStop Thread.Exited (Thread.unconsumed stop ++ ["f.jpg"; "g.jpg"])
        (Thread.final stop).
Proof.
  split; [reflexivity|].
  exact (exited_thread_consumes_nothing "Worker" (Worker.process_file (λ _ _, None) ∅)
           log_entry ["a.jpg"; "b.jpg"; "c.jpg"; "d.jpg"; "e.jpg"] ["f.jpg"; "g.jpg"]
           (mkWorld ∅ [] ∅) eq_refl).
Defined.

(** ** The detector at work *)

(** A sweep in a state that keeps the invariant. *)
Lemma sweep_result (now : Q) (st : Watcher.State) :
  Detector.inv st →
  let st' := rearm (swept now st) in
  Watcher.check_actives now st = (Ret tt, st')
  ∧ Detector.inv st'
  ∧ Watcher.world st' = Watcher.world st
  ∧ Watcher.workq st' = Watcher.workq st ++ stale_keys now (Watcher.active st)
  ∧ Watcher.active st' = fresh_items now (Watcher.active st)
  ∧ (Watcher.active st' ≠ [] →
       Detector.pending st' = [length (Watcher.timers st)]
       ∧ Watcher.timer st' = Some (length (Watcher.timers st))
       ∧ Watcher.timers st' !! length (Watcher.timers st)
         = Some (Watcher.mkTimer 5 Watcher.Pending))
  ∧ (Watcher.active st' = [] → Detector.pending st' = Detector.pending st).
Proof.
  intros Hinv st'.
  destruct (check_actives_inv now st Hinv) as [Hc Hi].
  destruct (rearm_keeps (swept now st)) as (Ha & Hq & Hw).
  destruct (rearm_spec (swept now st) (swept_inv now st Hinv)) as (_ & Hne & He).
  split; [done|]. split; [done|]. split; [done|]. split; [done|]. split; [done|].
  split.
  - intros H. unfold st' in H. rewrite Ha in H.
    destruct (Hne H) as (H1 & H2 & _ & H4 & _). done.
  - intros H. unfold st' in H |- *. rewrite Ha in H. by rewrite (He H).
Qed.

Lemma watcher_item_ok (path : string) (t_set t_sweep : Q) (st : Watcher.State) :
  Detector.inv st →
  ∃ st', Watcher.process_file path t_set t_sweep st = (Ret tt, st')
         ∧ Detector.inv st' ∧ Watcher.world st' = Watcher.world st.
Proof.
  intros Hinv.
  destruct (watcher_process_file_cases path t_set t_sweep st) as [Hz Hnz].
  destruct (Z_le_gt_dec
              (match fs (Watcher.world st) !! path with
               | Some nd => st_size nd
               | None => 0
               end) 0) as [Hs|Hs].
  - exists st. by rewrite (Hz Hs).
  - rewrite Hnz by lia.
    assert (Detector.inv (Watcher.set_active
                            (Dict.set path t_set (Watcher.active st)) st)) as Hi.
    { destruct Hinv as [Hwf Hp]. split; [by apply dict_set_wf|done]. }
    destruct (sweep_result t_sweep _ Hi) as (Hc & Hi' & Hw & _).
    eexists. split; [exact Hc|]. split; [done|]. by rewrite Hw.
Qed.

(** X9: as long as its sweeps are not interleaved with those of a timer
    thread, the Watcher never raises: from a state that keeps the
    invariant (the start state does) it consumes its whole queue, its error
    counter stays at 0, and it neither logs nor touches the files. *)
Theorem watcher_consumes_its_queue (watchq : list (string * Q * Q)) (st : Watcher.State) :
  Detector.inv st →
  let stop := Watcher.run watchq st in
  Thread.ending stop = Thread.Blocked 0
  ∧ Thread.unconsumed stop = []
  ∧ Detector.inv (Thread.final stop)
  ∧ Watcher.world (Thread.final stop) = Watcher.world st.
Proof.
  unfold Watcher.run, Thread.run. revert st.
  induction watchq as [|[[path t_set] t_sweep] rest IH]; intros st Hinv.
  - simpl. done.
  - destruct (watcher_item_ok path t_set t_sweep st Hinv) as (st' & Hp & Hi & Hw).
    cbv zeta.
    rewrite (run_from_ret _ _ _ 0 (path, t_set, t_sweep) rest st st' tt); [|lia|done].
    rewrite <-Hw. by apply IH.
Qed.

Lemma watcher_consumes_its_queue_witness :
  let w := mkWorld {[ "/source/a.jpg" := Regular "JFIF" 0 ]} [] ∅ in
  let stop := Watcher.run [("/source/a.jpg", 0%Q, 0%Q); ("/source/b.jpg", 1%Q, 1%Q);
                           ("/source/a.jpg", 40%Q, 40%Q)]
                (Detector.start w []) in
  Thread.ending stop = Thread.Blocked 0
  ∧ Thread.unconsumed stop = []
  ∧ Detector.inv (Thread.final stop)
  ∧ Watcher.world (Thread.final stop) = w.
Proof.
  exact (watcher_consumes_its_queue
           [("/source/a.jpg", 0%Q, 0%Q); ("/source/b.jpg", 1%Q, 1%Q);
            ("/source/a.jpg", 40%Q, 40%Q)]
           (Detector.start (mkWorld {[ "/source/a.jpg" := Regular "JFIF" 0 ]} [] ∅) [])
           (start_inv _ _)).
Defined.

Lemma sweep_armed (now : Q) (st : Watcher.State) :
  Detector.inv st → armed (rearm (swept now st)).
Proof.
  intros Hinv Hne. destruct (sweep_result now st Hinv) as (_ & _ & _ & _ & _ & H & _).
  destruct (H Hne) as (H1 & H2 & H3). eauto.
Qed.

Lemma step_armed (st : Watcher.State) (ev : Detector.Event) :
  Detector.inv st → armed st → armed (Detector.step st ev).
Proof.
  intros Hinv Harm. destruct ev as [path t_set t_sweep|id now|fs']; simpl.
  - destruct (watcher_process_file_cases path t_set t_sweep st) as [Hz Hnz].
    destruct (Z_le_gt_dec
                (match fs (Watcher.world st) !! path with
                 | Some nd => st_size nd
                 | None => 0
                 end) 0) as [Hs|Hs].
    + by rewrite (Hz Hs).
    + rewrite Hnz by lia.
      assert (Detector.inv (Watcher.set_active
                              (Dict.set path t_set (Watcher.active st)) st)) as Hi.
      { destruct Hinv as [Hwf Hp]. split; [by apply dict_set_wf|done]. }
      destruct (check_actives_inv t_sweep _ Hi) as [-> _]. by apply sweep_armed.
  - unfold Watcher.timer_fires.
    destruct (Watcher.timers st !! id) as [[i s]|] eqn:Hid; [|done].
    destruct s; try done.
    assert (Detector.inv (Watcher.set_timers
                            (<[id:=Watcher.mkTimer i Watcher.Fired]> (Watcher.timers st)) st))
      as Hi.
    { destruct Hinv as [Hwf Hp]. split; [done|].
      intros x Hx. apply Hp.
      apply elem_of_pending_from in Hx as (k & t & Hk & Hl & Hpt).
      simpl in Hk, Hl. subst k.
      destruct (decide (x = id)) as [->|Hne].
      - rewrite list_lookup_insert_eq in Hl by (by eapply lookup_lt_Some).
        by injection Hl as <-.
      - rewrite list_lookup_insert_ne in Hl by done.
        apply elem_of_pending_from. by exists x, t. }
    destruct (check_actives_inv now _ Hi) as [-> _]. by apply sweep_armed.
  - exact Harm.
Qed.

(** X10: in every state the detector reaches (each sweep being one step),
    a path in the active set is never left without a re-check: whenever the
    active set is not empty, exactly one timer is pending, and it is the
    one [self.timer] names. *)
Theorem active_paths_have_a_pending_timer
    (evs : list Detector.Event) (w : World) (workq : list string) :
  let st := Detector.run evs (Detector.start w workq) in
  Watcher.active st ≠ [] →
  ∃ id i, Detector.pending st = [id] ∧ Watcher.timer st = Some id
          ∧ Watcher.timers st !! id = Some (Watcher.mkTimer i Watcher.Pending).
Proof.
  cbv zeta. change (armed (Detector.run evs (Detector.start w workq))).
  assert (∀ st, Detector.inv st → armed st → armed (Detector.run evs st)) as H.
  { unfold Detector.run. induction evs as [|ev evs IH]; intros st Hi Ha; simpl; [done|].
    apply IH; [by apply step_inv|by apply step_armed]. }
  apply H; [apply start_inv|]. by intros Hne.
Qed.

Lemma active_paths_have_a_pending_timer_witness :
  let st := Detector.run
              [Detector.Dequeued "/source/a.jpg" 0%Q 0%Q; Detector.TimerFires 0 5%Q]
              (Detector.start (mkWorld {[ "/source/a.jpg" := Regular "JFIF" 0 ]} [] ∅) []) in
  Watcher.active st ≠ []
  ∧ ∃ id i, Detector.pending st = [id] ∧ Watcher.timer st = Some id
            ∧ Watcher.timers st !! id = Some (Watcher.mkTimer i Watcher.Pending).
Proof.
  assert (Watcher.active
            (Detector.run
               [Detector.Dequeued "/source/a.jpg" 0%Q 0%Q; Detector.TimerFires 0 5%Q]
               (Detector.start (mkWorld {[ "/source/a.jpg" := Regular "JFIF" 0 ]} [] ∅) []))
          ≠ []) as Hne by (by vm_compute).
  split; [exact Hne|].
  exact (active_paths_have_a_pending_timer
           [Detector.Dequeued "/source/a.jpg" 0%Q 0%Q; Detector.TimerFires 0 5%Q]
           (mkWorld {[ "/source/a.jpg" := Regular "JFIF" 0 ]} [] ∅) [] Hne).
Defined.

Lemma dequeued_app (e1 e2 : list Detector.Event) :
  dequeued (e1 ++ e2) = dequeued e1 ++ dequeued e2.
Proof.
  induction e1 as [|[path t1 t2|id now|fs'] e1 IH]; simpl; [done| |done|done].
  by rewrite IH.
Qed.

Lemma accounted_sweep (workq0 seen : list string) (now : Q) (st : Watcher.State) :
  Detector.inv st → accounted workq0 seen st →
  accounted workq0 seen (rearm (swept now st)).
Proof.
  intros Hinv (more & Hq & Hc).
  destruct (sweep_result now st Hinv) as (_ & _ & _ & Hq' & Ha' & _).
  exists (more ++ stale_keys now (Watcher.active st)).
  split; [by rewrite Hq', Hq, app_assoc|].
  intros p. rewrite Ha'. specialize (Hc p). unfold occurrences, waiting in *.
  rewrite count_occ_app, count_stale_keys, dict_get_fresh by apply Hinv.
  destruct (Dict.get p (Watcher.active st)) as [t|]; [|lia].
  destruct (stale now (p, t)); lia.
Qed.

Lemma accounted_more (workq0 seen extra : list string) (st : Watcher.State) :
  accounted workq0 seen st → accounted workq0 (seen ++ extra) st.
Proof.
  intros (more & Hq & Hc). exists more. split; [done|]. intros p.
  specialize (Hc p). unfold occurrences in *. rewrite count_occ_app. lia.
Qed.

Lemma accounted_step (workq0 seen : list string) (st : Watcher.State) (ev : Detector.Event) :
  Detector.inv st → accounted workq0 seen st →
  accounted workq0 (seen ++ dequeued [ev]) (Detector.step st ev).
Proof.
  intros Hinv Hacc. destruct ev as [path t_set t_sweep|id now|fs']; simpl.
  - destruct (watcher_process_file_cases path t_set t_sweep st) as [Hz Hnz].
    destruct (Z_le_gt_dec
                (match fs (Watcher.world st) !! path with
                 | Some nd => st_size nd
                 | None => 0
                 end) 0) as [Hs|Hs].
    + rewrite (Hz Hs). by apply accounted_more.
    + rewrite Hnz by lia.
      assert (Detector.inv (Watcher.set_active
                              (Dict.set path t_set (Watcher.active st)) st)) as Hi.
      { destruct Hinv as [Hwf Hp]. split; [by apply dict_set_wf|done]. }
      destruct (check_actives_inv t_sweep _ Hi) as [-> _].
      apply accounted_sweep; [done|].
      destruct Hacc as (more & Hq & Hc). exists more. split; [done|].
      intros p. specialize (Hc p). unfold occurrences, waiting in *. simpl.
      rewrite count_occ_app, dict_get_set. simpl.
      destruct (String.eqb_spec path p) as [->|Hne].
      * destruct (String.string_dec p p); [|done].
        destruct (Dict.get p (Watcher.active st)); lia.
      * destruct (String.string_dec path p); [done|]. lia.
  - rewrite app_nil_r. unfold Watcher.timer_fires.
    destruct (Watcher.timers st !! id) as [[i s]|] eqn:Hid; [|done].
    destruct s; try done.
    assert (Detector.inv (Watcher.set_timers
                            (<[id:=Watcher.mkTimer i Watcher.Fired]> (Watcher.timers st)) st))
      as Hi.
    { destruct Hinv as [Hwf Hp]. split; [done|].
      intros x Hx. apply Hp.
      apply elem_of_pending_from in Hx as (k & t & Hk & Hl & Hpt).
      simpl in Hk, Hl. subst k.
      destruct (decide (x = id)) as [->|Hne].
      - rewrite list_lookup_insert_eq in Hl by (by eapply lookup_lt_Some).
        by injection Hl as <-.
      - rewrite list_lookup_insert_ne in Hl by done.
        apply elem_of_pending_from. by exists x, t. }
    destruct (check_actives_inv now _ Hi) as [-> _].
    by apply accounted_sweep.
  - rewrite app_nil_r. exact Hacc.
Qed.

(** X11: as long as its sweeps are not interleaved with each other (each
    item of the watch queue and each timer that fires being one step), the
    detector only appends to the work queue, and it promotes a path at most
    as often as the path was taken from the watch queue: what it has
    appended since its start, counted per path, never exceeds the number of
    times that path was dequeued.  It promotes no path of its own making
    and duplicates none.  (Two sweeps that overlap can promote a path
    twice, see the section on sweeps on two threads.) *)
Theorem promoted_at_most_as_often_as_dequeued
    (evs : list Detector.Event) (w : World) (workq : list string) :
  ∃ more,
    Watcher.workq (Detector.run evs (Detector.start w workq)) = workq ++ more
    ∧ ∀ p, (count_occ String.string_dec more p
            ≤ count_occ String.string_dec (dequeued evs) p)%nat.
Proof.
  assert (∀ evs st seen, Detector.inv st → accounted workq seen st →
            accounted workq (seen ++ dequeued evs) (Detector.run evs st)) as H.
  { clear evs. unfold Detector.run. induction evs as [|ev evs IH]; intros st seen Hi Ha.
    - simpl. by rewrite app_nil_r.
    - change (ev :: evs) with ([ev] ++ evs). rewrite dequeued_app, app_assoc. simpl.
      apply IH; [by apply step_inv|by apply accounted_step]. }
  destruct (H evs (Detector.start w workq) [] (start_inv _ _)) as (more & Hq & Hc).
  { exists []. split; [by rewrite app_nil_r|]. intros p.
    unfold occurrences, waiting. simpl. lia. }
  exists more. split; [done|]. intros p. specialize (Hc p).
  unfold occurrences in Hc. simpl in Hc. lia.
Qed.





(** ** The command line of exiftool *)

Lemma join_absolute (a b : string) : absolute b = true → OsPath.join a b = b.
Proof.
  destruct b as [|c b]; [done|]. simpl. intros ->%chr_eqb_eq. done.
Qed.

Lemma join_relative (a b : string) (c : ascii) (a' : string) :
  absolute b = false → a = a' +:+ String c "" → c ≠ "/"%char →
  OsPath.join a b = a +:+ "/" +:+ b.
Proof.
  intros Hb -> Hc. unfold OsPath.join.
  assert (String.eqb (a' +:+ String c "") "" = false) as ->.
  { apply String.eqb_neq. by destruct a'. }
  assert (last (list_ascii_of_string (a' +:+ String c "")) = Some c) as ->.
  { clear. induction a' as [|x a' IH]; [done|].
    simpl. destruct (list_ascii_of_string (a' +:+ String c "")) eqn:E; [|done].
    by destruct a'. }
  simpl. apply chr_eqb_neq in Hc. rewrite Hc.
  destruct b as [|x b]; [done|].
  simpl in Hb. apply chr_eqb_neq in Hb.
  destruct x as [[] [] [] [] [] [] [] []]; done.
Qed.

(** X14: exiftool is called with the source path taken as it is when it is
    absolute (the paths of the events are) and under [/source] otherwise,
    and with a destination format that is the configured one under [/dest]
    unless that one begins with a slash: an absolute [FORMAT] takes the
    place of the destination directory altogether. *)
Theorem command_resolves_paths (env : Environ) (path : string) :
  Worker.command env path =
    ["/app/exiftool"; "-v"; "-r"; "-d";
     (if absolute (Config.UI_DSTFMT env) then Config.UI_DSTFMT env
      else "/dest/" +:+ Config.UI_DSTFMT env);
     "-filename<filemodifydate"; "-filename<createdate"; "-filename<datetimeoriginal";
     (if absolute path then path else "/source/" +:+ path)].
Proof.
  assert (∀ b, OsPath.join "/dest" b = if absolute b then b else "/dest/" +:+ b) as Hd.
  { intros b. destruct (absolute b) eqn:E.
    - by apply join_absolute.
    - by rewrite (join_relative "/dest" _ "t" "/des"). }
  assert (∀ b, OsPath.join "/source" b = if absolute b then b else "/source/" +:+ b) as Hs.
  { intros b. destruct (absolute b) eqn:E.
    - by apply join_absolute.
    - by rewrite (join_relative "/source" _ "e" "/sourc"). }
  unfold Worker.command, Config.UI_SRCDIR, Config.UI_DSTDIR, SRCDIR, DSTDIR, PKGDIR.
  by rewrite Hd, Hs.
Qed.

Example command_with_absolute_format :
  nth 4 (Worker.command {[ "FORMAT" := "/volume1/photo/%Y/%m%d" ]} "IMG_001.JPG") ""
  = "/volume1/photo/%Y/%m%d"
  ∧ last (Worker.command {[ "FORMAT" := "/volume1/photo/%Y/%m%d" ]} "IMG_001.JPG")
    = Some "/source/IMG_001.JPG".
Proof. split; reflexivity. Qed.

(** ** The scan at start-up *)

(** X15: the start-up scan puts on the watch queue, after what is there
    and in the order of the listing, the entries of the source directory
    that are relevant files, each joined to [/source]; it puts nothing on
    the work queue: a file found at start-up always goes through the
    stability detector. *)
Theorem startup_scan_queues_relevant_entries
    (entries : list string) (q : EventHandler.Queues) :
  EventHandler.init entries q
  = EventHandler.mkQueues (EventHandler.workq q)
      (EventHandler.watchq q
       ++ (OsPath.join SRCDIR <$> List.filter EventHandler.is_relevant_file entries)).
Proof.
  revert q. induction entries as [|entry entries IH]; intros q; simpl.
  - rewrite app_nil_r. by destruct q.
  - rewrite IH. destruct (EventHandler.is_relevant_file entry); simpl; [|done].
    by rewrite <-app_assoc.
Qed.

Example startup_scan :
  EventHandler.init ["IMG_001.JPG"; "notes.txt"; ".jpg"; "clip.mov"; "@eaDir"]
    (EventHandler.mkQueues [] [])
  = EventHandler.mkQueues [] ["/source/IMG_001.JPG"; "/source/clip.mov"].
Proof. by vm_compute. Qed.

(** ** A renamed file that is gone *)

(** X16: the duplicate check needs the renamed file itself: when the
    primary candidate exists and the marked destination is not on disk (any
    more), [dedup] raises [FileNotFoundError] after logging the check, and
    removes nothing; the exception leaves [process_file] and counts as an
    error of the Worker thread.  When the primary candidate does not exist
    the check ends normally, whether the destination is there or not. *)
Theorem dedup_raises_when_renamed_file_is_gone (dstfile : string) (w : World) :
  let dupfile := before "-" dstfile +:+ (OsPath.splitext dstfile).2 in
  let w1 := mkWorld (fs w) (logs w ++ [check_line dstfile dupfile]) (cmp_cache w) in
  (is_Some (fs w !! dupfile) → fs w !! dstfile = None →
     Worker.dedup dstfile w = (Raise FileNotFoundError, w1))
  ∧ (fs w !! dupfile = None → Worker.dedup dstfile w = (Ret tt, w1)).
Proof.
  intros dupfile w1. pose proof (dedup_cases dstfile w) as Hc.
  cbv zeta in Hc. fold dupfile w1 in Hc. split.
  - intros [nd Hd] Hs. rewrite Hc, Hd, Hs. by destruct nd.
  - intros Hd. by rewrite Hc, Hd.
Qed.

(** ** What the configuration logs *)

(** X17: when [DELETE_DUPLICATE] is set, the constructor logs three lines
    and nothing else, and the values in them are the ones the properties
    [UI_DSTFMT], [UI_DELETE_DUPS] and [UI_LOCALE] hand to the rest of the
    program, defaults included. *)
Theorem config_logs_its_settings (env : Environ) (l : list LogMsg) (s : string) :
  env !! "DELETE_DUPLICATE" = Some s →
  Config.init env l
  = (Ret tt,
     l ++ [Line ("ENV FORMAT: " +:+ Config.UI_DSTFMT env);
           Line ("ENV DELETE_DUPLICATE: " +:+ s);
           Line ("ENV LOCALE: " +:+ Config.UI_LOCALE env)])
  ∧ Config.UI_DELETE_DUPS env = Py.VStr s.
Proof.
  intros Hs. unfold Config.init, Config.log, Config.UI_DSTFMT, Config.UI_LOCALE,
    Config.UI_DELETE_DUPS, environ_get. rewrite Hs. munfold. simpl.
  split; [|done].
  destruct (env !! "FORMAT"), (env !! "LOCALE"); unfold Py.str_add;
    by rewrite <-!app_assoc.
Qed.

Lemma config_logs_its_settings_witness :
  Config.init {[ "DELETE_DUPLICATE" := "yes"; "LOCALE" := "en_US.utf8" ]} []
  = (Ret tt,
     [Line "ENV FORMAT: %Y/%m/%Y%m%d_%H%M%S%%-uc.%%e";
      Line "ENV DELETE_DUPLICATE: yes";
      Line "ENV LOCALE: en_US.utf8"]).
Proof.
  exact (proj1 (config_logs_its_settings
                  {[ "DELETE_DUPLICATE" := "yes"; "LOCALE" := "en_US.utf8" ]} [] "yes"
                  eq_refl)).
Defined.

(** ** Rename and duplicate check, end to end *)

Lemma no_space_no_newline (s : string) :
  no_space s = true → Py.contains newline s = false.
Proof.
  induction s as [|a s IH]; simpl; [done|].
  intros [Ha Hs]%andb_true_iff. rewrite IH by done. rewrite orb_false_r.
  apply chr_eqb_neq. intros ->. by vm_compute in Ha.
Qed.

Lemma split_rename_line (src dst : string) :
  no_space src = true → no_space dst = true →
  Py.split newline (rename_line src dst) = [rename_line src dst].
Proof.
  intros Hs Hd. apply split_head_nosep. rewrite rename_line_unfold.
  simpl. rewrite contains_app. simpl. rewrite contains_app. simpl.
  by rewrite !no_space_no_newline.
Qed.

(** X18: the whole path of a duplicate.  With the default format and
    duplicate deletion enabled, exiftool exits 0 and prints the one line
    ['<source>' --> '<destination>'] (paths without white space) for a
    marked destination that it left on disk next to a primary with the
    same bytes, and [filecmp] does not remember the outcome "different" for
    this pair of paths: [process_file] returns normally, the marked file is
    gone, every other path is as exiftool left it, and the log got the
    move, the check and the removal, in this order. *)
Theorem renamed_duplicate_is_removed
    (exiftool : list string → gmap string Node → option (Spawn * gmap string Node))
    (env : Environ) (path dst : string) (w : World) (p : Spawn) (fs' : gmap string Node) :
  let srcfile := OsPath.join (Config.UI_SRCDIR env) path in
  let dupfile := before "-" dst +:+ (OsPath.splitext dst).2 in
  let out := Worker.process_file exiftool env path w in
  exiftool (Worker.command env path) (fs w) = Some (p, fs') →
  retval p = 0 → stdout p = rename_line srcfile dst →
  no_space srcfile = true → no_space dst = true →
  Worker.dedup_enabled env dst = true →
  identical fs' dst dupfile →
  (∀ s1 s2, cmp_cache w !! (dst, dupfile, s1, s2) ≠ Some false) →
  out.1 = Ret tt
  ∧ fs out.2 = delete dst fs'
  ∧ logs out.2
    = logs w ++ [Moved srcfile dst; check_line dst dupfile; removed_line dst dupfile].
Proof.
  intros srcfile dupfile out Hx Hr Hout Hs Hd Hen (c & m1 & m2 & H1 & H2) Hcache.
  assert (dst ≠ "") as Hdn.
  { intros ->. unfold Worker.dedup_enabled in Hen. simpl in Hen.
    by rewrite andb_false_r in Hen. }
  assert (∃ cache',
            out = (Ret tt,
                   mkWorld (delete dst fs')
                     (logs w ++ [Moved srcfile dst; check_line dst dupfile;
                                 removed_line dst dupfile]) cache'))
    as [cache' ->]; [|done].
  unfold out. rewrite (process_file_spawned _ _ _ _ _ _ Hx). cbv zeta.
  rewrite Hr. simpl negb. cbv iota. fold srcfile.
  rewrite Hout, split_rename_line by done. simpl Worker.handle_lines.
  unfold mbind at 1. unfold M_bind at 1.
  rewrite handle_line_matched; [|done|done|apply srcfile_nonempty|done].
  rewrite Hen. unfold mbind, M_bind.
  rewrite dedup_cases. cbv zeta. fold dupfile. simpl fs. rewrite H1, H2.
  rewrite Z.eqb_refl. simpl negb. cbv iota.
  assert (cmp_answer (cmp_cache w) (cmp_key dst dupfile c m1 c m2) c c = true) as Ha.
  { unfold cmp_answer, cmp_key. specialize (Hcache (Filecmp.sig (Regular c m1))
                                              (Filecmp.sig (Regular c m2))).
    destruct (cmp_cache w !! _) as [[|]|]; simpl; [done|done|apply String.eqb_refl]. }
  simpl cmp_cache. rewrite Ha. simpl. rewrite <-app_assoc. by eexists.
Qed.

Lemma renamed_duplicate_is_removed_witness :
  let after : gmap string Node :=
    {[ "/dest/2024/03/20240315_120000-1.jpg" := Regular "JFIF" 7;
       "/dest/2024/03/20240315_120000.jpg" := Regular "JFIF" 3 ]} in
  let exiftool : list string → gmap string Node → option (Spawn * gmap string Node) :=
    λ _ _, Some (mkSpawn "'/source/a.jpg' --> '/dest/2024/03/20240315_120000-1.jpg'" "" 0,
                 after) in
  identical after "/dest/2024/03/20240315_120000-1.jpg" "/dest/2024/03/20240315_120000.jpg"
  ∧ fs (Worker.process_file exiftool {[ "DELETE_DUPLICATE" := "1" ]} "/source/a.jpg"
          (mkWorld {[ "/source/a.jpg" := Regular "JFIF" 7 ]} [] ∅)).2
    = delete "/dest/2024/03/20240315_120000-1.jpg" after.
Proof.
  assert (identical
            ({[ "/dest/2024/03/20240315_120000-1.jpg" := Regular "JFIF" 7;
                "/dest/2024/03/20240315_120000.jpg" := Regular "JFIF" 3 ]}
               : gmap string Node)
            "/dest/2024/03/20240315_120000-1.jpg" "/dest/2024/03/20240315_120000.jpg")
    as Hid.
  { exists "JFIF", 7, 3. split; by vm_compute. }
  assert (Worker.dedup_enabled {[ "DELETE_DUPLICATE" := "1" ]}
            "/dest/2024/03/20240315_120000-1.jpg" = true) as Hen by (by vm_compute).
  split; [exact Hid|].
  refine (proj1 (proj2
    (renamed_duplicate_is_removed
       (λ _ _, Some (mkSpawn "'/source/a.jpg' --> '/dest/2024/03/20240315_120000-1.jpg'" "" 0,
                     {[ "/dest/2024/03/20240315_120000-1.jpg" := Regular "JFIF" 7;
                        "/dest/2024/03/20240315_120000.jpg" := Regular "JFIF" 3 ]}))
       {[ "DELETE_DUPLICATE" := "1" ]} "/source/a.jpg"
       "/dest/2024/03/20240315_120000-1.jpg"
       (mkWorld {[ "/source/a.jpg" := Regular "JFIF" 7 ]} [] ∅)
       (mkSpawn "'/source/a.jpg' --> '/dest/2024/03/20240315_120000-1.jpg'" "" 0)
       {[ "/dest/2024/03/20240315_120000-1.jpg" := Regular "JFIF" 7;
          "/dest/2024/03/20240315_120000.jpg" := Regular "JFIF" 3 ]}
       eq_refl eq_refl eq_refl eq_refl eq_refl Hen Hid _))).
  intros s1 s2. simpl. by rewrite lookup_empty.
Defined.

(** ** What [filecmp] remembers *)

(** X19: the duplicate check of a marked destination that [filecmp] has
    no outcome for (the first comparison of these two paths).  The primary
    candidate is what precedes the first marker plus the extension of the
    destination, a path other than the destination.  The renamed file is
    removed, and the removal logged, exactly when the renamed file and the
    primary are regular files with the same bytes, under a comparison of
    the full content ([shallow] is [False]); otherwise the file system
    stays as it is; the primary is never removed. *)
Theorem first_comparison_removes_iff_identical (dstfile : string) (w : World) :
  let dupfile := before "-" dstfile +:+ (OsPath.splitext dstfile).2 in
  let out := Worker.dedup dstfile w in
  Py.contains "-" dstfile = true →
  (∀ s1 s2, cmp_cache w !! (dstfile, dupfile, s1, s2) = None) →
  Worker.dupfile_of dstfile = Ret dupfile
  ∧ (∃ rest, dstfile = before "-" dstfile +:+ String "-" rest)
  ∧ Py.contains "-" (before "-" dstfile) = false
  ∧ dupfile ≠ dstfile
  ∧ (identical (fs w) dstfile dupfile →
       out.1 = Ret tt
       ∧ fs out.2 = delete dstfile (fs w)
       ∧ logs out.2 = logs w ++ [check_line dstfile dupfile; removed_line dstfile dupfile])
  ∧ (¬ identical (fs w) dstfile dupfile →
       fs out.2 = fs w ∧ logs out.2 = logs w ++ [check_line dstfile dupfile])
  ∧ fs out.2 !! dupfile = fs w !! dupfile.
Proof.
  intros dupfile out Hm Hfresh.
  destruct (before_spec _ _ Hm) as [Hb Hrest].
  pose proof (dupfile_differs dstfile Hm) as Hne. fold dupfile in Hne.
  pose proof (dedup_cases dstfile w) as Hc. cbv zeta in Hc. fold dupfile out in Hc.
  assert (∀ c1 m1 c2 m2,
            cmp_answer (cmp_cache w) (cmp_key dstfile dupfile c1 m1 c2 m2) c1 c2
            = String.eqb c1 c2) as Ha.
  { intros c1 m1 c2 m2. unfold cmp_answer, cmp_key. by rewrite Hfresh. }
  split; [apply dupfile_of_eq|]. split; [done|]. split; [done|]. split; [done|].
  split; [|split].
  - intros (c & m1 & m2 & H1 & H2). rewrite Hc, H1, H2.
    by rewrite Z.eqb_refl, Ha, String.eqb_refl.
  - intros Hnot. rewrite Hc.
    destruct (fs w !! dupfile) as [[c2 m2|z2]|] eqn:H2;
      destruct (fs w !! dstfile) as [[c1 m1|z1]|] eqn:H1; simpl; try done.
    destruct (negb _); [done|]. rewrite Ha.
    destruct (String.eqb c1 c2) eqn:He; simpl; [|done].
    apply String.eqb_eq in He as ->. destruct Hnot. by exists c2, m1, m2.
  - destruct (dedup_fs_cases dstfile w) as [H | H]; fold out in H; rewrite H; [done|].
    by rewrite lookup_delete_ne.
Qed.

(** The scenario of the specification: [15_120000-1.jpg] next to a
    byte-identical [15_120000.jpg]; the marked file goes, the primary
    stays. *)
Lemma first_comparison_removes_iff_identical_witness :
  let dstfile := "/dest/2024/03/15_120000-1.jpg" in
  let w := mkWorld {[ "/dest/2024/03/15_120000-1.jpg" := Regular "JFIF" 7;
                      "/dest/2024/03/15_120000.jpg" := Regular "JFIF" 3 ]} [] ∅ in
  Py.contains "-" dstfile = true
  ∧ fs (Worker.dedup dstfile w).2
    = {[ "/dest/2024/03/15_120000.jpg" := Regular "JFIF" 3 ]}.
Proof.
  split; [reflexivity|].
  destruct (first_comparison_removes_iff_identical
              "/dest/2024/03/15_120000-1.jpg"
              (mkWorld {[ "/dest/2024/03/15_120000-1.jpg" := Regular "JFIF" 7;
                          "/dest/2024/03/15_120000.jpg" := Regular "JFIF" 3 ]} [] ∅)
              eq_refl (λ _ _, lookup_empty _)) as (_ & _ & _ & _ & Hid & _).
  destruct Hid as (_ & Hfs & _); [exists "JFIF", 7, 3; split; by vm_compute|].
  etrans; [exact Hfs|]. by vm_compute.
Defined.

(** X20: an outcome that [filecmp] remembers for the two paths with their
    sizes and modification times decides the duplicate check, and the bytes
    are not read: when the renamed file and the primary are regular files
    of one size, the renamed file is removed if the remembered outcome is
    "equal" and kept if it is "different", whatever the two files hold;
    what is remembered stays as it is. *)
Theorem remembered_outcome_decides (dstfile : string) (w : World)
    (c1 c2 : string) (m1 m2 : Z) (outcome : bool) :
  let dupfile := before "-" dstfile +:+ (OsPath.splitext dstfile).2 in
  fs w !! dstfile = Some (Regular c1 m1) →
  fs w !! dupfile = Some (Regular c2 m2) →
  String.length c1 = String.length c2 →
  cmp_cache w !! cmp_key dstfile dupfile c1 m1 c2 m2 = Some outcome →
  Worker.dedup dstfile w
  = (Ret tt,
     if outcome
     then mkWorld (delete dstfile (fs w))
            (logs w ++ [check_line dstfile dupfile; removed_line dstfile dupfile])
            (cmp_cache w)
     else mkWorld (fs w) (logs w ++ [check_line dstfile dupfile]) (cmp_cache w)).
Proof.
  intros dupfile H1 H2 Hl Hk. rewrite dedup_cases. cbv zeta. fold dupfile.
  rewrite H1, H2, Hl, Z.eqb_refl. simpl negb. cbv iota.
  unfold cmp_answer, cmp_cache_after. rewrite Hk. simpl. by destruct outcome.
Qed.

Lemma remembered_outcome_decides_witness :
  let dstfile := "/dest/2024/03/15_120000-1.jpg" in
  let dupfile := "/dest/2024/03/15_120000.jpg" in
  let key := cmp_key dstfile dupfile "JFIF" 7 "JFIF" 3 in
  let w := mkWorld {[ dstfile := Regular "JFIF" 7; dupfile := Regular "JFIF" 3 ]} []
             {[ key := false ]} in
  identical (fs w) dstfile dupfile
  ∧ Worker.dedup dstfile w
    = (Ret tt, mkWorld (fs w) [check_line dstfile dupfile] {[ key := false ]}).
Proof.
  split; [exists "JFIF", 7, 3; split; by vm_compute|].
  exact (remembered_outcome_decides "/dest/2024/03/15_120000-1.jpg"
           (mkWorld {[ "/dest/2024/03/15_120000-1.jpg" := Regular "JFIF" 7;
                       "/dest/2024/03/15_120000.jpg" := Regular "JFIF" 3 ]} []
              {[ cmp_key "/dest/2024/03/15_120000-1.jpg" "/dest/2024/03/15_120000.jpg"
                   "JFIF" 7 "JFIF" 3 := false ]})
           "JFIF" "JFIF" 7 3 false eq_refl eq_refl eq_refl (lookup_singleton_eq _ _)).
Defined.

(** ** Source paths with white space *)

Lemma rename_re_source_no_space (line : string) (m : list string) :
  Re.match_ Worker.rename_re line = Some m → no_space (Re.group m 1) = true.
Proof.
  unfold Re.match_, Worker.rename_re. intros H.
  apply match_chr_inv in H as (s1 & -> & H).
  apply match_group_inv in H as (g1 & s2 & c1 & -> & Hg1 & Hn1 & H & ->).
  by rewrite <-no_space_all_cls in Hg1.
Qed.

(** X22: a source path with a white-space character is never captured.
    Whatever exiftool prints, when it exits 0 [process_file] finds no line
    for this source, leaves the files as exiftool left them, runs no
    duplicate check, and logs that no rename information was found. *)
Theorem source_with_space_is_never_captured
    (exiftool : list string → gmap string Node → option (Spawn * gmap string Node))
    (env : Environ) (path : string) (w : World) (p : Spawn) (fs' : gmap string Node) :
  let srcfile := OsPath.join (Config.UI_SRCDIR env) path in
  exiftool (Worker.command env path) (fs w) = Some (p, fs') →
  retval p = 0 →
  no_space srcfile = false →
  Worker.process_file exiftool env path w
  = (Ret tt,
     mkWorld fs'
       (logs w ++ [Line "exiftool succeeded, but no file rename information found"])
       (cmp_cache w)).
Proof.
  intros srcfile Hx Hr Hs.
  rewrite (process_file_spawned _ _ _ _ _ _ Hx). cbv zeta.
  rewrite Hr. simpl negb. cbv iota. fold srcfile.
  rewrite handle_lines_no_match; [done|].
  intros line m _ Hm Heq. apply rename_re_source_no_space in Hm.
  rewrite Heq in Hm. congruence.
Qed.

Lemma source_with_space_is_never_captured_witness :
  let exiftool : list string → gmap string Node → option (Spawn * gmap string Node) :=
    λ _ _, Some (mkSpawn "'/source/IMG 001.JPG' --> '/dest/2024/03/15_120000.jpg'" "" 0,
                 {[ "/dest/2024/03/15_120000.jpg" := Regular "JFIF" 3 ]}) in
  no_space (OsPath.join (Config.UI_SRCDIR ∅) "IMG 001.JPG") = false
  ∧ logs (Worker.process_file exiftool ∅ "IMG 001.JPG"
            (mkWorld {[ "/source/IMG 001.JPG" := Regular "JFIF" 3 ]} [] ∅)).2
    = [Line "exiftool succeeded, but no file rename information found"].
Proof.
  split; [reflexivity|].
  exact (f_equal (λ r, logs r.2)
           (source_with_space_is_never_captured
              (λ _ _, Some (mkSpawn "'/source/IMG 001.JPG' --> '/dest/2024/03/15_120000.jpg'"
                              "" 0,
                            {[ "/dest/2024/03/15_120000.jpg" := Regular "JFIF" 3 ]}))
              ∅ "IMG 001.JPG"
              (mkWorld {[ "/source/IMG 001.JPG" := Regular "JFIF" 3 ]} [] ∅)
              (mkSpawn "'/source/IMG 001.JPG' --> '/dest/2024/03/15_120000.jpg'" "" 0)
              {[ "/dest/2024/03/15_120000.jpg" := Regular "JFIF" 3 ]}
              eq_refl eq_refl eq_refl)).
Defined.
